(** * Bolt protocol handlers of the Neo4j Python driver

    A shallow embedding of
      - [neo4j/exceptions.py]        (server and driver error taxonomy),
      - [neo4j/io/_common.py]        (responses, connection error wrapper,
                                      outbox),
      - [neo4j/_async/io/_bolt4.py]  (Bolt 4.0 .. 4.4 protocol handlers),
      - [neo4j/_sync/io/_bolt5.py]   (Bolt 5.0 protocol handler),
    followed by the properties established about them.

    Python code is embedded as functions into [Result]: a call either
    returns a value or raises an exception.  Code that mutates the
    connection runs in the monad [M], which threads the connection and
    the caller's state through a call and keeps the mutations made
    before an exception was raised. *)

From Stdlib Require Import ZArith String Ascii List Bool Lia.
From Stdlib Require Import Floats.SpecFloat.
From stdpp Require Import gmap strings list.

Local Open Scope string_scope.
Local Open Scope Z_scope.

(** ** Python values *)

Module Py.

(** The values that cross the driver's interface: PackStream data and the
    arguments callers pass to the request builders.  A [dict] is an
    association list in insertion order with unique keys. *)
#[warnings="-register-all"]
Inductive Value :=
| VNone
| VBool (b : bool)
| VInt (z : Z)
| VFloat (f : spec_float)
| VStr (s : string)
| VBytes (b : list Z)
| VList (l : list Value)
| VDict (d : list (string * Value)).

(** Python truthiness, as tested by [if x:], [x or y] and [not x]. *)
Definition truthy (v : Value) : bool :=
  match v with
  | VNone => false
  | VBool b => b
  | VInt z => negb (z =? 0)
  | VFloat (S754_zero _) => false
  | VFloat _ => true
  | VStr s => negb (String.eqb s "")
  | VBytes b => match b with [] => false | _ => true end
  | VList l => match l with [] => false | _ => true end
  | VDict d => match d with [] => false | _ => true end
  end.

(** [a or b] *)
Definition py_or (a b : Value) : Value := if truthy a then a else b.

(** [v == s] for a string literal [s]. *)
Definition eq_str (v : Value) (s : string) : bool :=
  match v with
  | VStr s' => String.eqb s' s
  | _ => false
  end.

Definition is_none (v : Value) : bool :=
  match v with VNone => true | _ => false end.

(** Dictionaries. *)
Fixpoint dict_lookup (d : list (string * Value)) (k : string) : option Value :=
  match d with
  | [] => None
  | (k', v) :: d' => if String.eqb k' k then Some v else dict_lookup d' k
  end.

(** [d[k] = v]: an existing key keeps its position. *)
Fixpoint dict_set (d : list (string * Value)) (k : string) (v : Value)
  : list (string * Value) :=
  match d with
  | [] => [(k, v)]
  | (k', v') :: d' =>
      if String.eqb k' k then (k', v) :: d' else (k', v') :: dict_set d' k v
  end.

Fixpoint dict_remove (d : list (string * Value)) (k : string)
  : list (string * Value) :=
  match d with
  | [] => []
  | (k', v') :: d' =>
      if String.eqb k' k then dict_remove d' k else (k', v') :: dict_remove d' k
  end.

(** [d.update(e)] *)
Definition dict_update (d e : list (string * Value)) : list (string * Value) :=
  fold_left (fun acc kv => dict_set acc (fst kv) (snd kv)) e d.

(** [s.split(sep)] for a one-character separator. *)
Fixpoint split (sep : ascii) (s : string) : list string :=
  match s with
  | EmptyString => [EmptyString]
  | String c s' =>
      if Ascii.eqb c sep then EmptyString :: split sep s'
      else match split sep s' with
           | h :: t => String c h :: t
           | [] => [String c EmptyString]
           end
  end.

End Py.
Export Py.

(** ** neo4j/exceptions.py *)

Module Exceptions.

(** The exception classes of [neo4j.exceptions], the builtin classes the
    modelled code raises, and [BoltProtocolError] of [neo4j._exceptions].
    [OtherException] stands for any further class deriving directly from
    [Exception] (what a caller's callback may raise). *)
Inductive ExcClass :=
| Exception_
| TypeError | ValueError | AttributeError | OverflowError | IndexError
| Neo4jError | ClientError | DatabaseError | TransientError
| DatabaseUnavailable | ConstraintError | CypherSyntaxError | CypherTypeError
| NotALeader | Forbidden | ForbiddenOnReadOnlyDatabase | AuthError
| TokenExpired
| DriverError | SessionExpired | TransactionError | TransactionNestingError
| ResultError | ResultConsumedError | ResultNotSingleError
| ServiceUnavailable | RoutingServiceUnavailable | WriteServiceUnavailable
| ReadServiceUnavailable | IncompleteCommit
| ConfigurationError | AuthConfigurationError | CertificateConfigurationError
| UnsupportedServerProduct
| BoltProtocolError
| OtherException (name : string).

#[global] Instance ExcClass_eq_dec : EqDecision ExcClass.
Proof. solve_decision. Defined.

(** The base class named in each [class C(B):] statement. *)
Definition base (c : ExcClass) : option ExcClass :=
  match c with
  | Exception_ => None
  | TypeError | ValueError | AttributeError | OverflowError | IndexError =>
      Some Exception_
  | Neo4jError => Some Exception_
  | ClientError | DatabaseError | TransientError => Some Neo4jError
  | DatabaseUnavailable => Some TransientError
  | ConstraintError | CypherSyntaxError | CypherTypeError => Some ClientError
  | NotALeader => Some TransientError
  | Forbidden => Some ClientError
  | ForbiddenOnReadOnlyDatabase => Some TransientError
  | AuthError => Some ClientError
  | TokenExpired => Some AuthError
  | DriverError => Some Exception_
  | SessionExpired => Some DriverError
  | TransactionError => Some DriverError
  | TransactionNestingError => Some DriverError
  | ResultError => Some DriverError
  | ResultConsumedError | ResultNotSingleError => Some ResultError
  | ServiceUnavailable => Some DriverError
  | RoutingServiceUnavailable | WriteServiceUnavailable
  | ReadServiceUnavailable | IncompleteCommit => Some ServiceUnavailable
  | ConfigurationError => Some DriverError
  | AuthConfigurationError | CertificateConfigurationError =>
      Some ConfigurationError
  | UnsupportedServerProduct => Some Exception_
  | BoltProtocolError => Some Exception_
  | OtherException _ => Some Exception_
  end.

(** Method resolution order: the class followed by its chain of bases.  The
    hierarchy is five classes deep at most. *)
Fixpoint mro_upto (n : nat) (c : ExcClass) : list ExcClass :=
  c :: match n, base c with
       | S n', Some b => mro_upto n' b
       | _, _ => []
       end.

Definition mro (c : ExcClass) : list ExcClass := mro_upto 8 c.

Definition issubclass (c d : ExcClass) : bool := bool_decide (d ∈ mro c).

(** An exception object: its class, the [args] tuple kept by
    [BaseException], and the attributes set on the instance. *)
Record Exc := mkExc {
  exc_class : ExcClass;
  exc_args : list Value;
  exc_dict : list (string * Value)
}.

Definition isinstance (e : Exc) (c : ExcClass) : bool :=
  issubclass (exc_class e) c.

(** [except (c1, c2, ...)] *)
Definition caught_by (e : Exc) (cs : list ExcClass) : bool :=
  existsb (isinstance e) cs.

Inductive Result (A : Type) :=
| Ok (a : A)
| Raise (e : Exc).
Arguments Ok {A} a.
Arguments Raise {A} e.

Definition raise_new {A} (c : ExcClass) (args : list Value) : Result A :=
  Raise (mkExc c args []).

Definition setattr (e : Exc) (k : string) (v : Value) : Exc :=
  mkExc (exc_class e) (exc_args e) (dict_set (exc_dict e) k v).

(** Attributes declared in a class body. *)
Definition class_attrs (c : ExcClass) : list (string * Value) :=
  match c with
  | Neo4jError =>
      [("message", VNone); ("code", VNone); ("classification", VNone);
       ("category", VNone); ("title", VNone); ("metadata", VNone)]
  | _ => []
  end.

Fixpoint class_lookup (cs : list ExcClass) (k : string) : option Value :=
  match cs with
  | [] => None
  | c :: cs' =>
      match dict_lookup (class_attrs c) k with
      | Some v => Some v
      | None => class_lookup cs' k
      end
  end.

(** [e.k]: the instance dictionary first, then the classes of the MRO. *)
Definition getattr (e : Exc) (k : string) : Result Value :=
  match dict_lookup (exc_dict e) k with
  | Some v => Ok v
  | None =>
      match class_lookup (mro (exc_class e)) k with
      | Some v => Ok v
      | None => raise_new AttributeError [VStr k]
      end
  end.

Definition CLASSIFICATION_CLIENT := "ClientError".
Definition CLASSIFICATION_TRANSIENT := "TransientError".
Definition CLASSIFICATION_DATABASE := "DatabaseError".

Definition client_errors : gmap string ExcClass :=
  list_to_map [
    ("Neo.ClientError.Schema.ConstraintValidationFailed", ConstraintError);
    ("Neo.ClientError.Schema.ConstraintViolation", ConstraintError);
    ("Neo.ClientError.Statement.ConstraintVerificationFailed", ConstraintError);
    ("Neo.ClientError.Statement.ConstraintViolation", ConstraintError);
    ("Neo.ClientError.Statement.InvalidSyntax", CypherSyntaxError);
    ("Neo.ClientError.Statement.SyntaxError", CypherSyntaxError);
    ("Neo.ClientError.Procedure.TypeError", CypherTypeError);
    ("Neo.ClientError.Statement.InvalidType", CypherTypeError);
    ("Neo.ClientError.Statement.TypeError", CypherTypeError);
    ("Neo.ClientError.General.ForbiddenOnReadOnlyDatabase",
       ForbiddenOnReadOnlyDatabase);
    ("Neo.ClientError.General.ReadOnly", Forbidden);
    ("Neo.ClientError.Schema.ForbiddenOnConstraintIndex", Forbidden);
    ("Neo.ClientError.Schema.IndexBelongsToConstraint", Forbidden);
    ("Neo.ClientError.Security.Forbidden", Forbidden);
    ("Neo.ClientError.Transaction.ForbiddenDueToTransactionType", Forbidden);
    ("Neo.ClientError.Security.AuthorizationFailed", AuthError);
    ("Neo.ClientError.Security.Unauthorized", AuthError);
    ("Neo.ClientError.Security.TokenExpired", TokenExpired);
    ("Neo.ClientError.Cluster.NotALeader", NotALeader)
  ].

Definition transient_errors : gmap string ExcClass :=
  list_to_map [
    ("Neo.TransientError.General.DatabaseUnavailable", DatabaseUnavailable)
  ].

(** [Neo4jError._extract_error_class] *)
Definition _extract_error_class (cls : ExcClass) (classification code : string)
  : ExcClass :=
  if String.eqb classification CLASSIFICATION_CLIENT then
    match client_errors !! code with
    | Some c => c
    | None => ClientError
    end
  else if String.eqb classification CLASSIFICATION_TRANSIENT then
    match transient_errors !! code with
    | Some c => c
    | None => TransientError
    end
  else if String.eqb classification CLASSIFICATION_DATABASE then
    DatabaseError
  else cls.

(** [Neo4jError.hydrate(message=None, code=None, **metadata)], a class
    method: [cls] is the class it is called on.  The [try] block catches the
    [ValueError] of unpacking a split that has not exactly four parts; what
    [code.split] raises on a truthy code that is not a string propagates. *)
Definition hydrate (cls : ExcClass) (message code : Value)
    (metadata : list (string * Value)) : Result Exc :=
  let message := py_or message (VStr "An unknown error occurred") in
  let code := py_or code (VStr "Neo.DatabaseError.General.UnknownError") in
  match code with
  | VStr s =>
      let '(classification, category, title) :=
        match split "." s with
        | [_; classification; category; title] =>
            (if String.eqb s "Neo.ClientError.Security.AuthorizationExpired"
             then CLASSIFICATION_TRANSIENT else classification,
             category, title)
        | _ => (CLASSIFICATION_DATABASE, "General", "UnknownError")
        end in
      let error_class := _extract_error_class cls classification s in
      let inst := mkExc error_class [message] [] in
      let inst := setattr inst "message" message in
      let inst := setattr inst "code" code in
      let inst := setattr inst "classification" (VStr classification) in
      let inst := setattr inst "category" (VStr category) in
      let inst := setattr inst "title" (VStr title) in
      let inst := setattr inst "metadata" (VDict metadata) in
      Ok inst
  | VBytes _ => raise_new TypeError [VStr "a bytes-like object is required, not 'str'"]
  | _ => raise_new AttributeError [VStr "split"]
  end.

(** [Neo4jError.hydrate] applied to an unpacked metadata map: the keys [message] and [code] bind the
    named parameters, the others are collected.  A key named [cls] would
    clash with the bound class argument; metadata maps are taken not to
    have one. *)
Definition hydrate_kwargs (cls : ExcClass) (metadata : list (string * Value))
  : Result Exc :=
  hydrate cls
    (default VNone (dict_lookup metadata "message"))
    (default VNone (dict_lookup metadata "code"))
    (dict_remove (dict_remove metadata "message") "code").

(** The bodies of the [is_retriable] methods, by defining class. *)
Definition is_retriable_in (c : ExcClass) : option (Exc -> Result bool) :=
  match c with
  | Neo4jError => Some (fun _ => Ok false)
  | TransientError =>
      Some (fun self =>
        match getattr self "code" with
        | Ok code =>
            Ok (negb (eq_str code "Neo.TransientError.Transaction.Terminated"
                      || eq_str code
                           "Neo.TransientError.Transaction.LockClientStopped"))
        | Raise e => Raise e
        end)
  | DriverError => Some (fun _ => Ok false)
  | SessionExpired => Some (fun _ => Ok true)
  | ServiceUnavailable => Some (fun _ => Ok true)
  | IncompleteCommit => Some (fun _ => Ok false)
  | _ => None
  end.

Fixpoint resolve {A} (defs : ExcClass -> option A) (cs : list ExcClass)
  : option A :=
  match cs with
  | [] => None
  | c :: cs' =>
      match defs c with
      | Some m => Some m
      | None => resolve defs cs'
      end
  end.

(** [e.is_retriable()] *)
Definition is_retriable (e : Exc) : Result bool :=
  match resolve is_retriable_in (mro (exc_class e)) with
  | Some m => m e
  | None => raise_new AttributeError [VStr "is_retriable"]
  end.

(** [Neo4jError.invalidates_all_connections], defined by [Neo4jError] only. *)
Definition invalidates_all_connections_in (c : ExcClass)
  : option (Exc -> Result bool) :=
  match c with
  | Neo4jError =>
      Some (fun self =>
        match getattr self "code" with
        | Ok code =>
            Ok (eq_str code "Neo.ClientError.Security.AuthorizationExpired")
        | Raise e => Raise e
        end)
  | _ => None
  end.

Definition invalidates_all_connections (e : Exc) : Result bool :=
  match resolve invalidates_all_connections_in (mro (exc_class e)) with
  | Some m => m e
  | None => raise_new AttributeError [VStr "invalidates_all_connections"]
  end.

(** *** Construction of driver errors *)

(** Binding of the leading named parameter of an [__init__] that also takes
    star-args and keyword arguments: positional first, else by keyword. *)
Definition bind_param (name : string) (args : list Value)
    (kwargs : list (string * Value))
  : Result (Value * list Value * list (string * Value)) :=
  match args with
  | v :: args' =>
      match dict_lookup kwargs name with
      | Some _ => raise_new TypeError [VStr "got multiple values for argument"]
      | None => Ok (v, args', kwargs)
      end
  | [] =>
      match dict_lookup kwargs name with
      | Some v => Ok (v, [], dict_remove kwargs name)
      | None => raise_new TypeError [VStr "missing 1 required positional argument"]
      end
  end.

(** [super(t, self)]: the classes after [t] in the MRO of [self]'s class;
    Python raises [TypeError] when [self] is not an instance of [t]. *)
Fixpoint after (t : ExcClass) (cs : list ExcClass) : list ExcClass :=
  match cs with
  | [] => []
  | c :: cs' => if decide (c = t) then cs' else after t cs'
  end.

Definition py_super (t : ExcClass) (self : Exc) : Result (list ExcClass) :=
  if isinstance self t then Ok (after t (mro (exc_class self)))
  else raise_new TypeError
         [VStr "super(type, obj): obj must be an instance or subtype of type"].

(** [__init__] looked up along a list of classes and run on [self].  The
    classes [SessionExpired], [TransactionError], [TransactionNestingError]
    and [ResultError] define one; every other class of the module inherits
    [BaseException.__init__], which stores [args] and takes no keywords. *)
Fixpoint init_along (fuel : nat) (chain : list ExcClass) (self : Exc)
    (args : list Value) (kwargs : list (string * Value)) : Result Exc :=
  match fuel with
  | O => raise_new Exception_ [VStr "RecursionError"]
  | S fuel' =>
      let super_init t self args kwargs :=
        match py_super t self with
        | Ok chain' => init_along fuel' chain' self args kwargs
        | Raise e => Raise e
        end in
      match chain with
      | [] => Ok self
      | SessionExpired :: _ =>
          match bind_param "session" args kwargs with
          | Ok (session, args', kwargs') =>
              super_init SessionExpired self (session :: args') kwargs'
          | Raise e => Raise e
          end
      | TransactionError :: _ =>
          match bind_param "transaction" args kwargs with
          | Ok (transaction, args', kwargs') =>
              match super_init TransactionError self args' kwargs' with
              | Ok self' => Ok (setattr self' "transaction" transaction)
              | Raise e => Raise e
              end
          | Raise e => Raise e
          end
      | TransactionNestingError :: _ =>
          match bind_param "transaction" args kwargs with
          | Ok (transaction, args', kwargs') =>
              match super_init TransactionError self args' kwargs' with
              | Ok self' => Ok (setattr self' "transaction" transaction)
              | Raise e => Raise e
              end
          | Raise e => Raise e
          end
      | ResultError :: _ =>
          match bind_param "result" args kwargs with
          | Ok (result, args', kwargs') =>
              match super_init ResultError self args' kwargs' with
              | Ok self' => Ok (setattr self' "result" result)
              | Raise e => Raise e
              end
          | Raise e => Raise e
          end
      | Exception_ :: _ =>
          match kwargs with
          | [] => Ok (mkExc (exc_class self) args (exc_dict self))
          | _ => raise_new TypeError [VStr "takes no keyword arguments"]
          end
      | _ :: chain' => init_along fuel' chain' self args kwargs
      end
  end.

(** Instantiation of class [c] on positional and keyword arguments:
    [BaseException.__new__] records the arguments,
    then [__init__] is resolved from [c]. *)
Definition construct (c : ExcClass) (args : list Value)
    (kwargs : list (string * Value)) : Result Exc :=
  init_along 16 (mro c) (mkExc c args []) args kwargs.

End Exceptions.
Export Exceptions.

(** ** The connection and its response queue *)

Module Connection.

(** Modelled from the spec: the enumeration [ServerStates] of [_bolt3], which
    is imported by the handlers but is not among the sources. *)
Inductive ServerStates :=
| CONNECTED | READY | STREAMING | TX_READY | TX_STREAMING | FAILED | DEFUNCT.

#[global] Instance ServerStates_eq_dec : EqDecision ServerStates.
Proof. solve_decision. Defined.

(** The protocol handler classes. *)
Inductive BoltVersion :=
| Bolt4x0 | Bolt4x1 | Bolt4x2 | Bolt4x3 | Bolt4x4 | Bolt5x0.

Definition PROTOCOL_VERSION (v : BoltVersion) : Z * Z :=
  match v with
  | Bolt4x0 => (4, 0)
  | Bolt4x1 => (4, 1)
  | Bolt4x2 => (4, 2)
  | Bolt4x3 => (4, 3)
  | Bolt4x4 => (4, 4)
  | Bolt5x0 => (5, 0)
  end.


(** What a keyword argument of [**handlers] can hold. *)
Inductive Handler :=
| HUser (h : nat)           (* a callable supplied by the caller *)
| HDictUpdate (cell : nat)  (* the bound method [update] of a local dict *)
| HListExtend (cell : nat)  (* the bound method [extend] of a local list *)
| HResetFail                (* the closure [fail] defined by [reset] *)
| HValue (v : Value).       (* a value that is not callable *)

Definition callable (h : Handler) : bool :=
  match h with HValue _ => false | _ => true end.

Inductive ResponseClass := Response_ | InitResponse | CommitResponse.

(** [Response.__init__]; the [connection] attribute is the connection the
    response is enqueued on. *)
Record Response := mkResponse {
  resp_class : ResponseClass;
  handlers : list (string * Handler);
  message : string;
  complete : bool
}.

Definition set_complete (r : Response) : Response :=
  mkResponse (resp_class r) (handlers r) (message r) true.

Record Message := mkMessage { tag : Z; fields : list Value }.

(** The calls the core makes on the pool. *)
Inductive PoolCall :=
| Deactivate (address : Value)
| OnWriteFailure (address : Value)
| MarkAllStale.

(** The state of one connection object.  Responses are objects: [heap] holds
    them in order of creation and the deque [responses] holds references
    ([None] where a message was appended without a response).  The last
    three fields record history: the calls made on the pool and the
    references appended to and popped from the deque. *)
Record Conn := mkConn {
  version : BoltVersion;
  responses : list (option nat);
  heap : list Response;
  server_state : ServerStates;
  pool : bool;
  unresolved_address : Value;
  routing_context : Value;
  outbox : list Message;
  cells : list Value;
  pool_calls : list PoolCall;
  enqueued : list (option nat);
  popped : list (option nat)
}.

Definition set_responses (q : list (option nat)) (c : Conn) : Conn :=
  mkConn (version c) q (heap c) (server_state c) (pool c)
    (unresolved_address c) (routing_context c) (outbox c) (cells c)
    (pool_calls c) (enqueued c) (popped c).

Definition set_heap (h : list Response) (c : Conn) : Conn :=
  mkConn (version c) (responses c) h (server_state c) (pool c)
    (unresolved_address c) (routing_context c) (outbox c) (cells c)
    (pool_calls c) (enqueued c) (popped c).

Definition set_server_state (s : ServerStates) (c : Conn) : Conn :=
  mkConn (version c) (responses c) (heap c) s (pool c)
    (unresolved_address c) (routing_context c) (outbox c) (cells c)
    (pool_calls c) (enqueued c) (popped c).

Definition set_outbox (o : list Message) (c : Conn) : Conn :=
  mkConn (version c) (responses c) (heap c) (server_state c) (pool c)
    (unresolved_address c) (routing_context c) o (cells c)
    (pool_calls c) (enqueued c) (popped c).

Definition set_cells (l : list Value) (c : Conn) : Conn :=
  mkConn (version c) (responses c) (heap c) (server_state c) (pool c)
    (unresolved_address c) (routing_context c) (outbox c) l
    (pool_calls c) (enqueued c) (popped c).

Definition set_pool_calls (l : list PoolCall) (c : Conn) : Conn :=
  mkConn (version c) (responses c) (heap c) (server_state c) (pool c)
    (unresolved_address c) (routing_context c) (outbox c) (cells c)
    l (enqueued c) (popped c).

Definition set_enqueued (l : list (option nat)) (c : Conn) : Conn :=
  mkConn (version c) (responses c) (heap c) (server_state c) (pool c)
    (unresolved_address c) (routing_context c) (outbox c) (cells c)
    (pool_calls c) l (popped c).

Definition set_popped (l : list (option nat)) (c : Conn) : Conn :=
  mkConn (version c) (responses c) (heap c) (server_state c) (pool c)
    (unresolved_address c) (routing_context c) (outbox c) (cells c)
    (pool_calls c) (enqueued c) l.

(** A connection as the pool creates it. *)
Definition new_conn (v : BoltVersion) (has_pool : bool) (address ctx : Value)
  : Conn :=
  mkConn v [] [] CONNECTED has_pool address ctx [] [] [] [] [].

(** What the handlers use and the sources do not contain: constants and
    classes of absent modules, socket input and output, the callables of the
    caller, and conversions of the Python runtime on values outside
    [Value].  [U] is the state of the caller; a caller's callable observes
    the connection and acts on [U]. *)
Class Env (U : Type) := {
  READ_ACCESS : string;
  transition : ServerStates -> string -> Value -> Result ServerStates;
  send_all : Conn * U -> Result unit * (Conn * U);
  fetch_all : Conn * U -> Result unit * (Conn * U);
  call_user : nat -> list Value -> Conn -> U -> Result unit * U;
  float_of_text : Value -> Result spec_float;
  dict_of_iterable : Value -> Result (list (string * Value));
  dict_of_zip : Value -> Value -> Result Value
}.

(** *** The monad of connection code *)

Definition M (U A : Type) : Type := Conn * U -> Result A * (Conn * U).

Definition ret {U A} (a : A) : M U A := fun s => (Ok a, s).

Definition bind {U A B} (m : M U A) (k : A -> M U B) : M U B :=
  fun s =>
    match m s with
    | (Ok a, s') => k a s'
    | (Raise e, s') => (Raise e, s')
    end.

Definition raise {U A} (e : Exc) : M U A := fun s => (Raise e, s).

Definition raise_cls {U A} (c : ExcClass) (args : list Value) : M U A :=
  raise (mkExc c args []).

(** [try: m except: h] with the handler taking every exception. *)
Definition try_except {U A} (m : M U A) (h : Exc -> M U A) : M U A :=
  fun s =>
    match m s with
    | (Ok a, s') => (Ok a, s')
    | (Raise e, s') => h e s'
    end.

Definition lift {U A} (r : Result A) : M U A := fun s => (r, s).

Definition get_conn {U} : M U Conn := fun s => (Ok (fst s), s).

Definition modify {U} (f : Conn -> Conn) : M U unit :=
  fun s => (Ok tt, (f (fst s), snd s)).

Definition when {U} (b : bool) (m : M U unit) : M U unit :=
  if b then m else ret tt.

End Connection.
Export Connection.

Declare Scope py_scope.
Delimit Scope py_scope with py.
Notation "'let!' x ':=' m 'in' k" := (bind m (fun x => k))
  (at level 10, x pattern, m at level 100, k at level 200) : py_scope.
Notation "m ';;;' k" := (bind m (fun _ => k))
  (at level 100, k at level 200, right associativity) : py_scope.
Local Open Scope py_scope.

(** ** neo4j/io/_common.py *)

Module Common.

(** [Inbox.__next__]: a decoded message [(tag, fields)] becomes the triple
    [(details, summary_signature, summary_metadata)]. *)
Definition Inbox_next (msg : Message)
  : list Value * option Z * option Value :=
  if tag msg =? 113 (* 0x71 *) then (fields msg, None, None)
  else match fields msg with
       | f :: _ => ([], Some (tag msg), Some f)
       | [] => ([], Some (tag msg), None)
       end.

(** *** ConnectionErrorHandler *)

Section ConnectionErrorHandler.

Context {W : Type}.

(** An attribute of the wrapped connection: a plain value or a callable,
    which runs on the world [W] and returns a value or raises. *)
Inductive Attr :=
| Data (v : Value)
| Callable (func : list Value -> list (string * Value) -> W -> Result Value * W).

(** [self.__connection] is seen through [getattr], [self.__on_error] is
    called with the exception. *)
Record ConnectionErrorHandler := mkConnectionErrorHandler {
  connection_getattr : string -> Result Attr;
  on_error : Exc -> W -> Result Value * W
}.

(** The function [inner] that [outer(func)] returns. *)
Definition inner (self : ConnectionErrorHandler)
    (func : list Value -> list (string * Value) -> W -> Result Value * W)
    (args : list Value) (kwargs : list (string * Value)) (w : W)
  : Result Value * W :=
  match func args kwargs w with
  | (Ok _, w') => (Ok VNone, w')
  | (Raise exc, w') =>
      if caught_by exc [Neo4jError; ServiceUnavailable; SessionExpired] then
        match on_error self exc w' with
        | (Ok _, w'') => (Raise exc, w'')
        | (Raise exc', w'') => (Raise exc', w'')
        end
      else (Raise exc, w')
  end.

(** [ConnectionErrorHandler.__getattr__] *)
Definition __getattr__ (self : ConnectionErrorHandler) (name : string)
  : Result Attr :=
  match connection_getattr self name with
  | Raise e => Raise e
  | Ok (Data v) => Ok (Data v)
  | Ok (Callable func) => Ok (Callable (inner self func))
  end.

End ConnectionErrorHandler.

Arguments Attr : clear implicits.
Arguments ConnectionErrorHandler : clear implicits.

(** *** Python conversions used by the handlers *)

Definition chars (s : string) : list Value :=
  map (fun a => VStr (String a EmptyString)) (list_ascii_of_string s).

(** [list(v)] *)
Definition py_list (v : Value) : Result (list Value) :=
  match v with
  | VList l => Ok l
  | VStr s => Ok (chars s)
  | VBytes b => Ok (map VInt b)
  | VDict d => Ok (map (fun kv => VStr (fst kv)) d)
  | _ => raise_new TypeError [VStr "object is not iterable"]
  end.

(** [d.get(k)] and [d.get(k, dflt)]; only a dict has the method. *)
Definition py_get (d : Value) (k : string) (dflt : Value) : Result Value :=
  match d with
  | VDict l => Ok (default dflt (dict_lookup l k))
  | _ => raise_new AttributeError [VStr "get"]
  end.

(** Binary64 arithmetic of Python floats. *)
Definition float_of_int (n : Z) : Result spec_float :=
  match binary_normalize 53 1024 n 0 false with
  | S754_infinity _ =>
      raise_new OverflowError [VStr "int too large to convert to float"]
  | f => Ok f
  end.

Definition float_mul (a b : spec_float) : spec_float := SFmul 53 1024 a b.

(** [int(f)]: truncation towards zero. *)
Definition int_of_float (f : spec_float) : Result Z :=
  match f with
  | S754_zero _ => Ok 0
  | S754_infinity _ =>
      raise_new OverflowError [VStr "cannot convert float infinity to integer"]
  | S754_nan =>
      raise_new ValueError [VStr "cannot convert float NaN to integer"]
  | S754_finite s m e =>
      let a := Z.shiftl (Z.pos m) e in
      Ok (if s then - a else a)
  end.

(** [v == n] for an integer literal [n]. *)
Definition eq_int (v : Value) (n : Z) : bool :=
  match v with
  | VInt z => z =? n
  | VBool b => (if b then 1 else 0) =? n
  | VFloat f => SFeqb f (binary_normalize 53 1024 n 0 false)
  | _ => false
  end.

Section WithEnv.

Context {U : Type} `{!Env U}.

(** [float(v)] *)
Definition py_float (v : Value) : Result spec_float :=
  match v with
  | VFloat f => Ok f
  | VInt n => float_of_int n
  | VBool b => float_of_int (if b then 1 else 0)
  | VStr _ | VBytes _ => float_of_text v
  | _ => raise_new TypeError [VStr "float() argument must be a string or a real number"]
  end.

(** [dict(v)] *)
Definition py_dict (v : Value) : Result (list (string * Value)) :=
  match v with
  | VDict d => Ok d
  | VList _ | VStr _ | VBytes _ => dict_of_iterable v
  | _ => raise_new TypeError [VStr "object is not iterable"]
  end.

Definition cell_get (i : nat) : M U Value :=
  let! c := get_conn in
  match cells c !! i with
  | Some v => ret v
  | None => raise_cls Exception_ [VStr "unbound local"]
  end.

(** A call of a handler that passed [callable]. *)
Definition call_handler (h : Handler) (args : list Value) : M U unit :=
  match h with
  | HUser n =>
      fun s => let '(r, u') := call_user n args (fst s) (snd s) in
               (r, (fst s, u'))
  | HDictUpdate i =>
      let! d := cell_get i in
      match d, args with
      | VDict l, [] => ret tt
      | VDict l, [a] =>
          let! e := lift (py_dict a) in
          modify (fun c => set_cells (<[i := VDict (dict_update l e)]> (cells c)) c)
      | _, _ => raise_cls TypeError [VStr "update"]
      end
  | HListExtend i =>
      let! d := cell_get i in
      match d, args with
      | VList l, [a] =>
          let! e := lift (py_list a) in
          modify (fun c => set_cells (<[i := VList (l ++ e)]> (cells c)) c)
      | _, _ => raise_cls TypeError [VStr "extend"]
      end
  | HResetFail =>
      let! c := get_conn in
      raise_cls BoltProtocolError
        (VStr "RESET failed %r" :: args ++ [unresolved_address c])
  | HValue _ => raise_cls TypeError [VStr "object is not callable"]
  end.

(** [handler = self.handlers.get(name)] followed by
    [if callable(handler): handler(args)]. *)
Definition fire (r : Response) (name : string) (args : list Value) : M U unit :=
  match list_find (fun kv => fst kv = name) (handlers r) with
  | Some (_, (_, h)) => if callable h then call_handler h args else ret tt
  | None => ret tt
  end.

(** [Response.on_records] *)
Definition Response_on_records (self : Response) (records : Value) : M U unit :=
  fire self "on_records" [records].

(** [Response.on_success] *)
Definition Response_on_success (self : Response) (metadata : Value) : M U unit :=
  fire self "on_success" [metadata] ;;;
  let! has_more := lift (py_get metadata "has_more" VNone) in
  when (negb (truthy has_more)) (fire self "on_summary" []).

(** [Response.on_ignored] *)
Definition Response_on_ignored (self : Response) (metadata : Value) : M U unit :=
  fire self "on_ignored" [metadata] ;;;
  fire self "on_summary" [].

(** [raise Neo4jError.hydrate] on the unpacked metadata, which has to be a
    mapping. *)
Definition raise_hydrated {A} (metadata : Value) : M U A :=
  match metadata with
  | VDict d =>
      match hydrate_kwargs Neo4jError d with
      | Ok inst => raise inst
      | Raise e => raise e
      end
  | _ => raise_cls TypeError [VStr "argument after ** must be a mapping"]
  end.

(** [Response.on_failure]; [reset] is the [reset] method of the connection
    the response belongs to. *)
Definition Response_on_failure (reset : M U unit) (self : Response)
    (metadata : Value) : M U unit :=
  try_except reset
    (fun e => if caught_by e [SessionExpired; ServiceUnavailable]
              then ret tt else raise e) ;;;
  fire self "on_failure" [metadata] ;;;
  fire self "on_summary" [] ;;;
  raise_hydrated metadata.

(** [InitResponse.on_failure] *)
Definition InitResponse_on_failure (self : Response) (metadata : Value)
  : M U unit :=
  let! code := lift (py_get metadata "code" VNone) in
  if eq_str code "Neo.ClientError.Security.Unauthorized" then
    raise_hydrated metadata
  else
    let! msg := lift (py_get metadata "message"
                        (VStr "Connection initialisation failed")) in
    raise_cls ServiceUnavailable [msg].

(** Method lookup on a response object: [InitResponse] overrides
    [on_failure]; [CommitResponse] overrides nothing. *)
Definition on_records (self : Response) := Response_on_records self.
Definition on_success (self : Response) := Response_on_success self.
Definition on_ignored (self : Response) := Response_on_ignored self.
Definition on_failure (reset : M U unit) (self : Response) (metadata : Value)
  : M U unit :=
  match resp_class self with
  | InitResponse => InitResponse_on_failure self metadata
  | Response_ | CommitResponse => Response_on_failure reset self metadata
  end.

End WithEnv.

End Common.
Export Common.

(** ** neo4j/_async/io/_bolt4.py and neo4j/_sync/io/_bolt5.py

    The asynchronous and the blocking handlers run the same code; an [await]
    is a plain call here. *)

Module Bolt.

(** Modelled from the spec: the constant [SYSTEM_DATABASE] of [neo4j.api],
    the database the routing procedure of Bolt 4.0 runs against. *)
Definition SYSTEM_DATABASE : string := "system".

Section WithEnv.

Context {U : Type} `{!Env U}.

(** [Response(self, message, **handlers)] and its subclasses: a new object.
    The keywords [connection] and [message] would clash with the named
    parameters of [Response.__init__]. *)
Definition Response_new (cls : ResponseClass) (message : string)
    (handlers : list (string * Handler)) : M U nat :=
  if existsb (fun kv => String.eqb (fst kv) "connection"
                        || String.eqb (fst kv) "message") handlers
  then raise_cls TypeError [VStr "got multiple values for argument"]
  else
    let! c := get_conn in
    modify (fun c => set_heap (heap c ++ [mkResponse cls handlers message false]) c) ;;;
    ret (length (heap c)).

(** Modelled from the spec: [_append] of the base class [Bolt] in [_bolt],
    which writes the message to the outbox and appends the response to the
    tail of the response queue. *)
Definition _append (tag : Z) (fields : list Value) (response : option nat)
  : M U unit :=
  modify (fun c =>
    set_enqueued (enqueued c ++ [response])
      (set_responses (responses c ++ [response])
         (set_outbox (outbox c ++ [mkMessage tag fields]) c))).

(** [is_reset] *)
Definition is_reset (c : Conn) : bool :=
  let last_is_reset :=
    match last (responses c) with
    | Some (Some ref) =>
        match heap c !! ref with
        | Some r => String.eqb (message r) "reset"
        | None => false
        end
    | _ => false
    end in
  if last_is_reset then true
  else bool_decide (server_state c = READY).

(** The blocks the request builders share.  Each takes the [extra] map built
    so far. *)

(** [if mode in (READ_ACCESS, "r"): extra["mode"] = "r"] *)
Definition set_mode (mode : Value) (extra : list (string * Value))
  : list (string * Value) :=
  if eq_str mode READ_ACCESS || eq_str mode "r"
  then dict_set extra "mode" (VStr "r") else extra.

(** [if db: extra["db"] = db] *)
Definition set_db (db : Value) (extra : list (string * Value))
  : list (string * Value) :=
  if truthy db then dict_set extra "db" db else extra.

(** [if imp_user: extra["imp_user"] = imp_user] *)
Definition set_imp_user (imp_user : Value) (extra : list (string * Value))
  : list (string * Value) :=
  if truthy imp_user then dict_set extra "imp_user" imp_user else extra.

(** [if bookmarks: try: extra["bookmarks"] = list(bookmarks)
     except TypeError: raise TypeError(msg)] *)
Definition set_bookmarks (msg : string) (bookmarks : Value)
    (extra : list (string * Value)) : Result (list (string * Value)) :=
  if truthy bookmarks then
    match py_list bookmarks with
    | Ok l => Ok (dict_set extra "bookmarks" (VList l))
    | Raise e =>
        if isinstance e TypeError then raise_new TypeError [VStr msg]
        else Raise e
    end
  else Ok extra.

(** [if metadata: try: extra["tx_metadata"] = dict(metadata)
     except TypeError: raise TypeError(msg)] *)
Definition set_tx_metadata (metadata : Value) (extra : list (string * Value))
  : Result (list (string * Value)) :=
  if truthy metadata then
    match py_dict metadata with
    | Ok d => Ok (dict_set extra "tx_metadata" (VDict d))
    | Raise e =>
        if isinstance e TypeError
        then raise_new TypeError [VStr "Metadata must be coercible to a dict"]
        else Raise e
    end
  else Ok extra.

(** [int(1000 * float(timeout))] *)
Definition timeout_ms (timeout : Value) : Result Z :=
  match py_float timeout with
  | Ok f =>
      match float_of_int 1000 with
      | Ok k => int_of_float (float_mul k f)
      | Raise e => Raise e
      end
  | Raise e => Raise e
  end.

(** [if timeout is not None:
       try: extra["tx_timeout"] = int(1000 * float(timeout))
       except TypeError: raise TypeError(msg_type)
       if extra["tx_timeout"] < 0: raise ValueError(msg_value)] *)
Definition set_tx_timeout (msg_type msg_value : string) (timeout : Value)
    (extra : list (string * Value)) : Result (list (string * Value)) :=
  if is_none timeout then Ok extra
  else
    match timeout_ms timeout with
    | Ok ms =>
        if ms <? 0 then raise_new ValueError [VStr msg_value]
        else Ok (dict_set extra "tx_timeout" (VInt ms))
    | Raise e =>
        if isinstance e TypeError then raise_new TypeError [VStr msg_type]
        else Raise e
    end.

(** [raise ConfigurationError] of the handlers without impersonation; the
    exception carries the format string and its two arguments. *)
Definition raise_impersonation {A} (imp_user : Value) : M U A :=
  let! c := get_conn in
  raise_cls ConfigurationError
    [VStr "Impersonation is not supported in Bolt Protocol {!r}. Trying to impersonate {!r}.";
     VList [VInt (fst (PROTOCOL_VERSION (version c)));
            VInt (snd (PROTOCOL_VERSION (version c)))];
     imp_user].

(** [AsyncBolt4x0.run], inherited by 4.1, 4.2 and 4.3. *)
Definition run_4x0 (query parameters mode bookmarks metadata timeout db
    imp_user : Value) (handlers : list (string * Handler)) : M U unit :=
  if negb (is_none imp_user) then raise_impersonation imp_user
  else
    let parameters := if truthy parameters then parameters else VDict [] in
    let extra := set_db db (set_mode mode []) in
    let! extra := lift (set_bookmarks
                    "Bookmarks must be provided within an iterable"
                    bookmarks extra) in
    let! extra := lift (set_tx_metadata metadata extra) in
    let! extra := lift (set_tx_timeout
                    "Timeout must be specified as a number of seconds"
                    "Timeout must be a positive number or 0."
                    timeout extra) in
    let fields := [query; parameters; VDict extra] in
    let! r := Response_new Response_ "run" handlers in
    _append 16 (* 0x10 *) fields (Some r).

(** [AsyncBolt4x4.run] *)
Definition run_4x4 (query parameters mode bookmarks metadata timeout db
    imp_user : Value) (handlers : list (string * Handler)) : M U unit :=
  let parameters := if truthy parameters then parameters else VDict [] in
  let extra := set_imp_user imp_user (set_db db (set_mode mode [])) in
  let! extra := lift (set_bookmarks
                  "Bookmarks must be provided within an iterable"
                  bookmarks extra) in
  let! extra := lift (set_tx_metadata metadata extra) in
  let! extra := lift (set_tx_timeout
                  "Timeout must be specified as a number of seconds"
                  "Timeout must be a positive number or 0."
                  timeout extra) in
  let fields := [query; parameters; VDict extra] in
  let! r := Response_new Response_ "run" handlers in
  _append 16 fields (Some r).

(** [Bolt5x0.run] *)
Definition run_5x0 (query parameters mode bookmarks metadata timeout db
    imp_user : Value) (handlers : list (string * Handler)) : M U unit :=
  let parameters := if truthy parameters then parameters else VDict [] in
  let extra := set_imp_user imp_user (set_db db (set_mode mode [])) in
  let! extra := lift (set_bookmarks "Bookmarks must be provided as iterable"
                  bookmarks extra) in
  let! extra := lift (set_tx_metadata metadata extra) in
  let! extra := lift (set_tx_timeout "Timeout must be a number (in seconds)"
                  "Timeout must be a number <= 0" timeout extra) in
  let fields := [query; parameters; VDict extra] in
  let! r := Response_new Response_ "run" handlers in
  _append 16 fields (Some r).

(** [self.run]: the method of the handler class, by inheritance. *)
Definition run (v : BoltVersion) :=
  match v with
  | Bolt4x0 | Bolt4x1 | Bolt4x2 | Bolt4x3 => run_4x0
  | Bolt4x4 => run_4x4
  | Bolt5x0 => run_5x0
  end.

(** [AsyncBolt4x0.begin], inherited by 4.1, 4.2 and 4.3. *)
Definition begin_4x0 (mode bookmarks metadata timeout db imp_user : Value)
    (handlers : list (string * Handler)) : M U unit :=
  if negb (is_none imp_user) then raise_impersonation imp_user
  else
    let extra := set_db db (set_mode mode []) in
    let! extra := lift (set_bookmarks
                    "Bookmarks must be provided within an iterable"
                    bookmarks extra) in
    let! extra := lift (set_tx_metadata metadata extra) in
    let! extra := lift (set_tx_timeout
                    "Timeout must be specified as a number of seconds"
                    "Timeout must be a positive number or 0."
                    timeout extra) in
    let! r := Response_new Response_ "begin" handlers in
    _append 17 (* 0x11 *) [VDict extra] (Some r).

(** [AsyncBolt4x4.begin] *)
Definition begin_4x4 (mode bookmarks metadata timeout db imp_user : Value)
    (handlers : list (string * Handler)) : M U unit :=
  let extra := set_imp_user imp_user (set_db db (set_mode mode [])) in
  let! extra := lift (set_bookmarks
                  "Bookmarks must be provided within an iterable"
                  bookmarks extra) in
  let! extra := lift (set_tx_metadata metadata extra) in
  let! extra := lift (set_tx_timeout
                  "Timeout must be specified as a number of seconds"
                  "Timeout must be a positive number or 0."
                  timeout extra) in
  let! r := Response_new Response_ "begin" handlers in
  _append 17 [VDict extra] (Some r).

(** [Bolt5x0.begin] *)
Definition begin_5x0 (mode bookmarks metadata timeout db imp_user : Value)
    (handlers : list (string * Handler)) : M U unit :=
  let extra := set_imp_user imp_user (set_db db (set_mode mode [])) in
  let! extra := lift (set_bookmarks "Bookmarks must be provided as iterable"
                  bookmarks extra) in
  let! extra := lift (set_tx_metadata metadata extra) in
  let! extra := lift (set_tx_timeout "Timeout must be a number (in seconds)"
                  "Timeout must be a number <= 0" timeout extra) in
  let! r := Response_new Response_ "begin" handlers in
  _append 17 [VDict extra] (Some r).

Definition begin (v : BoltVersion) :=
  match v with
  | Bolt4x0 | Bolt4x1 | Bolt4x2 | Bolt4x3 => begin_4x0
  | Bolt4x4 => begin_4x4
  | Bolt5x0 => begin_5x0
  end.

(** [extra = {"n": n}] and [if qid != -1: extra["qid"] = qid] *)
Definition n_qid (n qid : Value) : list (string * Value) :=
  if eq_int qid (-1) then [("n", n)] else [("n", n); ("qid", qid)].

(** [discard] *)
Definition discard (n qid : Value) (handlers : list (string * Handler))
  : M U unit :=
  let! r := Response_new Response_ "discard" handlers in
  _append 47 (* 0x2F *) [VDict (n_qid n qid)] (Some r).

(** [pull] *)
Definition pull (n qid : Value) (handlers : list (string * Handler))
  : M U unit :=
  let! r := Response_new Response_ "pull" handlers in
  _append 63 (* 0x3F *) [VDict (n_qid n qid)] (Some r).

(** [commit] *)
Definition commit (handlers : list (string * Handler)) : M U unit :=
  let! r := Response_new CommitResponse "commit" handlers in
  _append 18 (* 0x12 *) [] (Some r).

(** [rollback] *)
Definition rollback (handlers : list (string * Handler)) : M U unit :=
  let! r := Response_new Response_ "rollback" handlers in
  _append 19 (* 0x13 *) [] (Some r).

(** [reset] *)
Definition reset : M U unit :=
  let! r := Response_new Response_ "reset" [("on_failure", HResetFail)] in
  _append 15 (* 0x0F *) [] (Some r) ;;;
  send_all ;;;
  fetch_all.

(** [goodbye]: no response goes with the message. *)
Definition goodbye : M U unit :=
  _append 2 [] None.

Definition new_cell (v : Value) : M U nat :=
  let! c := get_conn in
  modify (fun c => set_cells (cells c ++ [v]) c) ;;;
  ret (length (cells c)).

Fixpoint map_result {A B} (f : A -> Result B) (l : list A) : Result (list B) :=
  match l with
  | [] => Ok []
  | a :: l' =>
      match f a with
      | Ok b =>
          match map_result f l' with
          | Ok bs => Ok (b :: bs)
          | Raise e => Raise e
          end
      | Raise e => Raise e
      end
  end.

(** [AsyncBolt4x0.route], inherited by 4.1 and 4.2. *)
Definition route_4x0 (database imp_user bookmarks : Value) : M U Value :=
  if negb (is_none imp_user) then raise_impersonation imp_user
  else
    let! metadata := new_cell (VDict []) in
    let! records := new_cell (VList []) in
    let! c := get_conn in
    (if is_none database then
       run (version c)
         (VStr "CALL dbms.routing.getRoutingTable($context)")
         (VDict [("context", routing_context c)])
         (VStr "r") bookmarks VNone VNone (VStr SYSTEM_DATABASE) VNone
         [("on_success", HDictUpdate metadata)]
     else
       run (version c)
         (VStr "CALL dbms.routing.getRoutingTable($context, $database)")
         (VDict [("context", routing_context c); ("database", database)])
         (VStr "r") bookmarks VNone VNone (VStr SYSTEM_DATABASE) VNone
         [("on_success", HDictUpdate metadata)]) ;;;
    pull (VInt (-1)) (VInt (-1))
      [("on_success", HDictUpdate metadata);
       ("on_records", HListExtend records)] ;;;
    send_all ;;;
    fetch_all ;;;
    let! md := cell_get metadata in
    let! recs := cell_get records in
    let! fields := lift (py_get md "fields" (VList [])) in
    let! recs := lift (py_list recs) in
    let! routing_info := lift (map_result (dict_of_zip fields) recs) in
    ret (VList routing_info).

(** [bookmarks = [] if bookmarks is None else list(bookmarks)] *)
Definition route_bookmarks (bookmarks : Value) : Result Value :=
  if is_none bookmarks then Ok (VList [])
  else match py_list bookmarks with
       | Ok l => Ok (VList l)
       | Raise e => Raise e
       end.

(** [AsyncBolt4x3.route] *)
Definition route_4x3 (database imp_user bookmarks : Value) : M U Value :=
  if negb (is_none imp_user) then raise_impersonation imp_user
  else
    let! c := get_conn in
    let routing_context := py_or (routing_context c) (VDict []) in
    let! metadata := new_cell (VDict []) in
    let! bookmarks := lift (route_bookmarks bookmarks) in
    let! r := Response_new Response_ "route"
                [("on_success", HDictUpdate metadata)] in
    _append 102 (* 0x66 *) [routing_context; bookmarks; database] (Some r) ;;;
    send_all ;;;
    fetch_all ;;;
    let! md := cell_get metadata in
    let! rt := lift (py_get md "rt" VNone) in
    ret (VList [rt]).

(** [db_context] of the 4.4 and 5.0 [route] *)
Definition db_context (database imp_user : Value) : list (string * Value) :=
  let d := if is_none database then [] else dict_set [] "db" database in
  if is_none imp_user then d else dict_set d "imp_user" imp_user.

(** [AsyncBolt4x4.route] and [Bolt5x0.route], which have the same body. *)
Definition route_4x4 (database imp_user bookmarks : Value) : M U Value :=
  let! c := get_conn in
  let routing_context := py_or (routing_context c) (VDict []) in
  let db_context := db_context database imp_user in
  let! metadata := new_cell (VDict []) in
  let! bookmarks := lift (route_bookmarks bookmarks) in
  let! r := Response_new Response_ "route"
              [("on_success", HDictUpdate metadata)] in
  _append 102 [routing_context; bookmarks; VDict db_context] (Some r) ;;;
  send_all ;;;
  fetch_all ;;;
  let! md := cell_get metadata in
  let! rt := lift (py_get md "rt" VNone) in
  ret (VList [rt]).

Definition route_5x0 := route_4x4.

Definition route (v : BoltVersion) :=
  match v with
  | Bolt4x0 | Bolt4x1 | Bolt4x2 => route_4x0
  | Bolt4x3 => route_4x3
  | Bolt4x4 => route_4x4
  | Bolt5x0 => route_5x0
  end.

Definition pool_call (p : PoolCall) : M U unit :=
  modify (fun c => set_pool_calls (pool_calls c ++ [p]) c).

(** The [except] clauses around [response.on_failure] in
    [_process_message]. *)
Definition on_failure_except (e : Exc) : M U unit :=
  let! c := get_conn in
  if caught_by e [ServiceUnavailable; DatabaseUnavailable] then
    when (pool c) (pool_call (Deactivate (unresolved_address c))) ;;;
    raise e
  else if caught_by e [NotALeader; ForbiddenOnReadOnlyDatabase] then
    when (pool c) (pool_call (OnWriteFailure (unresolved_address c))) ;;;
    raise e
  else if isinstance e Neo4jError then
    (if pool c then
       let! b := lift (invalidates_all_connections e) in
       when b (pool_call MarkAllStale)
     else ret tt) ;;;
    raise e
  else raise e.

(** The chain of tests on [summary_signature] in [_process_message], which
    runs once the response is popped and marked complete. *)
Definition summary_dispatch (signature : Z) (response : Response)
    (summary_metadata : Value) : M U unit :=
  if signature =? 112 (* 0x70 *) then
    let! c := get_conn in
    let! s := lift (transition (server_state c) (message response)
                      summary_metadata) in
    modify (set_server_state s) ;;;
    on_success response (py_or summary_metadata (VDict []))
  else if signature =? 126 (* 0x7E *) then
    on_ignored response (py_or summary_metadata (VDict []))
  else if signature =? 127 (* 0x7F *) then
    modify (set_server_state FAILED) ;;;
    try_except
      (on_failure reset response (py_or summary_metadata (VDict [])))
      on_failure_except
  else
    raise_cls BoltProtocolError
      [VStr "Unexpected response message with signature %02X";
       VInt signature].

(** [_process_message], the same in every handler class. *)
Definition _process_message (details : list Value)
    (summary_signature : option Z) (summary_metadata : Value)
  : M U (nat * nat) :=
  (match details with
   | [] => ret tt
   | _ =>
       let! c := get_conn in
       match responses c with
       | [] => raise_cls IndexError [VStr "deque index out of range"]
       | None :: _ => raise_cls AttributeError [VStr "on_records"]
       | Some ref :: _ =>
           match heap c !! ref with
           | Some r => on_records r (VList details)
           | None => raise_cls Exception_ [VStr "dangling reference"]
           end
       end
   end) ;;;
  match summary_signature with
  | None => ret (length details, 0%nat)
  | Some signature =>
      let! c := get_conn in
      match responses c with
      | [] => raise_cls IndexError [VStr "pop from an empty deque"]
      | head :: rest =>
          modify (fun c => set_popped (popped c ++ [head])
                             (set_responses rest c)) ;;;
          match head with
          | None => raise_cls AttributeError [VStr "complete"]
          | Some ref =>
              match heap c !! ref with
              | None => raise_cls Exception_ [VStr "dangling reference"]
              | Some r =>
                  let response := set_complete r in
                  modify (fun c => set_heap (<[ref := response]> (heap c)) c) ;;;
                  summary_dispatch signature response summary_metadata ;;;
                  ret (length details, 1%nat)
              end
          end
      end
  end.

(** One step of the owner of a connection: a request builder, or the
    processing of one decoded message. *)
Inductive Op :=
| OpRun (query parameters mode bookmarks metadata timeout db imp_user : Value)
    (handlers : list (string * Handler))
| OpBegin (mode bookmarks metadata timeout db imp_user : Value)
    (handlers : list (string * Handler))
| OpDiscard (n qid : Value) (handlers : list (string * Handler))
| OpPull (n qid : Value) (handlers : list (string * Handler))
| OpCommit (handlers : list (string * Handler))
| OpRollback (handlers : list (string * Handler))
| OpReset
| OpGoodbye
| OpRoute (database imp_user bookmarks : Value)
| OpProcess (msg : Message).

Definition option_value (o : option Value) : Value := default VNone o.

Definition discard_result {A} (m : M U A) (s : Conn * U) : Conn * U :=
  snd (m s).

(** The state after a step; an exception leaves the mutations made before it
    and the owner carries on. *)
Definition step (op : Op) (s : Conn * U) : Conn * U :=
  let v := version (fst s) in
  match op with
  | OpRun q p mode b md t db iu h =>
      discard_result (run v q p mode b md t db iu h) s
  | OpBegin mode b md t db iu h =>
      discard_result (begin v mode b md t db iu h) s
  | OpDiscard n qid h => discard_result (discard n qid h) s
  | OpPull n qid h => discard_result (pull n qid h) s
  | OpCommit h => discard_result (commit h) s
  | OpRollback h => discard_result (rollback h) s
  | OpReset => discard_result reset s
  | OpGoodbye => discard_result goodbye s
  | OpRoute d iu b => discard_result (route v d iu b) s
  | OpProcess msg =>
      let '(details, signature, metadata) := Inbox_next msg in
      discard_result
        (_process_message details signature (option_value metadata)) s
  end.

Definition steps (ops : list Op) (s : Conn * U) : Conn * U :=
  fold_left (fun s op => step op s) ops s.

End WithEnv.

End Bolt.
Export Bolt.

(** ** neo4j/io/_common.py: the outbox *)

Module Framing.

(** A slice bound [i] on a sequence of length [len]: a negative bound counts
    from the end, and every bound is clipped to the sequence. *)
Definition clamp (len i : Z) : nat :=
  Z.to_nat (if i <? 0 then Z.max (i + len) 0 else Z.min i len).

(** [l[i:j]] *)
Definition getslice (l : list Z) (i j : Z) : list Z :=
  let n := Z.of_nat (length l) in
  take (clamp n j - clamp n i) (drop (clamp n i) l).

(** [l[:j]] *)
Definition prefix_slice (l : list Z) (j : Z) : list Z :=
  take (clamp (Z.of_nat (length l)) j) l.

(** [l[i:j] = bs] on a bytearray: the slice is replaced by [bs], whatever
    the two lengths; an empty or reversed slice inserts at [i]. *)
Definition setslice (l : list Z) (i j : Z) (bs : list Z) : list Z :=
  let n := Z.of_nat (length l) in
  take (clamp n i) l ++ bs ++ drop (Nat.max (clamp n i) (clamp n j)) l.

(** [struct_pack(">H", n)]: two bytes, big-endian; [struct.error] outside
    the range of an unsigned 16-bit integer. *)
Definition struct_pack_H (n : Z) : Result (list Z) :=
  if (0 <=? n) && (n <=? 65535) then Ok [n / 256; n mod 256]
  else raise_new (OtherException "struct.error")
         [VStr "'H' format requires 0 <= number <= 65535"].

Record Outbox := mkOutbox {
  _max_chunk_size : Z;
  _header : Z;
  _start : Z;
  _end : Z;
  _data : list Z
}.

(** [Outbox.__init__]; [bytearray(capacity)] is [capacity] zero bytes and
    raises [ValueError] on a negative count. *)
Definition Outbox_init (capacity max_chunk_size : Z) : Result Outbox :=
  if capacity <? 0 then raise_new ValueError [VStr "negative count"]
  else Ok (mkOutbox max_chunk_size 0 2 2 (replicate (Z.to_nat capacity) 0)).

(** [Outbox.max_chunk_size] *)
Definition max_chunk_size (self : Outbox) : Z := _max_chunk_size self.

(** [Outbox.clear] *)
Definition clear (self : Outbox) : Outbox :=
  mkOutbox (_max_chunk_size self) 0 2 2 (setslice (_data self) 0 2 [0; 0]).

(** [Outbox.chunk] *)
Definition chunk (self : Outbox) : Outbox :=
  let header := _end self in
  let start := header + 2 in
  mkOutbox (_max_chunk_size self) header start start
    (setslice (_data self) header start [0; 0]).

(** The loop of [Outbox.write]; [fuel] bounds the number of iterations and
    [None] is a loop that has not ended within it.  An exception of
    [struct_pack] leaves the buffer as the iteration had changed it. *)
Fixpoint write_loop (fuel : nat) (self : Outbox) (b : list Z)
    (pos to_write : Z) : option (Result unit * Outbox) :=
  if to_write <=? 0 then Some (Ok tt, self)
  else
    match fuel with
    | O => None
    | S fuel' =>
        let max_chunk_size := _max_chunk_size self in
        let chunk_size := _end self - _start self in
        let remaining := max_chunk_size - chunk_size in
        if (remaining =? 0)
           || ((remaining <? to_write) && (to_write <=? max_chunk_size))
        then write_loop fuel' (chunk self) b pos to_write
        else
          let wrote := Z.min to_write remaining in
          let new_end := _end self + wrote in
          let data := setslice (_data self) (_end self) new_end
                        (getslice b pos (pos + wrote)) in
          let new_chunk_size := new_end - _start self in
          match struct_pack_H new_chunk_size with
          | Raise e =>
              Some (Raise e,
                    mkOutbox max_chunk_size (_header self) (_start self)
                      new_end data)
          | Ok size =>
              write_loop fuel'
                (mkOutbox max_chunk_size (_header self) (_start self) new_end
                   (setslice data (_header self) (_header self + 2) size))
                b (pos + wrote) (to_write - wrote)
          end
    end.

(** [Outbox.write] *)
Definition write (fuel : nat) (self : Outbox) (b : list Z)
  : option (Result unit * Outbox) :=
  write_loop fuel self b 0 (Z.of_nat (length b)).

(** [Outbox.view] *)
Definition view (self : Outbox) : list Z :=
  let chunk_size := _end self - _start self in
  if chunk_size =? 0 then prefix_slice (_data self) (_header self)
  else prefix_slice (_data self) (_end self).

End Framing.
Export Framing.

(** ** neo4j/exceptions.py: errors during discovery *)

Module Discovery.

(** The tests that [Neo4jError.is_fatal_during_discovery] makes on a code
    that is a string. *)
Definition is_fatal_code (code : string) : bool :=
  if existsb (String.eqb code)
       ["Neo.ClientError.Database.DatabaseNotFound";
        "Neo.ClientError.Transaction.InvalidBookmark";
        "Neo.ClientError.Transaction.InvalidBookmarkMixture"]
  then true
  else if String.prefix "Neo.ClientError.Security." code
          && negb (String.eqb code
                     "Neo.ClientError.Security.AuthorizationExpired")
  then true
  else false.

(** [Neo4jError.is_fatal_during_discovery], defined by [Neo4jError] only. *)
Definition is_fatal_during_discovery_in (c : ExcClass)
  : option (Exc -> Result bool) :=
  match c with
  | Neo4jError =>
      Some (fun self =>
        match getattr self "code" with
        | Ok (VStr code) => Ok (is_fatal_code code)
        | Ok _ => Ok false
        | Raise e => Raise e
        end)
  | _ => None
  end.

Definition is_fatal_during_discovery (e : Exc) : Result bool :=
  match resolve is_fatal_during_discovery_in (mro (exc_class e)) with
  | Some m => m e
  | None => raise_new AttributeError [VStr "is_fatal_during_discovery"]
  end.

End Discovery.
Export Discovery.

(** ** Vocabulary of the properties *)

Module Props.

(** The classes of server errors: [Neo4jError] and its subclasses. *)
Definition neo4j_classes : list ExcClass :=
  [Neo4jError; ClientError; DatabaseError; TransientError;
   DatabaseUnavailable; ConstraintError; CypherSyntaxError; CypherTypeError;
   NotALeader; Forbidden; ForbiddenOnReadOnlyDatabase; AuthError;
   TokenExpired].

Definition AUTHORIZATION_EXPIRED : string :=
  "Neo.ClientError.Security.AuthorizationExpired".
Definition UNKNOWN_ERROR : string := "Neo.DatabaseError.General.UnknownError".
Definition TERMINATED : string := "Neo.TransientError.Transaction.Terminated".
Definition LOCK_CLIENT_STOPPED : string :=
  "Neo.TransientError.Transaction.LockClientStopped".

(** The request name of the response last appended to the queue. *)
Definition tail_request (c : Conn) : option string :=
  match last (responses c) with
  | Some (Some ref) => message <$> heap c !! ref
  | _ => None
  end.

(** The characterisation of [is_reset] in the words of the specification:
    the queue is empty and the state is [READY], or the last enqueued
    response is that of a [reset]. *)
Definition is_reset_spec (c : Conn) : Prop :=
  (responses c = [] /\ server_state c = READY) \/
  tail_request c = Some "reset".

(** First in, first out: the references ever appended are those popped so
    far followed by those still queued. *)
Definition fifo (c : Conn) : Prop :=
  enqueued c = (popped c ++ responses c)%list.

(** The connection once the head [ref], which holds [r], has been popped
    and marked complete. *)
Definition after_pop (c : Conn) (ref : nat) (r : Response)
    (rest : list (option nat)) : Conn :=
  set_heap (<[ref := set_complete r]> (heap c))
    (set_popped (popped c ++ [Some ref]) (set_responses rest c)).

(** Modelled from the spec: [ServerStateManager.transition] of [_bolt3],
    which is not among the sources; the table of section 4.4, an unlisted
    transition leaving the state as it is. *)
Definition spec_transition (s : ServerStates) (request : string)
    (metadata : Value) : Result ServerStates :=
  let has_more :=
    match metadata with
    | VDict d => truthy (default VNone (dict_lookup d "has_more"))
    | _ => false
    end in
  let on r := String.eqb request r in
  Ok (if on "reset" then READY
      else match s with
           | CONNECTED => if on "hello" then READY else s
           | READY =>
               if on "run" then STREAMING
               else if on "begin" then TX_READY else s
           | STREAMING =>
               if on "pull" || on "discard"
               then (if has_more then STREAMING else READY) else s
           | TX_READY =>
               if on "run" then TX_STREAMING
               else if on "commit" || on "rollback" then READY else s
           | TX_STREAMING =>
               if on "pull" || on "discard"
               then (if has_more then TX_STREAMING else TX_READY)
               else if on "commit" || on "rollback" then READY else s
           | _ => s
           end).

(** An environment to run the handlers in: the socket layer transmits
    nothing and delivers nothing, the callables of the caller count their
    calls and return, and no text parses as a number. *)
Definition idle_env : Env nat := {|
  READ_ACCESS := "READ";
  transition := spec_transition;
  send_all := fun s => (Ok tt, s);
  fetch_all := fun s => (Ok tt, s);
  call_user := fun _ _ _ n => (Ok tt, S n);
  float_of_text := fun _ =>
    raise_new ValueError [VStr "could not convert string to float"];
  dict_of_iterable := fun _ =>
    raise_new ValueError [VStr "dictionary update sequence element"];
  dict_of_zip := fun _ _ => Ok (VDict [])
|}.

(** A Bolt 5.0 connection in state [READY] with one [run] appended and no
    reply processed yet. *)
Definition ready_conn : Conn :=
  set_server_state READY (new_conn Bolt5x0 true (VStr "host:7687") VNone).

Definition pending_run : Conn * nat :=
  @step nat idle_env
    (OpRun (VStr "RETURN 1 AS n") VNone VNone VNone VNone VNone VNone VNone [])
    (ready_conn, 0%nat).

(** A Bolt 5.0 connection in state [READY] with one [pull] appended, whose
    response holds an [on_records] callback of the caller, and no reply
    processed yet. *)
Definition pending_pull : Conn * nat :=
  @step nat idle_env
    (OpPull (VInt (-1)) (VInt (-1)) [("on_records", HUser 0)])
    (ready_conn, 0%nat).

(** The same without a pool: [self.pool] is [None]. *)
Definition pending_run_no_pool : Conn * nat :=
  @step nat idle_env
    (OpRun (VStr "RETURN 1 AS n") VNone VNone VNone VNone VNone VNone VNone [])
    (set_server_state READY (new_conn Bolt5x0 false (VStr "host:7687") VNone),
     0%nat).

(** [-0.00048828125], that is [-2 ** -11], a negative float. *)
Definition negative_timeout : Value :=
  VFloat (S754_finite true (2 ^ 52) (-63)).



(** A connection with a data attribute and three methods: one returns a
    number, one raises [SessionExpired], one raises [ValueError]; the world
    is the log of the errors [on_error] was called with. *)
Definition sample_handler : ConnectionErrorHandler (list ExcClass) :=
  mkConnectionErrorHandler
    (fun name =>
       if String.eqb name "local_port" then Ok (Data (VInt 7687))
       else if String.eqb name "is_reset" then
         Ok (Callable (fun _ _ w => (Ok (VInt 1), w)))
       else if String.eqb name "fetch_all" then
         Ok (Callable (fun _ _ w =>
               (Raise (mkExc SessionExpired [VStr "gone"] []), w)))
       else if String.eqb name "run" then
         Ok (Callable (fun _ _ w => (Raise (mkExc ValueError [] []), w)))
       else raise_new AttributeError [VStr name])
    (fun exc w => (Ok VNone, (w ++ [exc_class exc])%list)).

Section Exchange.

Context {U : Type} `{!Env U}.


(** The handling of a RECORD in the words of the specification: whatever
    the RECORD (tag [0x71]), with a response at the head of the queue,
    processing the reply invokes [on_records] of the head on the record
    list, so that it leaves the connection and the caller as that call
    does. *)
Definition record_spec : Prop :=
  forall msg c (u : U) ref rest r,
    tag msg = 113 ->
    responses c = Some ref :: rest ->
    heap c !! ref = Some r ->
    snd (let '(details, signature, metadata) := Inbox_next msg in
         _process_message details signature (option_value metadata) (c, u))
    = snd (on_records r (VList (fields msg)) (c, u)).

(** A computation keeps the queue discipline when it takes connections in
    which the queue is first in, first out to such connections. *)
Definition keeps {A} (m : M U A) : Prop :=
  forall s, fifo (fst s) -> fifo (fst (snd (m s))).

(** The pool dispatch on a FAILURE in the words of the specification:
    whatever the connection, the error that leaves [_process_message] has
    been signalled to the pool according to its class. *)
Definition failure_pool_spec : Prop :=
  forall c (u : U) ref rest r metadata e c' u',
    responses c = Some ref :: rest ->
    heap c !! ref = Some r ->
    _process_message [] (Some 127) metadata (c, u) = (Raise e, (c', u')) ->
    (caught_by e [ServiceUnavailable; DatabaseUnavailable] = true ->
     Deactivate (unresolved_address c') ∈ pool_calls c') /\
    (caught_by e [NotALeader; ForbiddenOnReadOnlyDatabase] = true ->
     OnWriteFailure (unresolved_address c') ∈ pool_calls c') /\
    (isinstance e Neo4jError = true ->
     invalidates_all_connections e = Ok true ->
     MarkAllStale ∈ pool_calls c').

End Exchange.

End Props.
Export Props.

(** ** Vocabulary of the framing properties *)

Module FramingProps.

(** A chunk on the wire: the length of the payload in two bytes,
    big-endian, then the payload. *)
Definition u16 (n : Z) : list Z := [n / 256; n mod 256].

Definition frame (payload : list Z) : list Z :=
  u16 (Z.of_nat (length payload)) ++ payload.

Definition frames (payloads : list (list Z)) : list Z :=
  concat (frame <$> payloads).

(** A payload of a data chunk: not empty and within the maximal size. *)
Definition data_chunk (max_chunk_size : Z) (p : list Z) : Prop :=
  p <> [] /\ Z.of_nat (length p) <= max_chunk_size.

(** [l] cut into pieces of [k] elements, the last one possibly shorter. *)
Fixpoint split_every (fuel k : nat) (l : list Z) : list (list Z) :=
  match fuel, l with
  | O, _ | _, [] => []
  | S fuel', _ => take k l :: split_every fuel' k (drop k l)
  end.

Definition pieces (max_chunk_size : Z) (b : list Z) : list (list Z) :=
  split_every (length b) (Z.to_nat max_chunk_size) b.

(** The outbox is at the start of a chunk: the open chunk is empty, its two
    length bytes are in the buffer and they are zero.  This is the state
    after the constructor (with room for the two bytes), after [clear] and
    after [chunk]. *)
Definition at_chunk_start (o : Outbox) : Prop :=
  0 <= _header o /\
  _start o = _header o + 2 /\
  _end o = _start o /\
  getslice (_data o) (_header o) (_start o) = [0; 0].

(** The buffer holds the bytes [closed] of the chunks already closed and
    then the frame of the open chunk [cur]; the cursors delimit the open
    chunk, which does not exceed the maximal size. *)
Definition framed (o : Outbox) (closed cur : list Z) : Prop :=
  exists rest,
    _data o = (closed ++ frame cur ++ rest)%list /\
    _header o = Z.of_nat (length closed) /\
    _start o = _header o + 2 /\
    _end o = _start o + Z.of_nat (length cur) /\
    Z.of_nat (length cur) <= _max_chunk_size o.

(** A client of the outbox: a sequence of calls of [write] and [chunk]. *)
Inductive Call :=
  | CWrite (b : list Z)
  | CChunk.

Fixpoint calls (fuel : nat) (cs : list Call) (o : Outbox)
  : option (Result unit * Outbox) :=
  match cs with
  | [] => Some (Ok tt, o)
  | CWrite b :: cs' =>
      match write fuel o b with
      | Some (Ok _, o') => calls fuel cs' o'
      | r => r
      end
  | CChunk :: cs' => calls fuel cs' (chunk o)
  end.

(** The bytes the calls pass to [write], in order. *)
Definition written (cs : list Call) : list Z :=
  concat ((fun c => match c with CWrite b => b | CChunk => [] end) <$> cs).

(** The longest argument of [write] among the calls. *)
Definition longest (cs : list Call) : nat :=
  foldr (fun c m => match c with CWrite b => Nat.max (length b) m
                            | CChunk => m end) 0%nat cs.

End FramingProps.
Export FramingProps.

(** ** Vocabulary of the further properties of the errors *)

Module ErrorProps.

(** The classification [hydrate] derives from a code: the second of its four
    dot-separated parts, [DatabaseError] for a code that has not four parts,
    and [TransientError] for the reclassified code. *)
Definition classification_of (code : string) : string :=
  if String.eqb code AUTHORIZATION_EXPIRED then CLASSIFICATION_TRANSIENT
  else match split "." code with
       | [_; classification; _; _] => classification
       | _ => CLASSIFICATION_DATABASE
       end.

(** The classes of driver errors: [DriverError] and its subclasses. *)
Definition driver_classes : list ExcClass :=
  [DriverError; SessionExpired; TransactionError; TransactionNestingError;
   ResultError; ResultConsumedError; ResultNotSingleError;
   ServiceUnavailable; RoutingServiceUnavailable; WriteServiceUnavailable;
   ReadServiceUnavailable; IncompleteCommit;
   ConfigurationError; AuthConfigurationError;
   CertificateConfigurationError].

End ErrorProps.
Export ErrorProps.

(** ** Vocabulary of the further properties of the handlers *)

Module BoltProps.

(** The connection once the request [m] is appended with a new response
    [r]: the response is a new object, and its reference goes to the tail
    of the queue. *)
Definition queued (c : Conn) (m : Message) (r : Response) : Conn :=
  let ref := length (heap c) in
  set_enqueued (enqueued c ++ [Some ref])
    (set_responses (responses c ++ [Some ref])
       (set_outbox (outbox c ++ [m])
          (set_heap (heap c ++ [r]) c))).

(** An environment whose socket layer fails: sending succeeds and nothing
    can be fetched, the error being one of the protocol. *)
Definition dead_env : Env nat := {|
  READ_ACCESS := "READ";
  transition := spec_transition;
  send_all := fun s => (Ok tt, s);
  fetch_all := fun s =>
    (Raise (mkExc BoltProtocolError [VStr "connection lost"] []), s);
  call_user := fun _ _ _ n => (Ok tt, S n);
  float_of_text := fun _ =>
    raise_new ValueError [VStr "could not convert string to float"];
  dict_of_iterable := fun _ =>
    raise_new ValueError [VStr "dictionary update sequence element"];
  dict_of_zip := fun _ _ => Ok (VDict [])
|}.

Section Builders.

Context {U : Type} `{!Env U}.

(** A request builder either raises and leaves the connection and the
    caller as they were, or appends exactly one message of signature [sig]
    together with one new response, of class [cls] for the request [name]
    with the handlers given, which is not complete. *)
Definition all_or_nothing (m : M U unit) (sig : Z) (name : string)
    (cls : ResponseClass) (handlers : list (string * Handler)) : Prop :=
  forall c u,
    (exists e, m (c, u) = (Raise e, (c, u))) \/
    (exists fields,
       m (c, u)
       = (Ok tt, (queued c (mkMessage sig fields)
                    (mkResponse cls handlers name false), u))).

(** The part of the 4.0 [route] after RUN and PULL are appended;
    [metadata] and [records] are the local dict and list the responses
    fill. *)
Definition route_4x0_exchange (metadata records : nat) : M U Value :=
  send_all ;;;
  fetch_all ;;;
  let! md := cell_get metadata in
  let! recs := cell_get records in
  let! fields := lift (py_get md "fields" (VList [])) in
  let! recs := lift (py_list recs) in
  let! routing_info := lift (map_result (dict_of_zip fields) recs) in
  ret (VList routing_info).

End Builders.

End BoltProps.
Export BoltProps.

(** * Properties *)

(** ** The error taxonomy *)

Lemma table_classes (l : list (string * ExcClass)) code c :
  forallb (fun kv => bool_decide (snd kv ∈ neo4j_classes)) l = true ->
  (list_to_map l : gmap string ExcClass) !! code = Some c ->
  c ∈ neo4j_classes.
Proof.
  intros Hall H. apply elem_of_list_to_map_2 in H.
  rewrite forallb_forall in Hall.
  apply list_elem_of_In in H. apply Hall in H.
  apply bool_decide_eq_true in H. exact H.
Qed.

Lemma client_errors_classes code c :
  client_errors !! code = Some c -> c ∈ neo4j_classes.
Proof. apply table_classes. reflexivity. Qed.

Lemma transient_errors_classes code c :
  transient_errors !! code = Some c -> c ∈ neo4j_classes.
Proof. apply table_classes. reflexivity. Qed.

Lemma neo4j_classes_elem c :
  bool_decide (c ∈ neo4j_classes) = true -> c ∈ neo4j_classes.
Proof. apply bool_decide_eq_true. Qed.

Lemma extract_error_class_neo4j cls classification code :
  cls ∈ neo4j_classes ->
  _extract_error_class cls classification code ∈ neo4j_classes.
Proof.
  intros Hcls. unfold _extract_error_class.
  destruct (String.eqb classification CLASSIFICATION_CLIENT).
  { destruct (client_errors !! code) eqn:E.
    - eauto using client_errors_classes.
    - by apply neo4j_classes_elem. }
  destruct (String.eqb classification CLASSIFICATION_TRANSIENT).
  { destruct (transient_errors !! code) eqn:E.
    - eauto using transient_errors_classes.
    - by apply neo4j_classes_elem. }
  destruct (String.eqb classification CLASSIFICATION_DATABASE).
  - by apply neo4j_classes_elem.
  - assumption.
Qed.

(** Case analysis over the classes a server error can have. *)
Ltac neo4j_class_cases H :=
  unfold neo4j_classes in H;
  repeat (apply elem_of_cons in H as [H | H]);
  [ .. | apply elem_of_nil in H; contradiction ].

(** What [hydrate] returns, when it returns: the attributes it sets and the
    class it picks. *)
Lemma hydrate_Ok cls message code metadata e :
  hydrate cls message code metadata = Ok e ->
  exists s classification category title,
    py_or code (VStr UNKNOWN_ERROR) = VStr s /\
    exc_class e = _extract_error_class cls classification s /\
    (s = AUTHORIZATION_EXPIRED -> classification = CLASSIFICATION_TRANSIENT) /\
    exc_dict e =
      [("message", py_or message (VStr "An unknown error occurred"));
       ("code", VStr s);
       ("classification", VStr classification);
       ("category", VStr category);
       ("title", VStr title);
       ("metadata", VDict metadata)].
Proof.
  unfold hydrate. fold UNKNOWN_ERROR. fold AUTHORIZATION_EXPIRED. intros H.
  destruct (py_or code _) as [| | | | s | | |] eqn:Ecode; try discriminate.
  exists s.
  destruct (String.eqb_spec s AUTHORIZATION_EXPIRED) as [-> | Hne].
  - injection H as <-. do 3 eexists. repeat split; reflexivity.
  - destruct (split "." s) as [| p0 [| p1 [| p2 [| p3 [| p4 ps]]]]];
      injection H as <-; do 3 eexists;
      (split; [reflexivity |]); (split; [reflexivity |]);
      (split; [intros; contradiction | reflexivity]).
Qed.

Lemma hydrate_code_attr cls message code metadata e :
  hydrate cls message code metadata = Ok e ->
  exists s,
    py_or code (VStr UNKNOWN_ERROR) = VStr s /\
    getattr e "code" = Ok (VStr s).
Proof.
  intros H. apply hydrate_Ok in H as (s & cl & cat & t & Hs & _ & _ & Hd).
  exists s. split; [assumption |].
  unfold getattr. rewrite Hd. reflexivity.
Qed.

Lemma hydrate_class cls message code metadata e :
  cls ∈ neo4j_classes ->
  hydrate cls message code metadata = Ok e ->
  exc_class e ∈ neo4j_classes.
Proof.
  intros Hcls H. apply hydrate_Ok in H as (s & cl & cat & t & _ & Hc & _).
  rewrite Hc. by apply extract_error_class_neo4j.
Qed.

Lemma Neo4jError_in_classes : Neo4jError ∈ neo4j_classes.
Proof. by apply neo4j_classes_elem. Qed.

(** Every class of a server error inherits [invalidates_all_connections]
    from [Neo4jError]. *)
Lemma invalidates_all_connections_code e s :
  exc_class e ∈ neo4j_classes ->
  getattr e "code" = Ok (VStr s) ->
  invalidates_all_connections e = Ok (String.eqb s AUTHORIZATION_EXPIRED).
Proof.
  intros Hc Hcode. unfold invalidates_all_connections.
  neo4j_class_cases Hc; rewrite Hc; simpl; rewrite Hcode; reflexivity.
Qed.




(** [is_retriable] on a server error: [TransientError] and its subclasses
    run the override, the other classes the method of [Neo4jError]. *)
Lemma is_retriable_code e s :
  exc_class e ∈ neo4j_classes ->
  getattr e "code" = Ok (VStr s) ->
  is_retriable e =
    Ok (isinstance e TransientError
        && negb (String.eqb s TERMINATED || String.eqb s LOCK_CLIENT_STOPPED)).
Proof.
  intros Hc Hcode. unfold is_retriable, isinstance.
  neo4j_class_cases Hc; rewrite Hc; simpl; rewrite ?Hcode; reflexivity.
Qed.




(** ** Construction of [TransactionNestingError] *)

(** C8.  [TransactionNestingError] derives from [DriverError] and is not a
    subclass of [TransactionError], the class its [__init__] hands to
    [super()]; constructing it raises [TypeError] on every argument list,
    with or without a [transaction] argument, and never returns an
    instance. *)
Theorem TransactionNestingError_construct_raises :
  base TransactionNestingError = Some DriverError /\
  issubclass TransactionNestingError TransactionError = false /\
  forall args kwargs,
    exists e,
      construct TransactionNestingError args kwargs = Raise e /\
      exc_class e = TypeError.
Proof.
  split; [reflexivity |]. split; [reflexivity |].
  intros args kwargs. unfold construct. simpl.
  destruct (bind_param "transaction" args kwargs) as [[[t a] k] | e] eqn:E.
  - eexists. split; reflexivity.
  - exists e. split; [reflexivity |].
    unfold bind_param in E.
    destruct args; destruct (dict_lookup kwargs "transaction");
      try discriminate; injection E as <-; reflexivity.
Qed.

(** The sibling class with the intended [super()] call constructs. *)
Example TransactionError_construct transaction args :
  construct TransactionError (transaction :: args) [] =
  Ok (mkExc TransactionError args [("transaction", transaction)]).
Proof. reflexivity. Qed.

(** ** [is_reset] *)

(** What [is_reset] computes: the last enqueued response is that of a
    [reset], or the tracked state is [READY]; the queue need not be
    empty in the second case. *)
Lemma is_reset_true_iff c :
  is_reset c = true <->
  tail_request c = Some "reset" \/ server_state c = READY.
Proof.
  unfold is_reset, tail_request.
  destruct (last (responses c)) as [[ref |] |]; simpl.
  1: destruct (heap c !! ref) as [r |]; simpl.
  1: destruct (String.eqb_spec (message r) "reset") as [-> | Hne].
  all: rewrite ?bool_decide_eq_true; try tauto.
  all: split; [by right | intros [H | H]; congruence].
Qed.

(** C3.  With a [run] pending in the queue and the tracked state [READY],
    [is_reset] is true, although the queue is not empty and its last
    response is not that of a [reset]: the characterisation of the
    specification does not hold of this connection. *)
Theorem is_reset_pending_run :
  responses (fst pending_run) = [Some 0%nat] /\
  tail_request (fst pending_run) = Some "run" /\
  server_state (fst pending_run) = READY /\
  is_reset (fst pending_run) = true /\
  ~ is_reset_spec (fst pending_run).
Proof.
  repeat split; try reflexivity.
  intros [[H _] | H]; discriminate.
Qed.

(** ** [ConnectionErrorHandler] *)

(** C10.  An attribute read through the wrapper is the attribute of the
    connection when it is not callable; a callable is replaced by a wrapper
    which calls it, returns [None] whatever the callable returned, calls
    [on_error] and then re-raises when the callable raised [Neo4jError],
    [ServiceUnavailable] or [SessionExpired], and lets any other exception
    through without calling [on_error]. *)
Theorem ConnectionErrorHandler_getattr {W : Type}
    (self : ConnectionErrorHandler W) (name : string) :
  (forall v,
     connection_getattr self name = Ok (Data v) ->
     __getattr__ self name = Ok (Data v)) /\
  (forall func,
     connection_getattr self name = Ok (Callable func) ->
     exists wrapped,
       __getattr__ self name = Ok (Callable wrapped) /\
       forall args kwargs w,
         (forall v w',
            func args kwargs w = (Ok v, w') ->
            wrapped args kwargs w = (Ok VNone, w')) /\
         (forall exc w' r w'',
            func args kwargs w = (Raise exc, w') ->
            caught_by exc [Neo4jError; ServiceUnavailable; SessionExpired]
              = true ->
            on_error self exc w' = (Ok r, w'') ->
            wrapped args kwargs w = (Raise exc, w'')) /\
         (forall exc w',
            func args kwargs w = (Raise exc, w') ->
            caught_by exc [Neo4jError; ServiceUnavailable; SessionExpired]
              = false ->
            wrapped args kwargs w = (Raise exc, w'))).
Proof.
  split.
  - intros v H. unfold __getattr__. rewrite H. reflexivity.
  - intros func H. exists (inner self func). split.
    + unfold __getattr__. rewrite H. reflexivity.
    + intros args kwargs w. unfold inner. repeat split.
      * intros v w' ->. reflexivity.
      * intros exc w' r w'' -> -> ->. reflexivity.
      * intros exc w' -> ->. reflexivity.
Qed.

Lemma ConnectionErrorHandler_getattr_witness :
  __getattr__ sample_handler "local_port" = Ok (Data (VInt 7687)) /\
  (exists wrapped,
     __getattr__ sample_handler "is_reset" = Ok (Callable wrapped) /\
     wrapped [] [] [] = (Ok VNone, [])) /\
  (exists wrapped,
     __getattr__ sample_handler "fetch_all" = Ok (Callable wrapped) /\
     wrapped [] [] [] =
       (Raise (mkExc SessionExpired [VStr "gone"] []), [SessionExpired])) /\
  (exists wrapped,
     __getattr__ sample_handler "run" = Ok (Callable wrapped) /\
     wrapped [] [] [] = (Raise (mkExc ValueError [] []), [])).
Proof.
  split; [| split; [| split]].
  - apply (proj1 (ConnectionErrorHandler_getattr sample_handler "local_port")).
    reflexivity.
  - destruct (proj2 (ConnectionErrorHandler_getattr sample_handler "is_reset")
                _ eq_refl) as (wrapped & Hw & Hcalls).
    exists wrapped. split; [exact Hw |].
    apply (proj1 (Hcalls [] [] []) (VInt 1)). reflexivity.
  - destruct (proj2 (ConnectionErrorHandler_getattr sample_handler "fetch_all")
                _ eq_refl) as (wrapped & Hw & Hcalls).
    exists wrapped. split; [exact Hw |].
    apply (proj1 (proj2 (Hcalls [] [] [])) _ [] VNone); reflexivity.
  - destruct (proj2 (ConnectionErrorHandler_getattr sample_handler "run")
                _ eq_refl) as (wrapped & Hw & Hcalls).
    exists wrapped. split; [exact Hw |].
    apply (proj2 (proj2 (Hcalls [] [] []))); reflexivity.
Defined.

(** ** Failure of the initialisation *)

Section InitResponseFailure.

Context {U : Type} `{!Env U}.


End InitResponseFailure.


(** ** Request builders: the transaction timeout *)

Section Timeout.

Context {U : Type} `{!Env U}.


(** A timeout of zero is accepted. *)
Lemma set_tx_timeout_zero msg_type msg_value extra :
  set_tx_timeout msg_type msg_value (VInt 0) extra
    = Ok (dict_set extra "tx_timeout" (VInt 0)) /\
  set_tx_timeout msg_type msg_value (VFloat (S754_zero false)) extra
    = Ok (dict_set extra "tx_timeout" (VInt 0)).
Proof. split; reflexivity. Qed.

(** A timeout of a millisecond or more below zero is rejected with
    [ValueError]. *)
Example set_tx_timeout_minus_one msg_type msg_value extra :
  set_tx_timeout msg_type msg_value (VInt (-1)) extra
    = raise_new ValueError [VStr msg_value].
Proof. reflexivity. Qed.

(** C4.  The timeout [-0.00048828125] is a negative number, and [run] and
    [begin] of every handler accept it: the product with 1000 truncates to
    zero, the test for a negative value comes after the truncation, and the
    request goes out with [tx_timeout] 0. *)
Theorem negative_timeout_accepted (v : BoltVersion) (s : Conn * U) :
  (exists f, negative_timeout = VFloat f /\
             SFltb f (S754_zero false) = true) /\
  timeout_ms negative_timeout = Ok 0 /\
  (exists s',
     run v (VStr "RETURN 1") VNone VNone VNone VNone negative_timeout
       VNone VNone [] s = (Ok tt, s') /\
     outbox (fst s') =
       (outbox (fst s) ++
        [mkMessage 16 [VStr "RETURN 1"; VDict [];
                       VDict [("tx_timeout", VInt 0)]]])%list) /\
  (exists s',
     begin v VNone VNone VNone negative_timeout VNone VNone [] s
       = (Ok tt, s') /\
     outbox (fst s') =
       (outbox (fst s) ++
        [mkMessage 17 [VDict [("tx_timeout", VInt 0)]]])%list).
Proof.
  split; [eexists; split; reflexivity |].
  split; [reflexivity |].
  destruct s as [c u].
  split; destruct v; eexists; (split; [vm_compute; reflexivity | reflexivity]).
Qed.

End Timeout.

(** ** Request builders: impersonation *)


Lemma is_none_false v : v <> VNone -> is_none v = false.
Proof. by destruct v. Qed.

Section Impersonation.

Context {U : Type} `{!Env U}.














End Impersonation.



(** ** Processing a FAILURE *)

Lemma isinstance_Neo4jError_classes e :
  isinstance e Neo4jError = true -> exc_class e ∈ neo4j_classes.
Proof.
  unfold isinstance. destruct (exc_class e); intros H;
    try (vm_compute in H; discriminate H); by apply neo4j_classes_elem.
Qed.

Lemma classes_isinstance_Neo4jError e :
  exc_class e ∈ neo4j_classes -> isinstance e Neo4jError = true.
Proof.
  unfold isinstance. intros Hc. neo4j_class_cases Hc; rewrite Hc; reflexivity.
Qed.

(** A server error has a [code], if only the [None] of the class. *)
Lemma getattr_code_total e :
  exc_class e ∈ neo4j_classes -> exists v, getattr e "code" = Ok v.
Proof.
  intros Hc. unfold getattr.
  destruct (dict_lookup (exc_dict e) "code"); [eauto |].
  neo4j_class_cases Hc; rewrite Hc; eexists; reflexivity.
Qed.

(** [invalidates_all_connections] of a server error returns. *)
Lemma invalidates_all_connections_total e :
  exc_class e ∈ neo4j_classes ->
  exists b, invalidates_all_connections e = Ok b.
Proof.
  intros Hc. destruct (getattr_code_total e Hc) as [v Hv].
  unfold invalidates_all_connections.
  neo4j_class_cases Hc; rewrite Hc; simpl; rewrite Hv; eexists; reflexivity.
Qed.

(** The first two [except] clauses exclude each other. *)
Lemma caught_by_exclusive e :
  caught_by e [ServiceUnavailable; DatabaseUnavailable] = true ->
  caught_by e [NotALeader; ForbiddenOnReadOnlyDatabase] = false.
Proof.
  unfold caught_by, isinstance. destruct (exc_class e); intros H;
    try reflexivity; vm_compute in H; discriminate H.
Qed.

(** A hydrated error that invalidates all connections has class
    [TransientError], which the first two [except] clauses do not take. *)
Lemma hydrated_invalidating_class d e :
  hydrate_kwargs Neo4jError d = Ok e ->
  invalidates_all_connections e = Ok true ->
  exc_class e = TransientError.
Proof.
  intros H Hinv.
  pose proof (hydrate_class _ _ _ _ _ Neo4jError_in_classes H) as Hcls.
  unfold hydrate_kwargs in H.
  pose proof (hydrate_code_attr _ _ _ _ _ H) as (s' & _ & Hattr').
  apply hydrate_Ok in H as (s & cl & cat & t & _ & Hc & Hae & Hd).
  assert (s' = s) as ->.
  { unfold getattr in Hattr'. rewrite Hd in Hattr'. simpl in Hattr'.
    congruence. }
  rewrite (invalidates_all_connections_code _ _ Hcls Hattr') in Hinv.
  injection Hinv as Hinv. apply String.eqb_eq in Hinv. subst s.
  rewrite Hc, (Hae eq_refl). reflexivity.
Qed.

Lemma set_pool_calls_nil c : set_pool_calls (pool_calls c ++ []) c = c.
Proof. destruct c. unfold set_pool_calls. simpl. by rewrite app_nil_r. Qed.

Section Failure.

Context {U : Type} `{!Env U}.

Local Arguments caught_by : simpl never.
Local Arguments isinstance : simpl never.

Lemma raise_hydrated_raises {A} (metadata : Value) (s : Conn * U) :
  exists e, @raise_hydrated U A metadata s = (Raise e, s).
Proof.
  unfold raise_hydrated.
  destruct metadata; try (eexists; reflexivity).
  destruct (hydrate_kwargs Neo4jError d); eexists; reflexivity.
Qed.

(** [on_failure] of every response class ends in a [raise]. *)
Lemma on_failure_raises (reset : M U unit) (self : Response)
    (metadata : Value) (s : Conn * U) :
  exists e s', on_failure reset self metadata s = (Raise e, s').
Proof.
  unfold on_failure.
  assert (exists e s', Response_on_failure reset self metadata s
                       = (Raise e, s')) as HR.
  { unfold Response_on_failure, bind.
    destruct (try_except _ _ s) as [[[] | e1] s1]; [| eauto].
    destruct (fire self "on_failure" _ s1) as [[[] | e2] s2]; [| eauto].
    destruct (fire self "on_summary" _ s2) as [[[] | e3] s3]; [| eauto].
    destruct (raise_hydrated_raises (A := unit) metadata s3) as [e He].
    rewrite He. eauto. }
  destruct (resp_class self); try exact HR.
  unfold InitResponse_on_failure, bind, lift.
  destruct (py_get metadata "code" VNone) as [code | e]; [| eauto].
  destruct (eq_str code _).
  - destruct (raise_hydrated_raises (A := unit) metadata s) as [e He].
    rewrite He. eauto.
  - destruct (py_get metadata "message" _); eauto.
Qed.

(** The [except] clauses: the calls made on the pool, and the re-raise. *)
Lemma on_failure_except_calls (e : Exc) (c : Conn) (u : U) :
  exists calls,
    on_failure_except e (c, u)
      = (Raise e, (set_pool_calls (pool_calls c ++ calls) c, u)) /\
    (pool c = true ->
     caught_by e [ServiceUnavailable; DatabaseUnavailable] = true ->
     calls = [Deactivate (unresolved_address c)]) /\
    (pool c = true ->
     caught_by e [NotALeader; ForbiddenOnReadOnlyDatabase] = true ->
     calls = [OnWriteFailure (unresolved_address c)]) /\
    (pool c = true ->
     caught_by e [ServiceUnavailable; DatabaseUnavailable] = false ->
     caught_by e [NotALeader; ForbiddenOnReadOnlyDatabase] = false ->
     isinstance e Neo4jError = true ->
     invalidates_all_connections e = Ok true ->
     calls = [MarkAllStale]) /\
    (pool c = true ->
     (exists d, hydrate_kwargs Neo4jError d = Ok e) ->
     invalidates_all_connections e = Ok true ->
     calls = [MarkAllStale]) /\
    (pool c = false -> calls = []).
Proof.
  unfold on_failure_except, bind, get_conn, when, pool_call, modify, raise.
  simpl.
  destruct (caught_by e [ServiceUnavailable; DatabaseUnavailable]) eqn:E1.
  { pose proof (caught_by_exclusive _ E1) as E2.
    destruct (pool c) eqn:P; simpl.
    - eexists. split; [reflexivity |].
      repeat split; try congruence.
      intros _ [d Hd] Hinv.
      pose proof (hydrated_invalidating_class _ _ Hd Hinv) as Hc.
      unfold caught_by, isinstance in E1. rewrite Hc in E1. discriminate E1.
    - exists []. rewrite set_pool_calls_nil.
      repeat split; congruence. }
  destruct (caught_by e [NotALeader; ForbiddenOnReadOnlyDatabase]) eqn:E2.
  { destruct (pool c) eqn:P; simpl.
    - eexists. split; [reflexivity |].
      repeat split; try congruence.
      intros _ [d Hd] Hinv.
      pose proof (hydrated_invalidating_class _ _ Hd Hinv) as Hc.
      unfold caught_by, isinstance in E2. rewrite Hc in E2. discriminate E2.
    - exists []. rewrite set_pool_calls_nil.
      repeat split; congruence. }
  destruct (isinstance e Neo4jError) eqn:E3.
  { destruct (pool c) eqn:P; simpl.
    - destruct (invalidates_all_connections_total e
                  (isinstance_Neo4jError_classes _ E3)) as [b Hb].
      unfold lift. rewrite Hb. destruct b; simpl.
      + eexists. split; [reflexivity |]. repeat split; congruence.
      + exists []. rewrite set_pool_calls_nil. repeat split; congruence.
    - exists []. rewrite set_pool_calls_nil. repeat split; congruence. }
  exists []. rewrite set_pool_calls_nil.
  repeat split; try congruence.
  intros _ [d Hd] _.
  pose proof (hydrate_class _ _ _ _ _ Neo4jError_in_classes Hd) as Hc.
  apply classes_isinstance_Neo4jError in Hc. congruence.
Qed.

(** The unfolding of [_process_message] on a summary: the head is popped
    and marked complete, then the signature is dispatched on. *)
Lemma process_summary (signature : Z) (metadata : Value) (c : Conn) (u : U)
    (ref : nat) (rest : list (option nat)) (r : Response) :
  responses c = Some ref :: rest ->
  heap c !! ref = Some r ->
  _process_message [] (Some signature) metadata (c, u) =
  (summary_dispatch signature (set_complete r) metadata ;;;
   ret (0%nat, 1%nat)) (after_pop c ref r rest, u).
Proof.
  intros Hq Hh. unfold _process_message.
  unfold bind at 1. unfold ret at 1. unfold bind at 1. unfold get_conn at 1.
  simpl. rewrite Hq. unfold bind at 1. simpl. rewrite Hh.
  unfold bind at 1. reflexivity.
Qed.

(** C1, as amended.  Processing a FAILURE summary with a response at the
    head of the queue: the server state is [FAILED] in the connection the
    response's [on_failure] runs on; [on_failure] raises, and the same error
    leaves [_process_message].  Before it does, a connection that has a pool
    calls [deactivate(address)] for [ServiceUnavailable] and
    [DatabaseUnavailable], [on_write_failure(address)] for [NotALeader] and
    [ForbiddenOnReadOnlyDatabase], and [mark_all_stale()] for any other
    [Neo4jError], as every error hydrated from FAILURE metadata is, whose
    [invalidates_all_connections()] holds; a connection without a pool
    makes no call. *)
Theorem process_message_failure (c : Conn) (u : U) (ref : nat)
    (rest : list (option nat)) (r : Response) (metadata : Value) :
  responses c = Some ref :: rest ->
  heap c !! ref = Some r ->
  let c1 := set_server_state FAILED (after_pop c ref r rest) in
  server_state c1 = FAILED /\
  exists e c2 u2,
    on_failure reset (set_complete r) (py_or metadata (VDict [])) (c1, u)
      = (Raise e, (c2, u2)) /\
    exists calls,
      _process_message [] (Some 127) metadata (c, u)
        = (Raise e, (set_pool_calls (pool_calls c2 ++ calls) c2, u2)) /\
      (pool c2 = true ->
       caught_by e [ServiceUnavailable; DatabaseUnavailable] = true ->
       calls = [Deactivate (unresolved_address c2)]) /\
      (pool c2 = true ->
       caught_by e [NotALeader; ForbiddenOnReadOnlyDatabase] = true ->
       calls = [OnWriteFailure (unresolved_address c2)]) /\
      (pool c2 = true ->
       caught_by e [ServiceUnavailable; DatabaseUnavailable] = false ->
       caught_by e [NotALeader; ForbiddenOnReadOnlyDatabase] = false ->
       isinstance e Neo4jError = true ->
       invalidates_all_connections e = Ok true ->
       calls = [MarkAllStale]) /\
      (pool c2 = true ->
       (exists d, hydrate_kwargs Neo4jError d = Ok e) ->
       invalidates_all_connections e = Ok true ->
       calls = [MarkAllStale]) /\
      (pool c2 = false -> calls = []).
Proof.
  intros Hq Hh c1. split; [reflexivity |].
  destruct (on_failure_raises reset (set_complete r)
              (py_or metadata (VDict [])) (c1, u)) as (e & [c2 u2] & He).
  exists e, c2, u2. split; [exact He |].
  destruct (on_failure_except_calls e c2 u2) as (calls & Hx & Hprops).
  exists calls. split; [| exact Hprops].
  rewrite (process_summary _ _ _ _ _ _ _ Hq Hh).
  unfold summary_dispatch. simpl.
  unfold bind at 1. unfold bind at 1. unfold modify at 1. simpl.
  unfold try_except. fold c1. rewrite He. rewrite Hx. reflexivity.
Qed.

End Failure.

(** Scenario S4: a FAILURE with the code of [NotALeader] in reply to the
    pending [run]. *)
Lemma process_message_failure_witness :
  exists e c' u',
    @_process_message nat idle_env [] (Some 127)
      (VDict [("code", VStr "Neo.ClientError.Cluster.NotALeader");
              ("message", VStr "not a leader")])
      (fst pending_run, snd pending_run) = (Raise e, (c', u')) /\
    exc_class e = NotALeader /\
    pool_calls c' = [OnWriteFailure (VStr "host:7687")] /\
    server_state c' = FAILED.
Proof.
  destruct (@process_message_failure nat idle_env
              (fst pending_run) (snd pending_run) 0%nat []
              (mkResponse Response_ [] "run" false)
              (VDict [("code", VStr "Neo.ClientError.Cluster.NotALeader");
                      ("message", VStr "not a leader")])
              eq_refl eq_refl)
    as (_ & e & c2 & u2 & Hof & calls & Hpm & _ & Hwrite & _).
  vm_compute in Hof. injection Hof as <- <- <-.
  rewrite (Hwrite eq_refl eq_refl) in Hpm.
  do 3 eexists. split; [exact Hpm |]. repeat split.
Defined.

(** C1 as stated fails: on a connection without a pool, a FAILURE with the
    code of [DatabaseUnavailable] raises the error and no [deactivate] is
    recorded. *)
Lemma failure_pool_spec_fails : ~ @failure_pool_spec nat idle_env.
Proof.
  intros H.
  assert (exists e c' u',
            @_process_message nat idle_env [] (Some 127)
              (VDict [("code",
                       VStr "Neo.TransientError.General.DatabaseUnavailable")])
              (fst pending_run_no_pool, snd pending_run_no_pool)
            = (Raise e, (c', u')) /\
            caught_by e [ServiceUnavailable; DatabaseUnavailable] = true /\
            pool_calls c' = []) as (e & c' & u' & E & Hc & Hp).
  { do 3 eexists. split; [vm_compute; reflexivity |]. split; reflexivity. }
  destruct (H (fst pending_run_no_pool) (snd pending_run_no_pool) 0%nat []
              (mkResponse Response_ [] "run" false) _ _ _ _
              eq_refl eq_refl E) as (Hd & _).
  specialize (Hd Hc). rewrite Hp in Hd. by apply elem_of_nil in Hd.
Qed.

(** ** The response queue *)

Lemma set_cells_id c : set_cells (cells c) c = c.
Proof. by destruct c. Qed.

Lemma Inbox_next_record msg :
  tag msg = 113 -> Inbox_next msg = (fields msg, None, None).
Proof. intros H. unfold Inbox_next. by rewrite H. Qed.

Lemma Inbox_next_summary msg :
  tag msg <> 113 ->
  Inbox_next msg = ([], Some (tag msg), head (fields msg)).
Proof.
  intros H. unfold Inbox_next. apply Z.eqb_neq in H. rewrite H.
  by destruct (fields msg).
Qed.

Section Callbacks.

Context {U : Type} `{!Env U}.

(** A callback changes nothing of the connection but the local dicts and
    lists that handlers are bound to. *)
Lemma call_handler_conn h args c (u : U) res c' u' :
  call_handler h args (c, u) = (res, (c', u')) ->
  c' = set_cells (cells c') c.
Proof.
  unfold call_handler, cell_get, bind, get_conn, ret, raise_cls, raise, lift,
    modify.
  destruct h; simpl; repeat case_match; intros ?; simplify_eq/=;
    solve [symmetry; apply set_cells_id | reflexivity].
Qed.

Lemma fire_conn r name args c (u : U) res c' u' :
  fire r name args (c, u) = (res, (c', u')) ->
  c' = set_cells (cells c') c.
Proof.
  unfold fire, ret. repeat case_match; eauto using call_handler_conn;
    intros ?; simplify_eq/=; symmetry; apply set_cells_id.
Qed.

Lemma set_cells_twice l c c' :
  c' = set_cells l c -> forall c'' l', c'' = set_cells l' c' ->
  c'' = set_cells (cells c'') c.
Proof. intros -> c'' l' ->. by destruct c. Qed.

Lemma on_records_conn r records c (u : U) res c' u' :
  on_records r records (c, u) = (res, (c', u')) ->
  c' = set_cells (cells c') c.
Proof. apply fire_conn. Qed.

Lemma on_ignored_conn r metadata c (u : U) res c' u' :
  on_ignored r metadata (c, u) = (res, (c', u')) ->
  c' = set_cells (cells c') c.
Proof.
  unfold on_ignored, Response_on_ignored, bind.
  destruct (fire r "on_ignored" _ _) as [[[] | e] [c1 u1]] eqn:E1.
  - intros E2. apply fire_conn in E1, E2.
    eapply set_cells_twice; eassumption.
  - intros [= <- <- <-]. eauto using fire_conn.
Qed.

Lemma on_success_conn r metadata c (u : U) res c' u' :
  on_success r metadata (c, u) = (res, (c', u')) ->
  c' = set_cells (cells c') c.
Proof.
  unfold on_success, Response_on_success, bind, lift, when.
  destruct (fire r "on_success" _ _) as [[[] | e] [c1 u1]] eqn:E1.
  - destruct (py_get metadata "has_more" VNone) as [hm | e].
    + destruct (negb (truthy hm)).
      * intros E2. apply fire_conn in E1, E2.
        eapply set_cells_twice; eassumption.
      * intros [= <- <- <-]. eauto using fire_conn.
    + intros [= <- <- <-]. eauto using fire_conn.
  - intros [= <- <- <-]. eauto using fire_conn.
Qed.

(** Processing a RECORD: [on_records] of the head runs on the connection as
    it is, and its outcome is that of [_process_message]. *)
Lemma process_record (d : Value) (ds : list Value) (c : Conn) (u : U)
    (ref : nat) (rest : list (option nat)) (r : Response) :
  responses c = Some ref :: rest ->
  heap c !! ref = Some r ->
  _process_message (d :: ds) None VNone (c, u) =
  (on_records r (VList (d :: ds)) ;;; ret (S (length ds), 0%nat)) (c, u).
Proof.
  intros Hq Hh. unfold _process_message.
  unfold bind at 1. unfold bind at 1. unfold get_conn at 1. simpl.
  rewrite Hq, Hh. reflexivity.
Qed.

End Callbacks.

(** *** First in, first out *)

Section Fifo.

Context {U : Type} `{!Env U}.

Local Abbreviation keeps := (@Props.keeps U _).

(** The socket layer is not among the sources: it is taken to keep the
    discipline. *)
Hypothesis send_all_keeps : keeps send_all.
Hypothesis fetch_all_keeps : keeps fetch_all.

Lemma keeps_ret {A} (a : A) : keeps (ret a).
Proof. intros s H. exact H. Qed.

Lemma keeps_raise {A} e : keeps (@raise U A e).
Proof. intros s H. exact H. Qed.

Lemma keeps_lift {A} (r : Result A) : keeps (lift r).
Proof. intros s H. exact H. Qed.

Lemma keeps_get_conn : keeps get_conn.
Proof. intros s H. exact H. Qed.

Lemma keeps_modify f :
  (forall c, fifo c -> fifo (f c)) -> keeps (modify f).
Proof. intros Hf s H. apply Hf, H. Qed.

Lemma keeps_bind_at {A B} (m : M U A) (k : A -> M U B) s :
  fifo (fst (snd (m s))) -> (forall a, keeps (k a)) ->
  fifo (fst (snd (bind m k s))).
Proof.
  intros Hm Hk. unfold bind.
  destruct (m s) as [[a | e] s']; simpl in *; [by apply Hk | exact Hm].
Qed.

Lemma keeps_bind {A B} (m : M U A) (k : A -> M U B) :
  keeps m -> (forall a, keeps (k a)) -> keeps (bind m k).
Proof. intros Hm Hk s H. apply keeps_bind_at; auto. Qed.

Lemma keeps_try_except {A} (m : M U A) (h : Exc -> M U A) :
  keeps m -> (forall e, keeps (h e)) -> keeps (try_except m h).
Proof.
  intros Hm Hh s H. unfold try_except. specialize (Hm s H).
  destruct (m s) as [[a | e] s']; simpl in *; [exact Hm | by apply Hh].
Qed.

Lemma keeps_when b (m : M U unit) : keeps m -> keeps (when b m).
Proof. intros Hm. destruct b; [exact Hm | apply keeps_ret]. Qed.

Lemma fifo_append x tag fields c :
  fifo c ->
  fifo (set_enqueued (enqueued c ++ [x])
          (set_responses (responses c ++ [x])
             (set_outbox (outbox c ++ [mkMessage tag fields]) c))).
Proof. unfold fifo. simpl. intros ->. by rewrite app_assoc. Qed.

Lemma fifo_pop head rest c :
  responses c = head :: rest ->
  fifo c ->
  fifo (set_popped (popped c ++ [head]) (set_responses rest c)).
Proof.
  unfold fifo. simpl. intros -> ->. by rewrite <- app_assoc.
Qed.

(** Steps of a proof that a computation keeps the discipline: through the
    monad, and by cases on what a branch tests. *)
Ltac keeps_step :=
  match goal with
  | |- keeps (ret _) => apply keeps_ret
  | |- keeps (raise _) => apply keeps_raise
  | |- keeps (raise_cls _ _) => apply keeps_raise
  | |- keeps (lift _) => apply keeps_lift
  | |- keeps get_conn => apply keeps_get_conn
  | |- keeps send_all => assumption
  | |- keeps fetch_all => assumption
  | |- keeps (when _ _) => apply keeps_when
  | |- keeps (try_except _ _) => apply keeps_try_except
  | |- keeps (bind _ _) => apply keeps_bind
  | |- keeps (modify _) =>
      apply keeps_modify;
      let c := fresh "c" in
      let H := fresh "H" in
      intros c H; first [ exact H | apply fifo_append, H ]
  | |- keeps (if ?b then _ else _) => destruct b
  | |- keeps (match ?x with _ => _ end) => destruct x
  | |- keeps (let _ := _ in _) => cbv zeta
  | |- forall _, _ => intro
  end.

Ltac keeps_tac := repeat keeps_step.

Lemma keeps_call_handler h args : keeps (call_handler h args).
Proof.
  intros [c u] H. destruct (call_handler h args (c, u)) as [res [c' u']] eqn:E.
  apply call_handler_conn in E. simpl. rewrite E. exact H.
Qed.

Lemma keeps_fire r name args : keeps (fire r name args).
Proof.
  intros [c u] H. destruct (fire r name args (c, u)) as [res [c' u']] eqn:E.
  apply fire_conn in E. simpl. rewrite E. exact H.
Qed.

Lemma keeps_Response_new cls message handlers :
  keeps (Response_new cls message handlers).
Proof. unfold Response_new. keeps_tac. Qed.

Lemma keeps_append tag fields response : keeps (_append tag fields response).
Proof. unfold _append. keeps_tac. Qed.

Lemma keeps_new_cell v : keeps (new_cell v).
Proof. unfold new_cell. keeps_tac. Qed.

Lemma keeps_cell_get i : keeps (cell_get i).
Proof. unfold cell_get. keeps_tac. Qed.

Lemma keeps_reset : keeps reset.
Proof.
  unfold reset.
  repeat first [ apply keeps_Response_new | apply keeps_append | keeps_step ].
Qed.

Ltac keeps_builder :=
  repeat first
    [ apply keeps_Response_new | apply keeps_append | apply keeps_new_cell
    | apply keeps_cell_get | apply keeps_fire | apply keeps_reset
    | keeps_step ].

Lemma keeps_raise_impersonation {A} imp_user :
  keeps (@raise_impersonation U A imp_user).
Proof. unfold raise_impersonation. keeps_tac. Qed.

Lemma keeps_run v q p mode b md t db iu h :
  keeps (run v q p mode b md t db iu h).
Proof.
  destruct v; unfold run, run_4x0, run_4x4, run_5x0;
    repeat first [ apply keeps_raise_impersonation | keeps_builder ].
Qed.

Lemma keeps_begin v mode b md t db iu h :
  keeps (begin v mode b md t db iu h).
Proof.
  destruct v; unfold begin, begin_4x0, begin_4x4, begin_5x0;
    repeat first [ apply keeps_raise_impersonation | keeps_builder ].
Qed.

Lemma keeps_pull n qid h : keeps (pull n qid h).
Proof. unfold pull. keeps_builder. Qed.

Lemma keeps_discard n qid h : keeps (discard n qid h).
Proof. unfold discard. keeps_builder. Qed.

Lemma keeps_commit h : keeps (commit h).
Proof. unfold commit. keeps_builder. Qed.

Lemma keeps_rollback h : keeps (rollback h).
Proof. unfold rollback. keeps_builder. Qed.

Lemma keeps_goodbye : keeps goodbye.
Proof. unfold goodbye. keeps_builder. Qed.

Lemma keeps_route v d iu b : keeps (route v d iu b).
Proof.
  destruct v; unfold route, route_5x0, route_4x0, route_4x3, route_4x4;
    repeat first [ apply keeps_raise_impersonation | apply keeps_run
                 | apply keeps_pull | keeps_builder ].
Qed.

Lemma keeps_on_failure r md : keeps (on_failure reset r md).
Proof.
  unfold on_failure, Response_on_failure, InitResponse_on_failure,
    raise_hydrated.
  keeps_builder.
Qed.

Lemma keeps_on_failure_except e : keeps (on_failure_except e).
Proof. unfold on_failure_except, pool_call. keeps_builder. Qed.

Lemma keeps_summary_dispatch signature r md :
  keeps (summary_dispatch signature r md).
Proof.
  unfold summary_dispatch, on_success, Response_on_success, on_ignored,
    Response_on_ignored.
  repeat first [ apply keeps_on_failure | apply keeps_on_failure_except
               | keeps_builder ].
Qed.

Lemma keeps_process_message details signature metadata :
  keeps (_process_message details signature metadata).
Proof.
  unfold _process_message. apply keeps_bind.
  { unfold on_records, Response_on_records. keeps_builder. }
  intros _. destruct signature as [sig |]; [| apply keeps_ret].
  intros [c u] H. unfold bind at 1. unfold get_conn at 1. simpl.
  destruct (responses c) as [| hd rest] eqn:Hq; [exact H |].
  apply keeps_bind_at.
  { simpl. by apply fifo_pop. }
  intros _.
  repeat first [ apply keeps_summary_dispatch | keeps_builder ].
Qed.

Lemma step_fifo op s : fifo (fst s) -> fifo (fst (step op s)).
Proof.
  intros H. unfold step, discard_result. destruct op.
  - by apply keeps_run.
  - by apply keeps_begin.
  - by apply keeps_discard.
  - by apply keeps_pull.
  - by apply keeps_commit.
  - by apply keeps_rollback.
  - by apply keeps_reset.
  - by apply keeps_goodbye.
  - by apply keeps_route.
  - destruct (Inbox_next msg) as [[details signature] metadata].
    by apply keeps_process_message.
Qed.

Lemma steps_fifo ops s : fifo (fst s) -> fifo (fst (steps ops s)).
Proof.
  unfold steps. revert s.
  induction ops as [| op ops IH]; intros s H; simpl; [exact H |].
  apply IH, step_fifo, H.
Qed.

End Fifo.

Section QueueDiscipline.

Context {U : Type} `{!Env U}.

(** C2, as amended.  A RECORD (tag [0x71]) that carries at least one field
    is handed to [on_records] of the response at the head of the queue,
    which stays at the head; a RECORD without a field runs no callback and
    changes nothing, whatever the queue: the code tests [if details:].
    On any other reply
    the head is popped and its [complete] flag is set in the connection the
    callbacks of the summary then run on: [on_success] after the state
    transition, [on_ignored], or [on_failure] under the pool dispatch.
    Hence, the socket layer keeping the discipline, after any run of
    requests and replies on a new connection the i-th reference popped is
    the i-th reference enqueued. *)
Theorem process_message_queue_discipline :
  (forall values more c (u : U) ref rest r,
     let msg := mkMessage 113 (values :: more) in
     responses c = Some ref :: rest -> heap c !! ref = Some r ->
     exists res c' u',
       on_records r (VList (fields msg)) (c, u) = (res, (c', u')) /\
       (let '(details, signature, metadata) := Inbox_next msg in
        _process_message details signature (option_value metadata) (c, u))
       = (match res with
          | Ok _ => Ok (length (fields msg), 0%nat)
          | Raise e => Raise e
          end, (c', u')) /\
       responses c' = Some ref :: rest /\
       heap c' = heap c /\
       popped c' = popped c) /\
  (forall c (u : U),
     let msg := mkMessage 113 [] in
     (let '(details, signature, metadata) := Inbox_next msg in
      _process_message details signature (option_value metadata) (c, u))
     = (Ok (0%nat, 0%nat), (c, u))) /\
  (forall msg c (u : U) ref rest r,
     tag msg <> 113 ->
     responses c = Some ref :: rest -> heap c !! ref = Some r ->
     let c1 := after_pop c ref r rest in
     let response := set_complete r in
     responses c1 = rest /\
     popped c1 = (popped c ++ [Some ref])%list /\
     heap c1 !! ref = Some response /\
     complete response = true /\
     (let '(details, signature, metadata) := Inbox_next msg in
      _process_message details signature (option_value metadata) (c, u))
     = (summary_dispatch (tag msg) response
          (option_value (head (fields msg))) ;;;
        ret (0%nat, 1%nat)) (c1, u) /\
     (forall md,
        summary_dispatch 112 response md =
        (let! c := get_conn in
         let! s := lift (transition (server_state c) (message response) md) in
         modify (set_server_state s) ;;;
         on_success response (py_or md (VDict [])))) /\
     (forall md,
        summary_dispatch 126 response md =
        on_ignored response (py_or md (VDict []))) /\
     (forall md,
        summary_dispatch 127 response md =
        (modify (set_server_state FAILED) ;;;
         try_except (on_failure reset response (py_or md (VDict [])))
           on_failure_except))) /\
  (@keeps U unit send_all -> @keeps U unit fetch_all ->
   forall ops v has_pool address ctx (u : U) i x,
     let c := fst (steps ops (new_conn v has_pool address ctx, u)) in
     popped c !! i = Some x -> enqueued c !! i = Some x).
Proof.
  split; [| split; [| split]].
  - intros values more c u ref rest r msg Hq Hh.
    rewrite (Inbox_next_record msg eq_refl). simpl.
    rewrite (process_record _ _ _ _ _ _ _ Hq Hh). unfold bind.
    destruct (on_records r (VList (values :: more)) (c, u))
      as [res [c' u']] eqn:E.
    exists res, c', u'. split; [reflexivity |].
    apply on_records_conn in E.
    split; [by destruct res |].
    rewrite E. simpl. auto.
  - intros c u msg. reflexivity.
  - intros msg c u ref rest r Ht Hq Hh c1 response.
    rewrite (Inbox_next_summary _ Ht).
    split; [reflexivity |]. split; [reflexivity |].
    split; [| split; [reflexivity |]].
    { unfold c1, after_pop. simpl. apply list_lookup_insert_eq.
      by eapply lookup_lt_Some. }
    split; [| repeat split].
    exact (process_summary _ _ _ _ _ _ _ Hq Hh).
  - intros Hsend Hfetch ops v has_pool address ctx u i x c Hp.
    assert (fifo c) as Hc.
    { apply (steps_fifo Hsend Hfetch). reflexivity. }
    unfold fifo in Hc. rewrite Hc. by apply lookup_app_l_Some.
Qed.

End QueueDiscipline.

(** Scenario S2 on a new connection: RUN and PULL are appended; the
    replies are SUCCESS, a RECORD and SUCCESS.  A RECORD without a field in
    reply to the pending [pull] leaves the counter of callback calls at
    zero. *)
Lemma process_message_queue_discipline_witness :
  let record := mkMessage 113 [VList [VInt 1]] in
  let success := mkMessage 112 [VDict [("has_more", VBool false)]] in
  let run_response := mkResponse Response_ [] "run" false in
  let ops :=
    [OpRun (VStr "RETURN 1 AS n") VNone VNone VNone VNone VNone VNone VNone [];
     OpPull (VInt (-1)) (VInt (-1)) [("on_records", HUser 0)];
     OpProcess success; OpProcess record; OpProcess success] in
  (exists res c' u',
     @step nat idle_env (OpProcess record) pending_run = (c', u') /\
     @on_records nat idle_env run_response (VList [VList [VInt 1]])
       pending_run = (res, (c', u')) /\
     responses c' = [Some 0%nat]) /\
  @_process_message nat idle_env [] None VNone pending_pull
  = (Ok (0%nat, 0%nat), pending_pull) /\
  (let c1 := after_pop (fst pending_run) 0 run_response [] in
   responses c1 = [] /\
   heap c1 !! 0%nat = Some (set_complete run_response) /\
   @step nat idle_env (OpProcess success) pending_run =
     snd ((@summary_dispatch nat idle_env 112 (set_complete run_response)
             (VDict [("has_more", VBool false)]) ;;;
           ret (0%nat, 1%nat)) (c1, 0%nat))) /\
  (let c := fst (@steps nat idle_env ops
                   (new_conn Bolt5x0 true (VStr "host:7687") VNone, 0%nat)) in
   popped c = [Some 0%nat; Some 1%nat] /\
   enqueued c !! 0%nat = Some (Some 0%nat) /\
   enqueued c !! 1%nat = Some (Some 1%nat)).
Proof.
  intros record success run_response ops.
  pose proof (@process_message_queue_discipline nat idle_env)
    as (Hrecord & Hempty & Hsummary & Hfifo).
  split; [| split; [| split]].
  - destruct (Hrecord (VList [VInt 1]) [] (fst pending_run) (snd pending_run)
                0%nat [] run_response eq_refl eq_refl)
      as (res & c' & u' & Hon & Hpm & Hq & _).
    exists res, c', u'. split; [| split; [exact Hon | exact Hq]].
    exact (f_equal snd Hpm).
  - exact (Hempty (fst pending_pull) (snd pending_pull)).
  - destruct (Hsummary success (fst pending_run) (snd pending_run) 0%nat []
                run_response ltac:(discriminate) eq_refl eq_refl)
      as (Hq & _ & Hh & _ & Hpm & _).
    split; [exact Hq |]. split; [exact Hh |].
    exact (f_equal snd Hpm).
  - split; [reflexivity |].
    split; apply (Hfifo (fun s H => H) (fun s H => H)); reflexivity.
Defined.

(** The specification's word for a RECORD fails on the code: a RECORD
    without a field, in reply to the pending [pull], skips the [on_records]
    callback of the head, which a call of it would have counted. *)
Lemma record_spec_fails : ~ @record_spec nat idle_env.
Proof.
  intros H.
  specialize (H (mkMessage 113 []) (fst pending_pull) (snd pending_pull)
                0%nat []
                (mkResponse Response_ [("on_records", HUser 0)] "pull" false)
                eq_refl eq_refl eq_refl).
  apply (f_equal snd) in H. vm_compute in H. discriminate H.
Qed.

(** * Further properties *)

(** ** The outbox: chunked framing *)

Lemma clamp_nat (len k : nat) :
  clamp (Z.of_nat len) (Z.of_nat k) = Nat.min k len.
Proof.
  unfold clamp. destruct (Z.ltb_spec (Z.of_nat k) 0); lia.
Qed.

Lemma clamp_0 (len : nat) : clamp (Z.of_nat len) 0 = 0%nat.
Proof. apply (clamp_nat len 0). Qed.

(** Assignment to the slice that starts after [pre] and spans [k]
    positions. *)
Lemma setslice_at (pre rest bs : list Z) (k : nat) (i j : Z) :
  i = Z.of_nat (length pre) ->
  j = i + Z.of_nat k ->
  setslice (pre ++ rest) i j bs = (pre ++ bs ++ drop k rest)%list.
Proof.
  intros -> ->. unfold setslice.
  replace (Z.of_nat (length pre) + Z.of_nat k)
    with (Z.of_nat (length pre + k)) by lia.
  rewrite !clamp_nat, length_app.
  replace (Nat.min (length pre) (length pre + length rest))
    with (length pre) by lia.
  rewrite take_app_length. f_equal. f_equal.
  destruct (Nat.le_ge_cases k (length rest)).
  - replace (Nat.max _ _) with (length pre + k)%nat by lia.
    by rewrite drop_app_add.
  - replace (Nat.max _ _) with (length pre + length rest)%nat by lia.
    rewrite drop_app_add, drop_all. by rewrite drop_ge.
Qed.

Lemma prefix_slice_at (pre rest : list Z) (j : Z) :
  j = Z.of_nat (length pre) -> prefix_slice (pre ++ rest) j = pre.
Proof.
  intros ->. unfold prefix_slice. rewrite clamp_nat, length_app.
  replace (Nat.min _ _) with (length pre) by lia.
  apply take_app_length.
Qed.

Lemma prefix_slice_nat (l : list Z) (j : Z) :
  0 <= j -> prefix_slice l j = take (Z.to_nat j) l.
Proof.
  intros H. unfold prefix_slice.
  replace j with (Z.of_nat (Z.to_nat j)) at 1 by lia.
  rewrite clamp_nat.
  destruct (Nat.le_ge_cases (Z.to_nat j) (length l)).
  - f_equal. lia.
  - rewrite !take_ge by lia. reflexivity.
Qed.

Lemma getslice_at (b : list Z) (pos w : nat) :
  (pos + w <= length b)%nat ->
  getslice b (Z.of_nat pos) (Z.of_nat pos + Z.of_nat w) = take w (drop pos b).
Proof.
  intros H. unfold getslice.
  replace (Z.of_nat pos + Z.of_nat w) with (Z.of_nat (pos + w)) by lia.
  rewrite !clamp_nat. f_equal. lia. f_equal. lia.
Qed.

Lemma length_frame p : length (frame p) = S (S (length p)).
Proof. reflexivity. Qed.

Lemma frames_app ps qs : frames (ps ++ qs) = (frames ps ++ frames qs)%list.
Proof. unfold frames. by rewrite fmap_app, concat_app. Qed.

Lemma frames_cons p ps : frames (p :: ps) = (frame p ++ frames ps)%list.
Proof. reflexivity. Qed.

Lemma frames_singleton p : frames [p] = frame p.
Proof. unfold frames. simpl. by rewrite app_nil_r. Qed.

(** What [view] shows of a framed outbox: the closed chunks, and the open
    one unless it is empty. *)
Lemma view_framed o closed cur :
  framed o closed cur ->
  view o = (closed ++ match cur with [] => [] | _ => frame cur end)%list.
Proof.
  intros (rest & Hd & Hh & Hs & He & _). unfold view.
  replace (_end o - _start o) with (Z.of_nat (length cur)) by lia.
  destruct cur as [| x cur]; simpl Z.eqb; cbv iota.
  - rewrite Hd, app_nil_r. by apply prefix_slice_at.
  - replace (Z.of_nat (length (x :: cur)) =? 0) with false
      by (symmetry; apply Z.eqb_neq; simpl; lia).
    rewrite Hd, app_assoc. apply prefix_slice_at.
    rewrite length_app, length_frame. lia.
Qed.

(** [chunk] closes the open chunk and opens an empty one. *)
Lemma chunk_framed o closed cur :
  framed o closed cur -> framed (chunk o) (closed ++ frame cur) [].
Proof.
  intros (rest & Hd & Hh & Hs & He & Hc).
  exists (drop 2 rest). unfold chunk. simpl. repeat split.
  - rewrite Hd.
    replace (closed ++ frame cur ++ rest)%list
      with ((closed ++ frame cur) ++ rest)%list by by rewrite app_assoc.
    rewrite (setslice_at _ rest [0; 0] 2).
    + reflexivity.
    + rewrite length_app, length_frame. lia.
    + lia.
  - rewrite length_app, length_frame. lia.
  - lia.
  - lia.
Qed.

(** An outbox at the start of a chunk is framed, with all of its view
    closed. *)
Lemma at_chunk_start_framed o :
  at_chunk_start o -> 0 <= _max_chunk_size o -> framed o (view o) [].
Proof.
  intros (Hh & Hs & He & Hz) Hmax.
  assert (Hv : view o = take (Z.to_nat (_header o)) (_data o)
               /\ (Z.to_nat (_header o) + 2 <= length (_data o))%nat
               /\ take 2 (drop (Z.to_nat (_header o)) (_data o)) = [0; 0]).
  { unfold view. rewrite He, Z.sub_diag. simpl. unfold prefix_slice.
    unfold getslice in Hz. rewrite Hs in Hz.
    replace (_header o) with (Z.of_nat (Z.to_nat (_header o))) in Hz at 1 2 3
      by lia.
    replace (Z.of_nat (Z.to_nat (_header o)) + 2)
      with (Z.of_nat (Z.to_nat (_header o) + 2)) in Hz by lia.
    rewrite !clamp_nat in Hz.
    assert (Hl : (Z.to_nat (_header o) + 2 <= length (_data o))%nat).
    { apply (f_equal length) in Hz.
      rewrite length_take, length_drop in Hz. simpl in Hz. lia. }
    replace (_header o) with (Z.of_nat (Z.to_nat (_header o))) at 1 by lia.
    rewrite clamp_nat. split; [f_equal; lia |]. split; [exact Hl |].
    rewrite <- Hz. f_equal; [lia | f_equal; lia]. }
  destruct Hv as (Hv & Hl & Hz2).
  exists (drop (Z.to_nat (_header o) + 2) (_data o)). repeat split.
  - rewrite Hv. change (frame []) with [0; 0]. rewrite <- Hz2.
    rewrite <- drop_drop, (take_drop 2), take_drop. reflexivity.
  - rewrite Hv, length_take. lia.
  - exact Hs.
  - simpl. lia.
  - simpl. lia.
Qed.

Lemma getslice_mid (pre mid rest : list Z) (i j : Z) :
  i = Z.of_nat (length pre) ->
  j = i + Z.of_nat (length mid) ->
  getslice (pre ++ mid ++ rest) i j = mid.
Proof.
  intros -> ->. unfold getslice.
  replace (Z.of_nat (length pre) + Z.of_nat (length mid))
    with (Z.of_nat (length pre + length mid)) by lia.
  rewrite !clamp_nat, !length_app.
  replace (Nat.min (length pre) _) with (length pre) by lia.
  replace (Nat.min (length pre + length mid) _)
    with (length pre + length mid)%nat by lia.
  rewrite drop_app_length.
  replace (length pre + length mid - length pre)%nat with (length mid)
    by lia.
  apply take_app_length.
Qed.

Lemma framed_at_chunk_start o closed :
  framed o closed [] -> at_chunk_start o.
Proof.
  intros (rest & Hd & Hh & Hs & He & _). repeat split.
  - lia.
  - exact Hs.
  - simpl in He. lia.
  - rewrite Hd. apply getslice_mid; simpl; lia.
Qed.

(** One iteration of [write] that copies [bs] into the open chunk. *)
Lemma append_framed o closed cur (bs : list Z) :
  framed o closed cur ->
  Z.of_nat (length cur) + Z.of_nat (length bs) <= _max_chunk_size o ->
  framed (mkOutbox (_max_chunk_size o) (_header o) (_start o)
            (_end o + Z.of_nat (length bs))
            (setslice
               (setslice (_data o) (_end o)
                  (_end o + Z.of_nat (length bs)) bs)
               (_header o) (_header o + 2)
               (u16 (_end o + Z.of_nat (length bs) - _start o))))
    closed (cur ++ bs).
Proof.
  intros (rest & Hd & Hh & Hs & He & Hc) Hfit.
  exists (drop (length bs) rest).
  cbn [_data _header _start _end _max_chunk_size].
  repeat split; try assumption; try (rewrite length_app; lia).
  rewrite Hd.
  replace (closed ++ frame cur ++ rest)%list
    with ((closed ++ frame cur) ++ rest)%list by by rewrite app_assoc.
  rewrite (setslice_at _ rest bs (length bs)); cycle 1.
  { rewrite length_app, length_frame. lia. }
  { reflexivity. }
  unfold frame at 1. rewrite <- !app_assoc.
  rewrite (setslice_at closed _ _ 2); [| lia | lia].
  unfold u16 at 2. cbn [drop app]. unfold frame. rewrite length_app.
  replace (_end o + Z.of_nat (length bs) - _start o)
    with (Z.of_nat (length cur + length bs)) by lia.
  by rewrite <- !app_assoc.
Qed.

Lemma struct_pack_H_u16 n :
  0 <= n <= 65535 -> struct_pack_H n = Ok (u16 n).
Proof.
  intros H. unfold struct_pack_H.
  destruct (Z.leb_spec 0 n); [| lia].
  destruct (Z.leb_spec n 65535); [| lia]. reflexivity.
Qed.

(** An iteration of [write] that takes the copying branch: it moves
    [min to_write remaining] bytes of [b] into the open chunk. *)
Lemma write_loop_copy f o b (pos n : nat) closed cur :
  framed o closed cur ->
  _max_chunk_size o <= 65535 ->
  (pos + n = length b)%nat ->
  (0 < n)%nat ->
  Z.of_nat (length cur) < _max_chunk_size o ->
  ~ (_max_chunk_size o - Z.of_nat (length cur) < Z.of_nat n
     /\ Z.of_nat n <= _max_chunk_size o) ->
  let w := Nat.min n (Z.to_nat (_max_chunk_size o - Z.of_nat (length cur))) in
  exists o2,
    write_loop (S f) o b (Z.of_nat pos) (Z.of_nat n)
    = write_loop f o2 b (Z.of_nat (pos + w)) (Z.of_nat (n - w)) /\
    framed o2 closed (cur ++ take w (drop pos b)) /\
    _max_chunk_size o2 = _max_chunk_size o.
Proof.
  intros Hfr Hmax Hpos Hn Hroom Hcond w.
  pose proof Hfr as (rest & Hd & Hh & Hs & He & Hc).
  assert (Hw : (0 < w <= n)%nat) by (unfold w; lia).
  assert (Hlen : length (take w (drop pos b)) = w).
  { rewrite length_take, length_drop. lia. }
  exists (mkOutbox (_max_chunk_size o) (_header o) (_start o)
            (_end o + Z.of_nat w)
            (setslice
               (setslice (_data o) (_end o) (_end o + Z.of_nat w)
                  (take w (drop pos b)))
               (_header o) (_header o + 2)
               (u16 (_end o + Z.of_nat w - _start o)))).
  split; [| split].
  - cbn [write_loop].
    destruct (Z.leb_spec (Z.of_nat n) 0); [lia |].
    replace (_end o - _start o) with (Z.of_nat (length cur)) by lia.
    destruct (Z.eqb_spec (_max_chunk_size o - Z.of_nat (length cur)) 0);
      [lia |].
    cbn [orb].
    destruct (Z.ltb_spec (_max_chunk_size o - Z.of_nat (length cur))
                (Z.of_nat n));
      destruct (Z.leb_spec (Z.of_nat n) (_max_chunk_size o));
      cbn [andb]; try (exfalso; apply Hcond; lia).
    all: replace (Z.min (Z.of_nat n)
                    (_max_chunk_size o - Z.of_nat (length cur)))
           with (Z.of_nat w) by (unfold w; lia).
    all: rewrite struct_pack_H_u16 by lia.
    all: rewrite getslice_at by lia.
    all: replace (Z.of_nat pos + Z.of_nat w) with (Z.of_nat (pos + w)) by lia.
    all: replace (Z.of_nat n - Z.of_nat w) with (Z.of_nat (n - w)) by lia.
    all: reflexivity.
  - pose proof (append_framed o closed cur (take w (drop pos b)) Hfr) as H.
    rewrite Hlen in H. apply H. unfold w. lia.
  - reflexivity.
Qed.

(** An iteration of [write] that takes the branch of [chunk]. *)
Lemma write_loop_chunk f o b (pos n : nat) closed cur :
  framed o closed cur ->
  (0 < n)%nat ->
  (Z.of_nat (length cur) = _max_chunk_size o
   \/ (_max_chunk_size o - Z.of_nat (length cur) < Z.of_nat n
       /\ Z.of_nat n <= _max_chunk_size o)) ->
  write_loop (S f) o b (Z.of_nat pos) (Z.of_nat n)
  = write_loop f (chunk o) b (Z.of_nat pos) (Z.of_nat n).
Proof.
  intros (rest & Hd & Hh & Hs & He & Hc) Hn Hcond.
  cbn [write_loop].
  destruct (Z.leb_spec (Z.of_nat n) 0); [lia |].
  replace (_end o - _start o) with (Z.of_nat (length cur)) by lia.
  destruct (Z.eqb_spec (_max_chunk_size o - Z.of_nat (length cur)) 0);
    [reflexivity |].
  destruct (Z.ltb_spec (_max_chunk_size o - Z.of_nat (length cur))
              (Z.of_nat n));
    destruct (Z.leb_spec (Z.of_nat n) (_max_chunk_size o));
    cbn [orb andb]; first [reflexivity | lia].
Qed.

Lemma write_loop_done0 fuel o b pos :
  write_loop fuel o b pos 0 = Some (Ok tt, o).
Proof. by destruct fuel. Qed.

Lemma write_loop_done fuel o b pos :
  write_loop fuel o b pos (Z.of_nat 0) = Some (Ok tt, o).
Proof. by destruct fuel. Qed.

(** [write] ends, keeps the framing, closes only chunks that are not empty
    and within the maximal size, and stores the bytes of [b] in order. *)
Lemma write_loop_framed (N : nat) :
  forall (n fuel : nat) o b (pos : nat) closed cur,
    (n <= N)%nat ->
    0 < _max_chunk_size o <= 65535 ->
    framed o closed cur ->
    (pos + n = length b)%nat ->
    (2 * n <= fuel)%nat ->
    exists o' extra cur',
      write_loop fuel o b (Z.of_nat pos) (Z.of_nat n) = Some (Ok tt, o') /\
      framed o' (closed ++ frames extra) cur' /\
      _max_chunk_size o' = _max_chunk_size o /\
      (concat extra ++ cur' = cur ++ drop pos b)%list /\
      Forall (data_chunk (_max_chunk_size o)) extra /\
      ((0 < n)%nat -> cur' <> []).
Proof.
  induction N as [| N IH];
    intros n fuel o b pos closed cur HN Hmax Hfr Hpos Hfuel.
  - assert (n = 0)%nat as -> by lia.
    exists o, [], cur. rewrite write_loop_done. repeat split.
    + by rewrite app_nil_r.
    + rewrite drop_ge by lia. by rewrite app_nil_r.
    + constructor.
    + lia.
  - destruct (Nat.eq_dec n 0%nat) as [-> | Hn0].
    { apply (IH 0%nat fuel o b pos closed cur); auto; lia. }
    assert (Hcopy : forall f o1 closed1 cur1,
      framed o1 closed1 cur1 ->
      _max_chunk_size o1 = _max_chunk_size o ->
      Z.of_nat (length cur1) < _max_chunk_size o1 ->
      ~ (_max_chunk_size o1 - Z.of_nat (length cur1) < Z.of_nat n
         /\ Z.of_nat n <= _max_chunk_size o1) ->
      (2 * n <= S (S f))%nat ->
      exists o' extra cur',
        write_loop (S f) o1 b (Z.of_nat pos) (Z.of_nat n) = Some (Ok tt, o') /\
        framed o' (closed1 ++ frames extra) cur' /\
        _max_chunk_size o' = _max_chunk_size o /\
        (concat extra ++ cur' = cur1 ++ drop pos b)%list /\
        Forall (data_chunk (_max_chunk_size o)) extra /\
        cur' <> []).
    { intros f o1 closed1 cur1 Hfr1 Hm1 Hroom Hcond Hf.
      destruct (write_loop_copy f o1 b pos n closed1 cur1)
        as (o2 & Heq & Hfr2 & Hm2); auto; try lia.
      set (w := Nat.min n (Z.to_nat (_max_chunk_size o1
                                      - Z.of_nat (length cur1)))) in *.
      assert (Hw : (0 < w <= n)%nat) by (unfold w; lia).
      destruct (IH (n - w)%nat f o2 b (pos + w)%nat closed1
                  (cur1 ++ take w (drop pos b))%list)
        as (o' & extra & cur' & Hrun & Hfr' & Hm' & Hcat & Hne & Hcur');
        auto; try lia.
      exists o', extra, cur'. repeat split; auto.
      - by rewrite Heq.
      - lia.
      - rewrite Hcat, <- app_assoc. f_equal.
        rewrite <- (take_drop w (drop pos b)) at 2.
        by rewrite drop_drop.
      - by rewrite <- Hm1, <- Hm2.
      - destruct (Nat.eq_dec (n - w)%nat 0%nat) as [Hz | Hz];
          [| apply Hcur'; lia].
        intros ->. destruct extra as [| p extra].
        + simpl in Hcat. symmetry in Hcat.
          apply app_eq_nil in Hcat as [Hcat _].
          apply app_eq_nil in Hcat as [_ Hcat].
          apply (f_equal length) in Hcat.
          rewrite length_take, length_drop in Hcat. simpl in Hcat. lia.
        + rewrite Hz, write_loop_done in Hrun. simplify_eq.
          destruct Hfr' as (rest' & _ & Hh' & _).
          destruct Hfr2 as (rest2 & _ & Hh2 & _).
          rewrite Hh2 in Hh'.
          rewrite length_app, frames_cons, length_app, length_frame in Hh'.
          lia. }
    destruct fuel as [| [| f]]; [lia | lia |].
    pose proof Hfr as (rest & Hd & Hh & Hs & He & Hc).
    assert (Hclose :
      cur <> [] ->
      (Z.of_nat (length cur) = _max_chunk_size o
       \/ (_max_chunk_size o - Z.of_nat (length cur) < Z.of_nat n
           /\ Z.of_nat n <= _max_chunk_size o)) ->
      exists o' extra cur',
        write_loop (S (S f)) o b (Z.of_nat pos) (Z.of_nat n)
        = Some (Ok tt, o') /\
        framed o' (closed ++ frames extra) cur' /\
        _max_chunk_size o' = _max_chunk_size o /\
        (concat extra ++ cur' = cur ++ drop pos b)%list /\
        Forall (data_chunk (_max_chunk_size o)) extra /\
        ((0 < n)%nat -> cur' <> [])).
    { intros Hcur Hcond.
      rewrite (write_loop_chunk (S f) o b pos n closed cur);
        [| exact Hfr | lia | exact Hcond].
      destruct (Hcopy f (chunk o) (closed ++ frame cur)%list [])
        as (o' & extra & cur' & Hrun & Hfr' & Hm' & Hcat & Hne & Hcur');
        [by apply chunk_framed | reflexivity | simpl; lia
        | simpl; lia | lia |].
      exists o', (cur :: extra), cur'. repeat split; auto.
      - rewrite frames_cons, app_assoc. exact Hfr'.
      - simpl. rewrite <- app_assoc. by rewrite Hcat.
      - constructor; [by split | exact Hne]. }
    destruct (Z_lt_le_dec (Z.of_nat (length cur)) (_max_chunk_size o))
      as [Hroom | Hfull].
    + destruct (Z_lt_le_dec (_max_chunk_size o - Z.of_nat (length cur))
                  (Z.of_nat n)) as [Hlt | Hge].
      * destruct (Z_le_gt_dec (Z.of_nat n) (_max_chunk_size o))
          as [Hle | Hgt].
        -- apply Hclose; [| right; lia].
           intros ->. simpl in Hlt. lia.
        -- destruct (Hcopy (S f) o closed cur)
             as (o' & extra & cur' & Hrun & Hfr' & Hm' & Hcat & Hne & Hcur');
             [exact Hfr | reflexivity | lia | lia | lia |].
           exists o', extra, cur'. repeat split; auto.
      * destruct (Hcopy (S f) o closed cur)
          as (o' & extra & cur' & Hrun & Hfr' & Hm' & Hcat & Hne & Hcur');
          [exact Hfr | reflexivity | lia | lia | lia |].
        exists o', extra, cur'. repeat split; auto.
    + apply Hclose; [| left; lia].
      intros ->. simpl in Hfull. lia.
Qed.

Lemma split_every_fuel (k : nat) :
  (0 < k)%nat ->
  forall f1 f2 l,
    (length l <= f1)%nat -> (length l <= f2)%nat ->
    split_every f1 k l = split_every f2 k l.
Proof.
  intros Hk. induction f1 as [| f1 IH]; intros f2 l H1 H2.
  - destruct l; [| simpl in H1; lia]. by destruct f2.
  - destruct l as [| x l]; [by destruct f2 |].
    destruct f2 as [| f2]; [simpl in H2; lia |].
    cbn [split_every]. f_equal. apply IH.
    + rewrite length_drop. simpl in *. lia.
    + rewrite length_drop. simpl in *. lia.
Qed.

Lemma concat_split_every (k : nat) :
  (0 < k)%nat ->
  forall f l, (length l <= f)%nat -> concat (split_every f k l) = l.
Proof.
  intros Hk. induction f as [| f IH]; intros l H.
  - destruct l; [reflexivity | simpl in H; lia].
  - destruct l as [| x l]; [reflexivity |].
    cbn [split_every concat]. rewrite IH.
    + apply take_drop.
    + rewrite length_drop. simpl in *. lia.
Qed.

Lemma Forall_split_every (k : nat) :
  (0 < k)%nat ->
  forall f l, Forall (data_chunk (Z.of_nat k)) (split_every f k l).
Proof.
  intros Hk. induction f as [| f IH]; intros l.
  - destruct l; constructor.
  - destruct l as [| x l]; [constructor |].
    cbn [split_every]. constructor; [| apply IH]. split.
    + destruct k; [lia | discriminate].
    + rewrite length_take. lia.
Qed.

(** Every piece but the last is full. *)
Lemma split_every_full (k : nat) :
  forall f l p q rest,
    split_every f k l = (p :: q :: rest)%list -> length p = k.
Proof.
  intros f l p q rest H.
  destruct f as [| f]; [by destruct l |].
  destruct l as [| x l]; [discriminate |].
  cbn [split_every] in H. injection H as <- H.
  rewrite length_take.
  destruct (Nat.le_gt_cases k (length (x :: l))) as [Hle | Hgt]; [lia |].
  rewrite drop_ge in H by lia. by destruct f.
Qed.

(** [write] at the start of a chunk cuts [b] into pieces of
    [max_chunk_size] bytes: all but the last are closed. *)
Lemma write_loop_pieces (N : nat) :
  forall (n fuel : nat) o b (pos : nat) closed,
    (n <= N)%nat ->
    0 < _max_chunk_size o <= 65535 ->
    framed o closed [] ->
    (pos + n = length b)%nat ->
    (2 * n <= fuel)%nat ->
    exists o' init last,
      write_loop fuel o b (Z.of_nat pos) (Z.of_nat n) = Some (Ok tt, o') /\
      framed o' (closed ++ frames init) last /\
      _max_chunk_size o' = _max_chunk_size o /\
      (init ++ match last with [] => [] | _ => [last] end)%list
      = split_every n (Z.to_nat (_max_chunk_size o)) (drop pos b).
Proof.
  induction N as [| N IH];
    intros n fuel o b pos closed HN Hmax Hfr Hpos Hfuel.
  - assert (n = 0)%nat as -> by lia.
    exists o, [], []. rewrite write_loop_done. repeat split.
    by rewrite app_nil_r.
  - destruct (Nat.eq_dec n 0%nat) as [-> | Hn0].
    { apply (IH 0%nat fuel o b pos closed); auto; lia. }
    destruct fuel as [| [| f]]; [lia | lia |].
    set (k := Z.to_nat (_max_chunk_size o)).
    assert (Hl : length (drop pos b) = n) by (rewrite length_drop; lia).
    destruct (write_loop_copy (S f) o b pos n closed [])
      as (o2 & Heq & Hfr2 & Hm2); auto; try (simpl; lia).
    rewrite Heq. simpl length in *. rewrite Z.sub_0_r in *.
    fold k in Heq, Hfr2 |- *. simpl app in Hfr2.
    destruct (Nat.le_gt_cases n k) as [Hle | Hgt].
    + replace (Nat.min n k) with n in * by lia.
      rewrite Nat.sub_diag, write_loop_done.
      exists o2, [], (drop pos b). repeat split.
      * rewrite app_nil_r. rewrite take_ge in Hfr2 by lia. exact Hfr2.
      * exact Hm2.
      * destruct n as [| n']; [lia |].
        destruct (drop pos b) as [| x l] eqn:E; [discriminate |].
        cbn [split_every app]. f_equal.
        { rewrite take_ge; [reflexivity | simpl in *; lia]. }
        rewrite drop_ge by (simpl in *; lia). by destruct n'.
    + replace (Nat.min n k) with k in * by lia.
      assert (Hlt : length (take k (drop pos b)) = k)
        by (rewrite length_take; lia).
      rewrite (write_loop_chunk f o2 b (pos + k) (n - k) closed
                 (take k (drop pos b)));
        [| exact Hfr2 | lia | left; rewrite Hlt; lia].
      destruct (IH (n - k)%nat f (chunk o2) b (pos + k)%nat
                  (closed ++ frame (take k (drop pos b)))%list)
        as (o' & init & last & Hrun & Hfr' & Hm' & Hsp);
        [lia | simpl; lia | by apply chunk_framed | lia | lia |].
      exists o', (take k (drop pos b) :: init), last. repeat split.
      * exact Hrun.
      * rewrite frames_cons, app_assoc. exact Hfr'.
      * simpl in Hm'. lia.
      * simpl in Hsp. rewrite Hm2 in Hsp. fold k in Hsp.
        destruct n as [| n']; [lia |].
        destruct (drop pos b) as [| x l] eqn:E; [simpl in Hl; lia |].
        cbn [split_every]. rewrite <- app_comm_cons. f_equal.
        rewrite Hsp, <- E, drop_drop.
        apply split_every_fuel; [lia | |]; rewrite length_drop; lia.
Qed.

(** A write that fits a chunk goes to the open chunk if there is room for
    all of it, and to a new chunk otherwise. *)
Lemma write_fitting o b fuel closed cur :
  0 < _max_chunk_size o <= 65535 ->
  framed o closed cur ->
  b <> [] ->
  Z.of_nat (length b) <= _max_chunk_size o ->
  (2 <= fuel)%nat ->
  exists o',
    write fuel o b = Some (Ok tt, o') /\
    _max_chunk_size o' = _max_chunk_size o /\
    if Z.of_nat (length cur) + Z.of_nat (length b) <=? _max_chunk_size o
    then framed o' closed (cur ++ b)
    else framed o' (closed ++ frame cur) b.
Proof.
  intros Hmax Hfr Hb Hfit Hfuel.
  destruct fuel as [| [| f]]; [lia | lia |].
  assert (Hn : (0 < length b)%nat) by (destruct b; simpl; [done | lia]).
  pose proof Hfr as (rest & Hd & Hh & Hs & He & Hc).
  unfold write. change 0 with (Z.of_nat 0).
  destruct (Z.leb_spec (Z.of_nat (length cur) + Z.of_nat (length b))
              (_max_chunk_size o)) as [Hroom | Hno].
  - destruct (write_loop_copy (S f) o b 0 (length b) closed cur)
      as (o2 & Heq & Hfr2 & Hm2); auto; try lia.
    replace (Nat.min _ _) with (length b) in * by lia.
    rewrite Heq, Nat.sub_diag, write_loop_done.
    exists o2. repeat split; [exact Hm2 |].
    rewrite drop_0, take_ge in Hfr2 by lia. exact Hfr2.
  - rewrite (write_loop_chunk (S f) o b 0 (length b) closed cur);
      [| exact Hfr | lia | lia].
    destruct (write_loop_copy f (chunk o) b 0 (length b)
                (closed ++ frame cur)%list [])
      as (o2 & Heq & Hfr2 & Hm2);
      [by apply chunk_framed | simpl; lia | lia | lia | simpl; lia
      | simpl; lia |].
    simpl length in *. simpl _max_chunk_size in *.
    replace (Nat.min _ _) with (length b) in * by lia.
    rewrite Heq, Nat.sub_diag, write_loop_done.
    exists o2. repeat split; [exact Hm2 |].
    rewrite drop_0, take_ge in Hfr2 by lia. exact Hfr2.
Qed.

Lemma split_every_all_full (k : nat) :
  forall ps f l p q qs,
    split_every f k l = (ps ++ p :: q :: qs)%list -> length p = k.
Proof.
  induction ps as [| x ps IH]; intros f l p q qs H.
  - by apply (split_every_full k f l p q qs).
  - destruct f as [| f]; [by destruct l |].
    destruct l as [| y l]; [discriminate |].
    cbn [split_every] in H. rewrite <- app_comm_cons in H.
    injection H as _ H. exact (IH _ _ _ _ _ H).
Qed.

(** The view and the next state do not depend on the maximal chunk size of
    an outbox at the start of a chunk. *)
Lemma at_chunk_start_chunk o :
  at_chunk_start o ->
  view (chunk o) = (view o ++ [0; 0])%list /\ at_chunk_start (chunk o).
Proof.
  intros H.
  set (o0 := mkOutbox 0 (_header o) (_start o) (_end o) (_data o)).
  assert (Hfr : framed o0 (view o) []).
  { apply (at_chunk_start_framed o0); [exact H | reflexivity]. }
  apply chunk_framed in Hfr. split.
  - change (view (chunk o)) with (view (chunk o0)).
    rewrite (view_framed _ _ _ Hfr). by rewrite app_nil_r.
  - apply (framed_at_chunk_start _ _ Hfr).
Qed.

Lemma setslice_beyond (l bs : list Z) (i j : Z) :
  Z.of_nat (length l) <= i -> i <= j -> setslice l i j bs = (l ++ bs)%list.
Proof.
  intros Hi Hj. unfold setslice.
  replace i with (Z.of_nat (Z.to_nat i)) by lia.
  replace j with (Z.of_nat (Z.to_nat j)) by lia.
  rewrite !clamp_nat.
  rewrite take_ge by lia. rewrite drop_ge by lia. by rewrite app_nil_r.
Qed.

(** The invariant of a client that calls [write] and [chunk]. *)
Lemma calls_framed (cs : list Call) :
  forall o fuel v0 done cur,
    0 < _max_chunk_size o <= 65535 ->
    framed o (v0 ++ frames done) cur ->
    Forall (fun p => Z.of_nat (length p) <= _max_chunk_size o) done ->
    (2 * longest cs <= fuel)%nat ->
    exists o' done' cur',
      calls fuel cs o = Some (Ok tt, o') /\
      framed o' (v0 ++ frames done') cur' /\
      _max_chunk_size o' = _max_chunk_size o /\
      (concat done' ++ cur' = concat done ++ cur ++ written cs)%list /\
      Forall (fun p => Z.of_nat (length p) <= _max_chunk_size o) done'.
Proof.
  induction cs as [| c cs IH]; intros o fuel v0 done cur Hmax Hfr Hdone Hfuel.
  - exists o, done, cur. repeat split; auto.
    unfold written. simpl. by rewrite app_nil_r.
  - destruct c as [b |].
    + cbn [longest foldr] in Hfuel. fold (longest cs) in Hfuel.
      destruct (write_loop_framed (length b) (length b) fuel o b 0
                  (v0 ++ frames done)%list cur)
        as (o1 & extra & cur1 & Hrun & Hfr1 & Hm1 & Hcat & Hex & _);
        auto; try lia.
      destruct (IH o1 fuel v0 (done ++ extra)%list cur1)
        as (o' & done' & cur' & Hrun' & Hfr' & Hm' & Hcat' & Hd');
        try lia.
      * rewrite frames_app, app_assoc. exact Hfr1.
      * rewrite Hm1. apply Forall_app. split; [exact Hdone |].
        eapply Forall_impl; [exact Hex |]. by intros p [_ Hp].
      * exists o', done', cur'. repeat split.
        -- cbn [calls]. unfold write. change 0 with (Z.of_nat 0).
           rewrite Hrun. exact Hrun'.
        -- exact Hfr'.
        -- lia.
        -- rewrite Hcat', concat_app, <- !app_assoc.
           f_equal. rewrite (app_assoc (concat extra)), Hcat.
           rewrite drop_0, <- app_assoc. reflexivity.
        -- by rewrite <- Hm1.
    + cbn [longest foldr] in Hfuel. fold (longest cs) in Hfuel.
      pose proof Hfr as (_ & _ & _ & _ & _ & Hc).
      destruct (IH (chunk o) fuel v0 (done ++ [cur])%list [])
        as (o' & done' & cur' & Hrun' & Hfr' & Hm' & Hcat' & Hd');
        try (simpl; lia).
      * rewrite frames_app, frames_singleton, app_assoc.
        by apply chunk_framed.
      * apply Forall_app. split; [exact Hdone |]. by apply Forall_singleton.
      * exists o', done', cur'. repeat split; auto.
        rewrite Hcat', concat_app. simpl.
        by rewrite !app_nil_r, <- !app_assoc.
Qed.

Lemma write_loop_stuck (b : list Z) (pos n : Z) :
  0 < n ->
  forall fuel o,
    _max_chunk_size o = 0 -> _end o = _start o ->
    write_loop fuel o b pos n = None.
Proof.
  intros Hn. induction fuel as [| fuel IH]; intros o Hmax Hend.
  - simpl. destruct (Z.leb_spec n 0); [lia | reflexivity].
  - cbn [write_loop]. destruct (Z.leb_spec n 0); [lia |].
    rewrite Hmax, Hend, Z.sub_diag. simpl. apply IH; [exact Hmax |].
    reflexivity.
Qed.


(** X6.  Outbox, [clear]: from any state whatever, [clear] leaves an empty view
    and an outbox at the start of a chunk, with the maximal chunk size
    unchanged. *)
Theorem clear_resets (o : Outbox) :
  view (clear o) = [] /\
  at_chunk_start (clear o) /\
  _max_chunk_size (clear o) = _max_chunk_size o.
Proof.
  assert (Hd : _data (clear o) = ([] ++ [0; 0] ++ drop 2 (_data o))%list).
  { unfold clear. cbn [_data]. apply (setslice_at [] (_data o) [0; 0] 2);
      reflexivity. }
  split; [| split].
  - unfold view. simpl. rewrite (setslice_at [] (_data o) [0; 0] 2)
      by reflexivity.
    unfold prefix_slice. by rewrite clamp_0.
  - repeat split; try done. rewrite Hd.
    apply (getslice_mid [] [0; 0]); reflexivity.
  - reflexivity.
Qed.

(** X1.  Outbox, [write] at the start of a chunk (after construction, [clear]
    or [chunk]), with a maximal chunk size that fits the two length bytes:
    the call ends and appends to the view the bytes of [b] cut into chunks
    of [max_chunk_size] bytes, each with its big-endian length in front;
    no chunk is empty, none exceeds the maximal size, and all but the last
    are full. *)
Theorem write_cuts_into_pieces (o : Outbox) (b : list Z) (fuel : nat) :
  0 < _max_chunk_size o <= 65535 ->
  at_chunk_start o ->
  (2 * length b <= fuel)%nat ->
  let ps := pieces (_max_chunk_size o) b in
  exists o',
    write fuel o b = Some (Ok tt, o') /\
    view o' = (view o ++ frames ps)%list /\
    concat ps = b /\
    Forall (data_chunk (_max_chunk_size o)) ps /\
    (forall qs p q rest,
        ps = (qs ++ p :: q :: rest)%list ->
        Z.of_nat (length p) = _max_chunk_size o).
Proof.
  intros Hmax Hstart Hfuel ps.
  assert (Hk : (0 < Z.to_nat (_max_chunk_size o))%nat) by lia.
  destruct (write_loop_pieces (length b) (length b) fuel o b 0 (view o))
    as (o' & init & last & Hrun & Hfr & _ & Hsp); auto; try lia.
  { apply at_chunk_start_framed; [exact Hstart | lia]. }
  rewrite drop_0 in Hsp. fold (pieces (_max_chunk_size o) b) in Hsp.
  fold ps in Hsp.
  exists o'. split; [exact Hrun |]. split; [| split; [| split]].
  - rewrite (view_framed _ _ _ Hfr), <- Hsp, frames_app, <- app_assoc.
    destruct last; [reflexivity |]. by rewrite frames_singleton.
  - apply concat_split_every; [exact Hk | lia].
  - replace (_max_chunk_size o)
      with (Z.of_nat (Z.to_nat (_max_chunk_size o))) at 1 by lia.
    by apply Forall_split_every.
  - intros qs p q rest Hps.
    rewrite (split_every_all_full _ qs _ _ p q rest Hps). lia.
Qed.

Lemma write_cuts_into_pieces_witness :
  exists o',
    write 20 (mkOutbox 4 0 2 2 [0; 0; 0; 0; 0; 0; 0; 0])
      [1; 2; 3; 4; 5; 6; 7; 8; 9; 10] = Some (Ok tt, o') /\
    view o' = [0; 4; 1; 2; 3; 4; 0; 4; 5; 6; 7; 8; 0; 2; 9; 10].
Proof.
  destruct (write_cuts_into_pieces (mkOutbox 4 0 2 2 [0; 0; 0; 0; 0; 0; 0; 0])
              [1; 2; 3; 4; 5; 6; 7; 8; 9; 10] 20)
    as (o' & Hw & Hv & _).
  - simpl. lia.
  - repeat split; simpl; lia.
  - simpl. lia.
  - exists o'. split; [exact Hw | exact Hv].
Defined.

(** X2.  Outbox, two consecutive calls of [write] with data that fits a chunk,
    from the start of a chunk and with a maximal chunk size from 1 to 65535:
    the second call never splits its data.  It shares the chunk of the
    first when both fit together, and starts a new chunk otherwise, even
    though the open chunk had room for a part of it. *)
Theorem write_never_splits_fitting_data (o : Outbox) (b1 b2 : list Z)
    (fuel : nat) :
  0 < _max_chunk_size o <= 65535 ->
  at_chunk_start o ->
  Z.of_nat (length b1) <= _max_chunk_size o ->
  Z.of_nat (length b2) <= _max_chunk_size o ->
  b2 <> [] ->
  (2 <= fuel)%nat ->
  exists o1 o2,
    write fuel o b1 = Some (Ok tt, o1) /\
    write fuel o1 b2 = Some (Ok tt, o2) /\
    view o2 =
      (view o ++
       if Z.of_nat (length b1) + Z.of_nat (length b2) <=? _max_chunk_size o
       then frame (b1 ++ b2)
       else frame b1 ++ frame b2)%list.
Proof.
  intros Hmax Hstart H1 H2 Hb2 Hfuel.
  assert (Hfr : framed o (view o) [])
    by (apply at_chunk_start_framed; [exact Hstart | lia]).
  assert (Hfirst : exists o1,
            write fuel o b1 = Some (Ok tt, o1) /\
            _max_chunk_size o1 = _max_chunk_size o /\
            framed o1 (view o) b1).
  { destruct b1 as [| x b1].
    - exists o. unfold write. change 0 with (Z.of_nat 0) at 1.
      simpl length. by rewrite write_loop_done.
    - destruct (write_fitting o (x :: b1) fuel (view o) [])
        as (o1 & Hw & Hm & Hf); auto.
      simpl length in Hf.
      destruct (Z.leb_spec (Z.of_nat 0 + Z.of_nat (S (length b1)))
                  (_max_chunk_size o)); [| simpl in H1; lia].
      exists o1. by repeat split. }
  destruct Hfirst as (o1 & Hw1 & Hm1 & Hfr1).
  destruct (write_fitting o1 b2 fuel (view o) b1)
    as (o2 & Hw2 & Hm2 & Hfr2); auto; try lia.
  exists o1, o2. split; [exact Hw1 |]. split; [exact Hw2 |].
  rewrite Hm1 in Hfr2.
  destruct (Z.leb_spec (Z.of_nat (length b1) + Z.of_nat (length b2))
              (_max_chunk_size o)).
  - rewrite (view_framed _ _ _ Hfr2).
    destruct (b1 ++ b2)%list eqn:E; [| reflexivity].
    apply app_eq_nil in E as [_ E]. contradiction.
  - rewrite (view_framed _ _ _ Hfr2), <- app_assoc.
    destruct b2; [contradiction | reflexivity].
Qed.

Lemma write_never_splits_fitting_data_witness :
  exists o1 o2,
    write 2 (mkOutbox 4 0 2 2 [0; 0; 0; 0; 0; 0; 0; 0]) [1; 2; 3]
      = Some (Ok tt, o1) /\
    write 2 o1 [7; 8] = Some (Ok tt, o2) /\
    view o2 = [0; 3; 1; 2; 3; 0; 2; 7; 8].
Proof.
  destruct (write_never_splits_fitting_data
              (mkOutbox 4 0 2 2 [0; 0; 0; 0; 0; 0; 0; 0]) [1; 2; 3] [7; 8] 2)
    as (o1 & o2 & H1 & H2 & Hv).
  - simpl. lia.
  - repeat split; simpl; lia.
  - simpl. lia.
  - simpl. lia.
  - discriminate.
  - lia.
  - exists o1, o2. split; [exact H1 |]. split; [exact H2 | exact Hv].
Defined.

(** X3.  Outbox, [chunk]: on an open chunk that holds data, its end within
    the buffer, it closes the chunk and leaves the view as it is; at the
    start of a chunk it appends the two zero bytes that end a message.
    Either way the outbox is at the start of a chunk afterwards. *)
Theorem chunk_view (o : Outbox) :
  (at_chunk_start o ->
   view (chunk o) = (view o ++ [0; 0])%list /\ at_chunk_start (chunk o)) /\
  (_end o <> _start o ->
   0 <= _end o <= Z.of_nat (length (_data o)) ->
   view (chunk o) = view o /\ at_chunk_start (chunk o)).
Proof.
  split; [apply at_chunk_start_chunk |].
  intros Hne Hend.
  assert (Hd : _data (chunk o)
               = (take (Z.to_nat (_end o)) (_data o) ++ [0; 0]
                  ++ drop 2 (drop (Z.to_nat (_end o)) (_data o)))%list).
  { unfold chunk. cbn [_data].
    rewrite <- (take_drop (Z.to_nat (_end o)) (_data o)) at 1.
    apply (setslice_at _ _ [0; 0] 2); [rewrite length_take; lia | lia]. }
  split.
  - unfold view at 1. cbn [_end _start _header chunk].
    fold (chunk o). rewrite Z.sub_diag. cbn [Z.eqb]. rewrite Hd.
    rewrite prefix_slice_at by (rewrite length_take; lia).
    unfold view. destruct (Z.eqb_spec (_end o - _start o) 0); [lia |].
    by rewrite prefix_slice_nat by lia.
  - repeat split; cbn [_header _start _end chunk]; try lia.
    fold (chunk o). rewrite Hd.
    apply (getslice_mid _ [0; 0]); [rewrite length_take; lia | simpl; lia].
Qed.

Lemma chunk_view_witness :
  view (chunk (mkOutbox 4 0 2 2 [0; 0; 7; 7])) = [0; 0] /\
  view (chunk (mkOutbox 4 0 2 3 [0; 1; 7; 7])) = [0; 1; 7].
Proof.
  split.
  - apply (proj1 (chunk_view (mkOutbox 4 0 2 2 [0; 0; 7; 7]))).
    repeat split; simpl; lia.
  - apply (proj2 (chunk_view (mkOutbox 4 0 2 3 [0; 1; 7; 7]))).
    + simpl. lia.
    + simpl. lia.
Defined.

(** X4.  Outbox, one message, from the start of a chunk and with a maximal
    chunk size from 1 to 65535: [write] of data that is not empty followed
    by two calls of [chunk] appends to the view the chunks of the data and
    then the end marker of two zero bytes, and leaves the outbox ready for
    the next message. *)
Theorem message_ends_with_zero_chunk (o : Outbox) (b : list Z)
    (fuel : nat) :
  0 < _max_chunk_size o <= 65535 ->
  at_chunk_start o ->
  b <> [] ->
  (2 * length b <= fuel)%nat ->
  exists o',
    write fuel o b = Some (Ok tt, o') /\
    view (chunk (chunk o'))
    = (view o ++ frames (pieces (_max_chunk_size o) b) ++ [0; 0])%list /\
    at_chunk_start (chunk (chunk o')) /\
    _max_chunk_size (chunk (chunk o')) = _max_chunk_size o.
Proof.
  intros Hmax Hstart Hb Hfuel.
  destruct (write_loop_pieces (length b) (length b) fuel o b 0 (view o))
    as (o' & init & last & Hrun & Hfr & Hm & Hsp); auto; try lia.
  { apply at_chunk_start_framed; [exact Hstart | lia]. }
  rewrite drop_0 in Hsp. fold (pieces (_max_chunk_size o) b) in Hsp.
  exists o'. split; [exact Hrun |].
  assert (Hlast : last <> []).
  { intros ->. rewrite app_nil_r in Hsp.
    destruct (write_loop_framed (length b) (length b) fuel o b 0 (view o) [])
      as (o2 & extra & cur2 & Hrun2 & Hfr2 & _ & _ & _ & Hcur); auto;
      try lia.
    { apply at_chunk_start_framed; [exact Hstart | lia]. }
    rewrite Hrun in Hrun2. simplify_eq.
    destruct cur2 as [| x cur2].
    - apply Hcur; [| reflexivity]. destruct b; simpl; [done | lia].
    - destruct Hfr as (r1 & _ & Hh1 & Hs1 & He1 & _).
      destruct Hfr2 as (r2 & _ & Hh2 & Hs2 & He2 & _).
      simpl in He1, He2. lia. }
  apply chunk_framed in Hfr.
  assert (Hclosed : ((view o ++ frames init) ++ frame last)%list
                    = (view o ++ frames (pieces (_max_chunk_size o) b))%list).
  { rewrite <- Hsp, frames_app, <- app_assoc.
    destruct last; [contradiction |]. by rewrite frames_singleton. }
  rewrite Hclosed in Hfr.
  destruct (at_chunk_start_chunk (chunk o')
              (framed_at_chunk_start _ _ Hfr)) as [Hv Hs].
  split; [| split; [exact Hs | exact Hm]].
  rewrite Hv, (view_framed _ _ _ Hfr). by rewrite app_nil_r, <- app_assoc.
Qed.

Lemma message_ends_with_zero_chunk_witness :
  exists o',
    write 10 (mkOutbox 4 0 2 2 [0; 0]) [1; 2; 3; 4; 5] = Some (Ok tt, o') /\
    view (chunk (chunk o')) = [0; 4; 1; 2; 3; 4; 0; 1; 5; 0; 0].
Proof.
  destruct (message_ends_with_zero_chunk (mkOutbox 4 0 2 2 [0; 0])
              [1; 2; 3; 4; 5] 10) as (o' & Hw & Hv & _).
  - simpl. lia.
  - repeat split; simpl; lia.
  - discriminate.
  - simpl. lia.
  - exists o'. split; [exact Hw | exact Hv].
Defined.

(** X5.  Outbox, any client: whatever sequence of [write] and [chunk] calls
    follows the start of a chunk, every call of [write] ends, the view grows
    by whole chunks only, no chunk exceeds the maximal chunk size, and the
    payloads of the chunks are the written bytes, in order and without loss
    or duplication. *)
Theorem calls_keep_framing (o : Outbox) (cs : list Call) (fuel : nat) :
  0 < _max_chunk_size o <= 65535 ->
  at_chunk_start o ->
  (2 * longest cs <= fuel)%nat ->
  exists o' payloads,
    calls fuel cs o = Some (Ok tt, o') /\
    view o' = (view o ++ frames payloads)%list /\
    concat payloads = written cs /\
    Forall (fun p => Z.of_nat (length p) <= _max_chunk_size o) payloads.
Proof.
  intros Hmax Hstart Hfuel.
  destruct (calls_framed cs o fuel (view o) [] [])
    as (o' & done' & cur' & Hrun & Hfr & Hm & Hcat & Hd); auto.
  { rewrite app_nil_r. apply at_chunk_start_framed; [exact Hstart | lia]. }
  pose proof Hfr as (_ & _ & _ & _ & _ & Hc). rewrite Hm in Hc.
  simpl in Hcat.
  exists o', (done' ++ match cur' with [] => [] | _ => [cur'] end)%list.
  split; [exact Hrun |]. split; [| split].
  - rewrite (view_framed _ _ _ Hfr), frames_app, <- app_assoc.
    destruct cur'; [reflexivity |]. by rewrite frames_singleton.
  - rewrite <- Hcat, concat_app. f_equal.
    destruct cur'; [reflexivity |]. simpl. by rewrite app_nil_r.
  - apply Forall_app. split; [exact Hd |].
    destruct cur'; [constructor |]. by apply Forall_singleton.
Qed.

Lemma calls_keep_framing_witness :
  exists o' payloads,
    calls 6 [CWrite [1; 2; 3]; CWrite [4; 5]; CChunk; CChunk; CWrite [6]]
      (mkOutbox 4 0 2 2 [0; 0]) = Some (Ok tt, o') /\
    view o' = frames payloads /\
    concat payloads = [1; 2; 3; 4; 5; 6].
Proof.
  destruct (calls_keep_framing (mkOutbox 4 0 2 2 [0; 0])
              [CWrite [1; 2; 3]; CWrite [4; 5]; CChunk; CChunk; CWrite [6]] 6)
    as (o' & payloads & Hr & Hv & Hc & _).
  - simpl. lia.
  - repeat split; simpl; lia.
  - simpl. lia.
  - exists o', payloads. split; [exact Hr |]. split; [exact Hv | exact Hc].
Defined.

(** X9.  Outbox, [write] with a maximal chunk size of zero: every iteration
    of the loop calls [chunk] and writes nothing, so no number of iterations
    ends the loop (memory is not bounded here; each [chunk] moves the
    cursors two bytes on). *)
Theorem write_never_ends_without_room (o : Outbox) (b : list Z) :
  _max_chunk_size o = 0 ->
  _end o = _start o ->
  b <> [] ->
  forall fuel, write fuel o b = None.
Proof.
  intros Hmax Hend Hb fuel. unfold write.
  apply write_loop_stuck; [| exact Hmax | exact Hend].
  destruct b; [contradiction | simpl; lia].
Qed.

Lemma write_never_ends_without_room_witness :
  write 1000 (mkOutbox 0 0 2 2 [0; 0]) [1] = None.
Proof.
  apply (write_never_ends_without_room (mkOutbox 0 0 2 2 [0; 0]) [1]);
    [reflexivity | reflexivity | discriminate].
Defined.

(** X10.  Outbox, [write] with a maximal chunk size above what two bytes can
    hold: a write of more than 65535 bytes at the start of a chunk raises
    [struct.error] in its first iteration, after it has copied the data and
    moved the end of the open chunk, and with the length bytes of the chunk
    not updated. *)
Theorem write_oversized_chunk (o : Outbox) (b : list Z) (fuel : nat) :
  65535 < _max_chunk_size o ->
  _end o = _start o ->
  65535 < Z.of_nat (length b) ->
  (1 <= fuel)%nat ->
  let wrote := Z.min (Z.of_nat (length b)) (_max_chunk_size o) in
  exists e o',
    write fuel o b = Some (Raise e, o') /\
    exc_class e = OtherException "struct.error" /\
    _end o' = _end o + wrote /\
    _data o' = setslice (_data o) (_end o) (_end o + wrote)
                 (getslice b 0 wrote).
Proof.
  intros Hmax Hend Hb Hfuel wrote.
  destruct fuel as [| f]; [lia |].
  unfold write. cbn [write_loop].
  destruct (Z.leb_spec (Z.of_nat (length b)) 0); [lia |].
  rewrite Hend, Z.sub_diag, Z.sub_0_r.
  destruct (Z.eqb_spec (_max_chunk_size o) 0); [lia |]. cbn [orb].
  replace ((_max_chunk_size o <? Z.of_nat (length b))
           && (Z.of_nat (length b) <=? _max_chunk_size o)) with false
    by (symmetry; apply andb_false_iff;
        destruct (Z.ltb_spec (_max_chunk_size o) (Z.of_nat (length b)));
        [right; apply Z.leb_gt; lia | by left]).
  fold wrote. unfold struct_pack_H.
  replace (_start o + wrote - _start o) with wrote by lia.
  replace (wrote <=? 65535) with false
    by (symmetry; apply Z.leb_gt; unfold wrote; lia).
  rewrite andb_false_r. do 2 eexists. by repeat split.
Qed.

Lemma write_oversized_chunk_witness :
  exists e o',
    write 1 (mkOutbox 65536 0 2 2 [0; 0]) (replicate (Z.to_nat 65536) 7)
      = Some (Raise e, o') /\
    exc_class e = OtherException "struct.error" /\
    _end o' = 65538.
Proof.
  destruct (write_oversized_chunk (mkOutbox 65536 0 2 2 [0; 0])
              (replicate (Z.to_nat 65536) 7) 1)
    as (e & o' & Hw & He & Hend & _).
  - simpl. lia.
  - reflexivity.
  - rewrite length_replicate. lia.
  - lia.
  - exists e, o'. split; [exact Hw |]. split; [exact He |].
    rewrite Hend, length_replicate. simpl _end. simpl _max_chunk_size. lia.
Defined.

(** X8.  Outbox, capacity below the two length bytes: on an outbox built with a
    capacity of 0, 1 or 2 and a maximal chunk size of 65535 at most, a first
    write of data that is not empty and fits a chunk shows the length of the
    data followed by the data without its first [2 - capacity] bytes; only
    a capacity of 2 keeps all of the data. *)
Theorem write_on_small_capacity (capacity max_chunk_size : Z) (b : list Z)
    (fuel : nat) (o : Outbox) :
  0 <= capacity <= 2 ->
  max_chunk_size <= 65535 ->
  b <> [] ->
  Z.of_nat (length b) <= max_chunk_size ->
  (1 <= fuel)%nat ->
  Outbox_init capacity max_chunk_size = Ok o ->
  exists o',
    write fuel o b = Some (Ok tt, o') /\
    view o' = (u16 (Z.of_nat (length b))
               ++ drop (Z.to_nat (2 - capacity)) b)%list.
Proof.
  intros Hcap Hmax Hb Hfit Hfuel Hinit.
  unfold Outbox_init in Hinit.
  destruct (Z.ltb_spec capacity 0); [lia |]. injection Hinit as <-.
  assert (Hn : 0 < Z.of_nat (length b))
    by (destruct b; [contradiction | simpl; lia]).
  set (l := replicate (Z.to_nat capacity) 0).
  assert (Hl : length l = Z.to_nat capacity) by apply length_replicate.
  destruct fuel as [| f]; [lia |].
  unfold write. cbn [write_loop _max_chunk_size _end _start _header _data].
  destruct (Z.leb_spec (Z.of_nat (length b)) 0); [lia |].
  rewrite Z.sub_diag, Z.sub_0_r.
  destruct (Z.eqb_spec max_chunk_size 0); [lia |]. cbn [orb].
  destruct (Z.ltb_spec max_chunk_size (Z.of_nat (length b))); [lia |].
  cbn [andb].
  replace (Z.min (Z.of_nat (length b)) max_chunk_size)
    with (Z.of_nat (length b)) by lia.
  rewrite struct_pack_H_u16 by lia.
  assert (Hg : getslice b 0 (0 + Z.of_nat (length b)) = b).
  { etrans; [apply (getslice_at b 0 (length b)); simpl; lia |].
    rewrite drop_0. apply take_ge. lia. }
  rewrite Hg, Z.sub_diag, write_loop_done0.
  rewrite (setslice_beyond l) by lia.
  rewrite (setslice_at [] (l ++ b) _ 2 0 (0 + 2) eq_refl eq_refl).
  eexists. split; [reflexivity |].
  unfold view. cbn [_end _start _data].
  destruct (Z.eqb_spec (2 + Z.of_nat (length b) - 2) 0); [lia |].
  rewrite prefix_slice_nat by lia.
  replace (2 + Z.of_nat (length b) - 2) with (Z.of_nat (length b)) by lia.
  rewrite take_ge.
  - simpl app. f_equal.
    assert (Hc : Z.to_nat capacity = 0%nat \/ Z.to_nat capacity = 1%nat
                 \/ Z.to_nat capacity = 2%nat) by lia.
    unfold l.
    destruct Hc as [Hc | [Hc | Hc]]; rewrite Hc;
      [replace (Z.to_nat (2 - capacity)) with 2%nat by lia
      | replace (Z.to_nat (2 - capacity)) with 1%nat by lia
      | replace (Z.to_nat (2 - capacity)) with 0%nat by lia]; reflexivity.
  - unfold u16. cbn [app length].
    rewrite length_drop, length_app, Hl. lia.
Qed.

Lemma write_on_small_capacity_witness :
  exists o',
    write 1 (mkOutbox 4 0 2 2 []) [1; 2; 3] = Some (Ok tt, o') /\
    view o' = [0; 3; 3].
Proof.
  apply (write_on_small_capacity 0 4 [1; 2; 3] 1 (mkOutbox 4 0 2 2 []));
    [lia | lia | discriminate | simpl; lia | lia | reflexivity].
Defined.


(** ** The error taxonomy, continued *)

Lemma table_forall (P : string * ExcClass -> bool)
    (l : list (string * ExcClass)) code c :
  forallb P l = true ->
  (list_to_map l : gmap string ExcClass) !! code = Some c ->
  P (code, c) = true.
Proof.
  intros Hall H. apply elem_of_list_to_map_2 in H.
  rewrite forallb_forall in Hall.
  apply list_elem_of_In in H. by apply Hall in H.
Qed.

(** The class [hydrate] picks and the attributes it sets, in terms of the
    code alone. *)
Lemma hydrate_classification cls message code metadata e :
  hydrate cls message code metadata = Ok e ->
  exists s,
    py_or code (VStr UNKNOWN_ERROR) = VStr s /\
    exc_class e = _extract_error_class cls (classification_of s) s /\
    getattr e "code" = Ok (VStr s) /\
    getattr e "classification" = Ok (VStr (classification_of s)) /\
    getattr e "message"
    = Ok (py_or message (VStr "An unknown error occurred")) /\
    (length (split "." s) <> 4%nat ->
     getattr e "category" = Ok (VStr "General") /\
     getattr e "title" = Ok (VStr "UnknownError")).
Proof.
  unfold hydrate, classification_of.
  fold UNKNOWN_ERROR. fold AUTHORIZATION_EXPIRED. intros H.
  destruct (py_or code _) as [| | | | s | | |] eqn:Ecode; try discriminate.
  exists s. split; [reflexivity |].
  destruct (String.eqb_spec s AUTHORIZATION_EXPIRED) as [-> | Hne].
  - injection H as <-. do 4 (split; [reflexivity |]).
    intros Hl. by contradict Hl.
  - destruct (split "." s) as [| p0 [| p1 [| p2 [| p3 [| p4 ps]]]]];
      injection H as <-; do 4 (split; [reflexivity |]);
      intros Hl; first [by contradict Hl | by split].
Qed.

(** Every class of a server error inherits [is_fatal_during_discovery] from
    [Neo4jError]. *)
Lemma is_fatal_during_discovery_code e s :
  exc_class e ∈ neo4j_classes ->
  getattr e "code" = Ok (VStr s) ->
  is_fatal_during_discovery e = Ok (is_fatal_code s).
Proof.
  intros Hc Hcode. unfold is_fatal_during_discovery.
  neo4j_class_cases Hc; rewrite Hc; simpl; rewrite Hcode; reflexivity.
Qed.

Lemma prefix_append (p s : string) :
  String.prefix p s = true -> exists t, s = (p ++ t)%string.
Proof.
  revert s. induction p as [| a p IH]; intros s H.
  - by exists s.
  - destruct s as [| b s]; [discriminate |]. simpl in H.
    destruct (Ascii.ascii_dec a b) as [-> | _]; [| discriminate].
    destruct (IH s H) as [t ->]. by exists t.
Qed.

Lemma split_security (t : string) :
  split "." ("Neo.ClientError.Security." ++ t)
  = "Neo" :: "ClientError" :: "Security" :: split "." t.
Proof. reflexivity. Qed.

(** The classification of a code that is fatal during discovery. *)
Lemma fatal_code_classification s :
  is_fatal_code s = true ->
  s <> AUTHORIZATION_EXPIRED /\
  (classification_of s = CLASSIFICATION_CLIENT
   \/ classification_of s = CLASSIFICATION_DATABASE).
Proof.
  unfold is_fatal_code. cbn [existsb].
  destruct (String.eqb_spec s "Neo.ClientError.Database.DatabaseNotFound")
    as [-> | _]; [intros _; split; [discriminate | by left] |].
  destruct (String.eqb_spec s "Neo.ClientError.Transaction.InvalidBookmark")
    as [-> | _]; [intros _; split; [discriminate | by left] |].
  destruct (String.eqb_spec s
              "Neo.ClientError.Transaction.InvalidBookmarkMixture")
    as [-> | _]; [intros _; split; [discriminate | by left] |].
  cbn [orb].
  destruct (String.prefix "Neo.ClientError.Security." s) eqn:Hp;
    [| discriminate].
  fold AUTHORIZATION_EXPIRED.
  destruct (String.eqb_spec s AUTHORIZATION_EXPIRED) as [-> | Hne];
    [discriminate |].
  intros _. split; [exact Hne |].
  apply prefix_append in Hp as [t ->].
  unfold classification_of.
  destruct (String.eqb_spec ("Neo.ClientError.Security." ++ t)
              AUTHORIZATION_EXPIRED); [contradiction |].
  rewrite split_security.
  destruct (split "." t) as [| h [| h2 tl]]; first [by left | by right].
Qed.

(** No code that is fatal during discovery has a class of transient errors
    in the tables. *)
Lemma client_errors_fatal_table code c :
  client_errors !! code = Some c ->
  (fun kv : string * ExcClass =>
     negb (is_fatal_code (fst kv))
     || negb (issubclass (snd kv) TransientError)) (code, c) = true.
Proof. apply table_forall. reflexivity. Qed.

Lemma client_errors_fatal code c :
  client_errors !! code = Some c ->
  is_fatal_code code = true ->
  issubclass c TransientError = false.
Proof.
  intros H Hf. apply client_errors_fatal_table in H.
  simpl in H. rewrite Hf in H. simpl in H.
  by apply negb_true_iff in H.
Qed.

(** The classes the tables hold. *)
Lemma client_errors_family_table code c :
  client_errors !! code = Some c ->
  (fun kv : string * ExcClass =>
     issubclass (snd kv) ClientError
     || bool_decide (snd kv = NotALeader)
     || bool_decide (snd kv = ForbiddenOnReadOnlyDatabase)) (code, c) = true.
Proof. apply table_forall. reflexivity. Qed.

Lemma client_errors_family code c :
  client_errors !! code = Some c ->
  issubclass c ClientError = true
  \/ c = NotALeader \/ c = ForbiddenOnReadOnlyDatabase.
Proof.
  intros H. apply client_errors_family_table in H. simpl in H.
  apply orb_true_iff in H as [H | H];
    [apply orb_true_iff in H as [H | H] |].
  - by left.
  - right. left. by apply bool_decide_eq_true in H.
  - right. right. by apply bool_decide_eq_true in H.
Qed.

Lemma transient_errors_family code c :
  transient_errors !! code = Some c ->
  (fun kv : string * ExcClass => issubclass (snd kv) TransientError)
    (code, c) = true.
Proof. apply table_forall. reflexivity. Qed.

(** [_extract_error_class] by classification. *)
Lemma extract_error_class_cases cls cl s :
  (cl = CLASSIFICATION_CLIENT ->
   _extract_error_class cls cl s
   = match client_errors !! s with Some c => c | None => ClientError end) /\
  (cl = CLASSIFICATION_TRANSIENT ->
   _extract_error_class cls cl s
   = match transient_errors !! s with
     | Some c => c
     | None => TransientError
     end) /\
  (cl = CLASSIFICATION_DATABASE ->
   _extract_error_class cls cl s = DatabaseError) /\
  (cl <> CLASSIFICATION_CLIENT -> cl <> CLASSIFICATION_TRANSIENT ->
   cl <> CLASSIFICATION_DATABASE -> _extract_error_class cls cl s = cls).
Proof.
  unfold _extract_error_class. split; [| split; [| split]].
  - intros ->. by rewrite String.eqb_refl.
  - intros ->.
    change (String.eqb CLASSIFICATION_TRANSIENT CLASSIFICATION_CLIENT)
      with false.
    by rewrite String.eqb_refl.
  - intros ->.
    change (String.eqb CLASSIFICATION_DATABASE CLASSIFICATION_CLIENT)
      with false.
    change (String.eqb CLASSIFICATION_DATABASE CLASSIFICATION_TRANSIENT)
      with false.
    by rewrite String.eqb_refl.
  - intros H1 H2 H3.
    destruct (String.eqb_spec cl CLASSIFICATION_CLIENT); [contradiction |].
    destruct (String.eqb_spec cl CLASSIFICATION_TRANSIENT);
      [contradiction |].
    destruct (String.eqb_spec cl CLASSIFICATION_DATABASE);
      [contradiction | reflexivity].
Qed.

(** X11.  Neo4jError, discovery: an error hydrated from FAILURE metadata that is
    fatal during discovery is never retriable, is no instance of
    [TransientError] and does not invalidate the other connections. *)
Theorem fatal_during_discovery_not_retriable
    (md : list (string * Value)) (e : Exc) :
  hydrate_kwargs Neo4jError md = Ok e ->
  is_fatal_during_discovery e = Ok true ->
  is_retriable e = Ok false /\
  isinstance e TransientError = false /\
  invalidates_all_connections e = Ok false.
Proof.
  intros H Hfatal.
  pose proof (hydrate_class _ _ _ _ _ Neo4jError_in_classes H) as Hcls.
  apply hydrate_classification in H as (s & _ & Hc & Hcode & _).
  rewrite (is_fatal_during_discovery_code _ _ Hcls Hcode) in Hfatal.
  injection Hfatal as Hfatal.
  destruct (fatal_code_classification s Hfatal) as [Hne Hcl].
  assert (Ht : isinstance e TransientError = false).
  { unfold isinstance. rewrite Hc.
    destruct (extract_error_class_cases Neo4jError (classification_of s) s)
      as (Hx1 & _ & Hx3 & _).
    destruct Hcl as [Hcl | Hcl]; [rewrite (Hx1 Hcl) | by rewrite (Hx3 Hcl)].
    destruct (client_errors !! s) as [c |] eqn:E; [| reflexivity].
    by apply (client_errors_fatal s c). }
  split; [| split].
  - rewrite (is_retriable_code _ _ Hcls Hcode), Ht. reflexivity.
  - exact Ht.
  - rewrite (invalidates_all_connections_code _ _ Hcls Hcode).
    f_equal. by apply String.eqb_neq.
Qed.

Lemma fatal_during_discovery_not_retriable_witness :
  exists e,
    hydrate_kwargs Neo4jError
      [("code", VStr "Neo.ClientError.Security.Unauthorized")] = Ok e /\
    is_fatal_during_discovery e = Ok true /\
    is_retriable e = Ok false.
Proof.
  eexists. split; [reflexivity |]. split; [reflexivity |].
  apply (fatal_during_discovery_not_retriable
           [("code", VStr "Neo.ClientError.Security.Unauthorized")]);
    reflexivity.
Defined.

(** X12.  Neo4jError.hydrate, class against classification: the class of a
    hydrated error follows the classification it carries.  Classification
    [ClientError] gives an instance of [ClientError], but for the two codes
    the table maps to [NotALeader] and [ForbiddenOnReadOnlyDatabase], which
    are transient errors; [TransientError] gives an instance of
    [TransientError]; [DatabaseError] gives exactly [DatabaseError]; any
    other classification gives a plain [Neo4jError].  A code that has not
    four dot-separated parts is kept as the code of a [DatabaseError] of
    category [General] and title [UnknownError]. *)
Theorem hydrate_class_follows_classification
    (md : list (string * Value)) (e : Exc) :
  hydrate_kwargs Neo4jError md = Ok e ->
  exists s cl,
    getattr e "code" = Ok (VStr s) /\
    getattr e "classification" = Ok (VStr cl) /\
    (cl = "ClientError" ->
     isinstance e ClientError = true
     \/ exc_class e = NotALeader
     \/ exc_class e = ForbiddenOnReadOnlyDatabase) /\
    (cl = "TransientError" -> isinstance e TransientError = true) /\
    (cl = "DatabaseError" -> exc_class e = DatabaseError) /\
    (cl <> "ClientError" -> cl <> "TransientError" ->
     cl <> "DatabaseError" -> exc_class e = Neo4jError) /\
    (length (split "." s) <> 4%nat ->
     exc_class e = DatabaseError /\
     getattr e "category" = Ok (VStr "General") /\
     getattr e "title" = Ok (VStr "UnknownError")).
Proof.
  intros H.
  apply hydrate_classification in H as (s & _ & Hc & Hcode & Hcl & _ & Hmal).
  exists s, (classification_of s).
  split; [exact Hcode |]. split; [exact Hcl |].
  unfold isinstance. rewrite Hc.
  destruct (extract_error_class_cases Neo4jError (classification_of s) s)
    as (Hx1 & Hx2 & Hx3 & Hx4).
  split; [| split; [| split; [| split]]].
  - intros E. rewrite (Hx1 E).
    destruct (client_errors !! s) as [c |] eqn:Ec; [| by left].
    by apply (client_errors_family s c).
  - intros E. rewrite (Hx2 E).
    destruct (transient_errors !! s) as [c |] eqn:Ec; [| reflexivity].
    by apply (transient_errors_family s c).
  - exact Hx3.
  - exact Hx4.
  - intros Hl. split; [| by apply Hmal].
    apply Hx3. unfold classification_of.
    destruct (String.eqb_spec s AUTHORIZATION_EXPIRED) as [-> | _];
      [by contradict Hl |].
    destruct (split "." s) as [| p0 [| p1 [| p2 [| p3 [| p4 ps]]]]];
      first [reflexivity | exfalso; apply Hl; reflexivity].
Qed.

Lemma hydrate_class_follows_classification_witness :
  exists e s cl,
    hydrate_kwargs Neo4jError
      [("code", VStr "Neo.ClientError.Cluster.NotALeader")] = Ok e /\
    getattr e "code" = Ok (VStr s) /\
    getattr e "classification" = Ok (VStr cl) /\
    (cl = "ClientError" ->
     isinstance e ClientError = true
     \/ exc_class e = NotALeader
     \/ exc_class e = ForbiddenOnReadOnlyDatabase).
Proof.
  destruct (hydrate_class_follows_classification
              [("code", VStr "Neo.ClientError.Cluster.NotALeader")] _ eq_refl)
    as (s & cl & Hcode & Hcl & Hclient & _).
  eexists. exists s, cl. split; [reflexivity |].
  split; [exact Hcode |]. split; [exact Hcl | exact Hclient].
Defined.

(** X13.  is_retriable, driver errors: on an instance of [DriverError] the
    method is true exactly for [SessionExpired] and for [ServiceUnavailable]
    with its subclasses other than [IncompleteCommit], whichever class of
    the family defines or inherits it.  [UnsupportedServerProduct], the one
    class of the module outside the families of [Neo4jError] and
    [DriverError], has no such method: the call raises [AttributeError]. *)
Theorem is_retriable_driver_errors (e : Exc) :
  (isinstance e DriverError = true ->
   is_retriable e
   = Ok ((isinstance e SessionExpired || isinstance e ServiceUnavailable)
         && negb (isinstance e IncompleteCommit))) /\
  (exc_class e = UnsupportedServerProduct ->
   exists x,
     is_retriable e = Raise x /\ exc_class x = AttributeError).
Proof.
  unfold isinstance, is_retriable.
  split.
  - intros H.
    destruct (exc_class e); first [discriminate H | reflexivity].
  - intros ->. eexists. split; reflexivity.
Qed.

Lemma is_retriable_driver_errors_witness :
  is_retriable (mkExc ReadServiceUnavailable [] []) = Ok true /\
  is_retriable (mkExc IncompleteCommit [] []) = Ok false /\
  exists x,
    is_retriable (mkExc UnsupportedServerProduct [] []) = Raise x /\
    exc_class x = AttributeError.
Proof.
  split; [| split].
  - apply (proj1 (is_retriable_driver_errors
                    (mkExc ReadServiceUnavailable [] []))).
    reflexivity.
  - apply (proj1 (is_retriable_driver_errors (mkExc IncompleteCommit [] []))).
    reflexivity.
  - apply (proj2 (is_retriable_driver_errors
                    (mkExc UnsupportedServerProduct [] []))).
    reflexivity.
Defined.

(** X14.  Driver errors, construction: [SessionExpired(session, ...)] keeps the
    session as the first element of [args]; [TransactionError] and
    [ResultError] with its subclasses take their first argument off [args]
    and keep it as the attribute [transaction] or [result]; each of these
    classes raises [TypeError] when built without an argument, while the
    classes without an [__init__] of their own accept any arguments, none
    included. *)
Theorem driver_error_constructors (v : Value) (args : list Value) :
  (exists e,
     construct SessionExpired (v :: args) [] = Ok e /\
     exc_class e = SessionExpired /\
     exc_args e = v :: args) /\
  (exists e,
     construct TransactionError (v :: args) [] = Ok e /\
     exc_class e = TransactionError /\
     exc_args e = args /\
     getattr e "transaction" = Ok v) /\
  (forall c,
     c ∈ [ResultError; ResultConsumedError; ResultNotSingleError] ->
     exists e,
       construct c (v :: args) [] = Ok e /\
       exc_class e = c /\
       exc_args e = args /\
       getattr e "result" = Ok v) /\
  (forall c,
     c ∈ [SessionExpired; TransactionError; ResultError;
          ResultConsumedError; ResultNotSingleError] ->
     exists x, construct c [] [] = Raise x /\ exc_class x = TypeError) /\
  (forall c,
     c ∈ [DriverError; ServiceUnavailable; RoutingServiceUnavailable;
          WriteServiceUnavailable; ReadServiceUnavailable; IncompleteCommit;
          ConfigurationError; AuthConfigurationError;
          CertificateConfigurationError] ->
     construct c args [] = Ok (mkExc c args [])).
Proof.
  split; [| split; [| split; [| split]]].
  - eexists. split; [reflexivity |]. by split.
  - eexists. split; [reflexivity |]. by repeat split.
  - intros c Hc.
    repeat (apply elem_of_cons in Hc as [-> | Hc];
            [eexists; split; [reflexivity |]; by repeat split |]).
    by apply elem_of_nil in Hc.
  - intros c Hc.
    repeat (apply elem_of_cons in Hc as [-> | Hc];
            [eexists; split; reflexivity |]).
    by apply elem_of_nil in Hc.
  - intros c Hc.
    repeat (apply elem_of_cons in Hc as [-> | Hc]; [reflexivity |]).
    by apply elem_of_nil in Hc.
Qed.

Lemma driver_error_constructors_witness :
  (exists e,
     construct ResultNotSingleError [VStr "result"; VStr "no records"] []
     = Ok e /\
     exc_args e = [VStr "no records"] /\
     getattr e "result" = Ok (VStr "result")) /\
  (exists x,
     construct SessionExpired [] [] = Raise x /\ exc_class x = TypeError).
Proof.
  pose proof (driver_error_constructors (VStr "result") [VStr "no records"])
    as (_ & _ & Hres & Hnone & _).
  split.
  - destruct (Hres ResultNotSingleError) as (e & H1 & _ & H2 & H3);
      [set_solver |].
    exists e. by repeat split.
  - apply Hnone. set_solver.
Defined.

(** ** The protocol handlers, continued *)

Section Requests.

Context {U : Type} `{!Env U}.

Ltac builder :=
  intros; intros c u;
  unfold raise_impersonation, Response_new, _append, bind, lift, get_conn,
    modify, ret, raise_cls, raise;
  simpl; repeat case_match; simplify_eq/=;
  first [left; eexists; reflexivity | right; eexists; reflexivity].

Lemma run_all_or_nothing v q p mode b md t db iu h :
  all_or_nothing (run v q p mode b md t db iu h) 16 "run" Response_ h.
Proof. destruct v; unfold run, run_4x0, run_4x4, run_5x0; builder. Qed.

Lemma begin_all_or_nothing v mode b md t db iu h :
  all_or_nothing (begin v mode b md t db iu h) 17 "begin" Response_ h.
Proof. destruct v; unfold begin, begin_4x0, begin_4x4, begin_5x0; builder. Qed.

(** X15.  Request builders, all or nothing: [run] and [begin] of every protocol
    version, [discard], [pull], [commit] and [rollback] either raise, and
    then leave the connection untouched (no message is written, no response
    is queued), or append exactly one message with the signature of the
    request and queue exactly one new response for it, which carries the
    handlers given and is not complete (the appending itself is that of
    [_append]). *)
Theorem request_builders_all_or_nothing :
  (forall v q p mode b md t db iu h,
     all_or_nothing (run v q p mode b md t db iu h) 16 "run" Response_ h) /\
  (forall v mode b md t db iu h,
     all_or_nothing (begin v mode b md t db iu h) 17 "begin" Response_ h) /\
  (forall n qid h,
     @all_or_nothing U (discard n qid h) 47 "discard" Response_ h) /\
  (forall n qid h,
     @all_or_nothing U (pull n qid h) 63 "pull" Response_ h) /\
  (forall h, @all_or_nothing U (commit h) 18 "commit" CommitResponse h) /\
  (forall h, @all_or_nothing U (rollback h) 19 "rollback" Response_ h).
Proof.
  split; [exact run_all_or_nothing |].
  split; [exact begin_all_or_nothing |].
  repeat split; unfold discard, pull, commit, rollback; builder.
Qed.

(** The summaries other than FAILURE run callbacks only. *)
Lemma summary_dispatch_ignored (r : Response) md (s : Conn * U) :
  summary_dispatch 126 r md s = on_ignored r (py_or md (VDict [])) s.
Proof. reflexivity. Qed.


(** X17.  _process_message, SUCCESS and IGNORED: with a response at the head, an
    IGNORED summary leaves the server state as it is, and neither summary
    writes a message or calls the pool; what changes of the connection is
    the queue, the completed response, the server state by the transition
    of a SUCCESS, and what the callbacks store in the local dicts and lists
    they are bound to.  A transition that raises stops a SUCCESS before any
    callback runs. *)
Theorem process_message_success_ignored (c : Conn) (u : U) (md : Value)
    (ref : nat) (rest : list (option nat)) (r : Response) :
  responses c = Some ref :: rest ->
  heap c !! ref = Some r ->
  (exists res c' u',
     _process_message [] (Some 126) md (c, u) = (res, (c', u')) /\
     c' = set_cells (cells c') (after_pop c ref r rest) /\
     server_state c' = server_state c /\
     outbox c' = outbox c /\
     pool_calls c' = pool_calls c /\
     responses c' = rest) /\
  (forall st,
     transition (server_state c) (message r) md = Ok st ->
     exists res c' u',
       _process_message [] (Some 112) md (c, u) = (res, (c', u')) /\
       c' = set_cells (cells c')
              (set_server_state st (after_pop c ref r rest)) /\
       server_state c' = st /\
       outbox c' = outbox c /\
       pool_calls c' = pool_calls c /\
       responses c' = rest) /\
  (forall e,
     transition (server_state c) (message r) md = Raise e ->
     _process_message [] (Some 112) md (c, u)
     = (Raise e, (after_pop c ref r rest, u))).
Proof.
  intros Hq Hh. split; [| split].
  - rewrite (process_summary _ _ _ _ _ _ _ Hq Hh).
    unfold bind at 1. rewrite summary_dispatch_ignored.
    destruct (on_ignored (set_complete r) (py_or md (VDict []))
                (after_pop c ref r rest, u)) as [res [c' u']] eqn:E.
    apply on_ignored_conn in E.
    exists (match res with Ok _ => Ok (0%nat, 1%nat) | Raise e => Raise e end),
      c', u'.
    split; [by destruct res |]. split; [exact E |].
    rewrite E. by repeat split.
  - intros st Ht.
    rewrite (process_summary _ _ _ _ _ _ _ Hq Hh).
    unfold bind at 1. unfold summary_dispatch. simpl.
    unfold bind at 1. unfold get_conn at 1. simpl.
    unfold bind at 1. unfold lift at 1. simpl. rewrite Ht.
    unfold bind at 1. unfold modify at 1. simpl.
    destruct (on_success (set_complete r) (py_or md (VDict []))
                (set_server_state st (after_pop c ref r rest), u))
      as [res [c' u']] eqn:E.
    apply on_success_conn in E.
    exists (match res with Ok _ => Ok (0%nat, 1%nat) | Raise e => Raise e end),
      c', u'.
    split; [by destruct res |]. split; [exact E |].
    rewrite E. by repeat split.
  - intros e Ht.
    rewrite (process_summary _ _ _ _ _ _ _ Hq Hh).
    unfold bind at 1. unfold summary_dispatch. simpl.
    unfold bind at 1. unfold get_conn at 1. simpl.
    unfold bind at 1. unfold lift at 1. simpl. rewrite Ht. reflexivity.
Qed.

Lemma not_Neo4jError_not_subclasses e :
  isinstance e Neo4jError = false ->
  isinstance e DatabaseUnavailable = false /\
  isinstance e NotALeader = false /\
  isinstance e ForbiddenOnReadOnlyDatabase = false.
Proof.
  unfold isinstance.
  destruct (exc_class e); intros H;
    first [discriminate H | by repeat split].
Qed.

(** X18.  FAILURE with a failing reset: [Response.on_failure] first resets the
    connection.  When the reset raises [SessionExpired] or
    [ServiceUnavailable] the error is dropped and the failure goes on to the
    callbacks and to the error of the server.  When it raises any other
    error that is no [Neo4jError], that error leaves [_process_message] in
    place of the error of the server: the callbacks [on_failure] and
    [on_summary] do not run and the pool is not called. *)
Theorem failure_with_failing_reset (c : Conn) (u : U) (md : Value)
    (ref : nat) (rest : list (option nat)) (r : Response)
    (e : Exc) (s2 : Conn * U) :
  responses c = Some ref :: rest ->
  heap c !! ref = Some r ->
  resp_class r <> InitResponse ->
  let c1 := set_server_state FAILED (after_pop c ref r rest) in
  let response := set_complete r in
  reset (c1, u) = (Raise e, s2) ->
  (caught_by e [SessionExpired; ServiceUnavailable] = true ->
   on_failure reset response (py_or md (VDict [])) (c1, u)
   = (fire response "on_failure" [py_or md (VDict [])] ;;;
      fire response "on_summary" [] ;;;
      raise_hydrated (py_or md (VDict []))) s2) /\
  (caught_by e [SessionExpired; ServiceUnavailable] = false ->
   isinstance e Neo4jError = false ->
   _process_message [] (Some 127) md (c, u) = (Raise e, s2)).
Proof.
  intros Hq Hh Hcls c1 response Hreset.
  assert (Hon : on_failure reset response (py_or md (VDict []))
                = Response_on_failure reset response (py_or md (VDict []))).
  { unfold on_failure, response. simpl.
    destruct (resp_class r); [reflexivity | contradiction | reflexivity]. }
  split.
  - intros Hc. rewrite Hon. unfold Response_on_failure.
    unfold bind at 1. unfold try_except. rewrite Hreset, Hc. reflexivity.
  - intros Hc Hn.
    rewrite (process_summary _ _ _ _ _ _ _ Hq Hh).
    unfold summary_dispatch. simpl.
    unfold bind at 1. unfold bind at 1. unfold modify at 1. simpl.
    fold c1. fold response. rewrite Hon.
    unfold try_except at 1. unfold Response_on_failure.
    unfold bind at 1. unfold try_except at 1. rewrite Hreset, Hc.
    unfold raise at 1. destruct s2 as [c2 u2].
    unfold on_failure_except, bind, get_conn. simpl.
    destruct (not_Neo4jError_not_subclasses e Hn) as (H1 & H2 & H3).
    unfold caught_by in *. simpl in Hc |- *.
    apply orb_false_iff in Hc as [_ Hc].
    apply orb_false_iff in Hc as [Hc _].
    rewrite Hc, H1, H2, H3, Hn. reflexivity.
Qed.

Lemma bind_Ok {A B} (m : M U A) (k : A -> M U B) s a s' :
  m s = (Ok a, s') -> bind m k s = k a s'.
Proof. intros H. unfold bind. by rewrite H. Qed.

(** A [run] in read mode against a database, with parameters and nothing
    else. *)
Lemma run_read_only v (q : Value) (params : list (string * Value)) kv
    (db : string) (i : nat) (c : Conn) (u : U) :
  db <> "" ->
  run v q (VDict (kv :: params)) (VStr "r") VNone VNone VNone (VStr db) VNone
    [("on_success", HDictUpdate i)] (c, u)
  = (Ok tt,
     (queued c
        (mkMessage 16
           [q; VDict (kv :: params);
            VDict [("mode", VStr "r"); ("db", VStr db)]])
        (mkResponse Response_ [("on_success", HDictUpdate i)] "run" false),
      u)).
Proof.
  intros Hdb.
  assert (Ht : truthy (VStr db) = true) by (destruct db; [done | reflexivity]).
  destruct v; unfold run, run_4x0, run_4x4, run_5x0, set_db, set_imp_user,
    set_mode; rewrite Ht;
    change (eq_str (VStr "r") "r") with true; rewrite orb_true_r;
    reflexivity.
Qed.

(** X19.  Routing on Bolt 4.0 to 4.2 without bookmarks: [route] does not accept
    impersonation; otherwise it appends a RUN of the routing procedure, in
    read mode against the [system] database, with an argument for the
    database only when one is named, and a PULL of all the records, before
    anything is sent. *)
Theorem route_4x0_requests (database imp_user : Value) (c : Conn) (u : U) :
  (imp_user <> VNone ->
   exists e,
     route_4x0 database imp_user VNone (c, u) = (Raise e, (c, u)) /\
     exc_class e = ConfigurationError) /\
  (imp_user = VNone ->
   let metadata := length (cells c) in
   let records := S (length (cells c)) in
   let c0 := set_cells (cells c ++ [VDict []; VList []]) c in
   let extra := VDict [("mode", VStr "r"); ("db", VStr "system")] in
   let run_message :=
     if is_none database then
       mkMessage 16
         [VStr "CALL dbms.routing.getRoutingTable($context)";
          VDict [("context", routing_context c)]; extra]
     else
       mkMessage 16
         [VStr "CALL dbms.routing.getRoutingTable($context, $database)";
          VDict [("context", routing_context c); ("database", database)];
          extra] in
   let c1 := queued c0 run_message
               (mkResponse Response_ [("on_success", HDictUpdate metadata)]
                  "run" false) in
   let c2 := queued c1 (mkMessage 63 [VDict [("n", VInt (-1))]])
               (mkResponse Response_
                  [("on_success", HDictUpdate metadata);
                   ("on_records", HListExtend records)] "pull" false) in
   route_4x0 database imp_user VNone (c, u)
   = route_4x0_exchange metadata records (c2, u)).
Proof.
  split.
  - intros Hi. unfold route_4x0. rewrite (is_none_false _ Hi). simpl.
    eexists. by split.
  - intros -> metadata records c0 extra run_message c1 c2.
    unfold route_4x0. cbn [is_none negb].
    erewrite bind_Ok; [| reflexivity].
    erewrite bind_Ok; [| reflexivity].
    erewrite bind_Ok; [| reflexivity].
    cbn [fst version routing_context set_cells cells].
    rewrite length_app, Nat.add_1_r. cbn [length].
    fold metadata. fold records.
    assert (Hc0 : set_cells ((cells c ++ [VDict []]) ++ [VList []])
                    (set_cells (cells c ++ [VDict []]) c) = c0).
    { unfold c0. rewrite <- app_assoc. by destruct c. }
    rewrite Hc0.
    assert (Hrun :
      (if is_none database
       then run (version c)
              (VStr "CALL dbms.routing.getRoutingTable($context)")
              (VDict [("context", routing_context c)]) (VStr "r") VNone
              VNone VNone (VStr SYSTEM_DATABASE) VNone
              [("on_success", HDictUpdate metadata)]
       else run (version c)
              (VStr "CALL dbms.routing.getRoutingTable($context, $database)")
              (VDict [("context", routing_context c);
                      ("database", database)]) (VStr "r") VNone
              VNone VNone (VStr SYSTEM_DATABASE) VNone
              [("on_success", HDictUpdate metadata)]) (c0, u)
      = (Ok tt, (c1, u))).
    { unfold c1, run_message.
      destruct (is_none database); by rewrite run_read_only. }
    erewrite bind_Ok; [| exact Hrun].
    erewrite bind_Ok; [| reflexivity].
    reflexivity.
Qed.

End Requests.

(** X20.  The wrapper of [ConnectionErrorHandler] swallows nothing: when the
    method raises, so does the wrapper, with the error of the method unless
    [on_error] raised one of its own. *)
Theorem ConnectionErrorHandler_never_swallows {W : Type}
    (self : ConnectionErrorHandler W)
    (func : list Value -> list (string * Value) -> W -> Result Value * W)
    (args : list Value) (kwargs : list (string * Value)) (w w' : W)
    (exc : Exc) :
  func args kwargs w = (Raise exc, w') ->
  (exists exc' w'', inner self func args kwargs w = (Raise exc', w'')) /\
  (forall exc' w'',
     caught_by exc [Neo4jError; ServiceUnavailable; SessionExpired] = true ->
     on_error self exc w' = (Raise exc', w'') ->
     inner self func args kwargs w = (Raise exc', w'')).
Proof.
  intros H. unfold inner. rewrite H. split.
  - destruct (caught_by exc _); [| by eauto].
    destruct (on_error self exc w') as [[v | exc'] w'']; eauto.
  - intros exc' w'' -> ->. reflexivity.
Qed.

(** A [run] with a timeout that is no number, and one without: the first
    leaves the connection as it is, the second appends RUN. *)
Lemma request_builders_all_or_nothing_witness :
  (exists e,
     @run nat idle_env Bolt5x0 (VStr "RETURN 1") VNone VNone VNone VNone
       (VList []) VNone VNone [] (ready_conn, 0%nat)
     = (Raise e, (ready_conn, 0%nat))) /\
  (exists fields,
     @run nat idle_env Bolt5x0 (VStr "RETURN 1") VNone VNone VNone VNone
       VNone VNone VNone [] (ready_conn, 0%nat)
     = (Ok tt, (queued ready_conn (mkMessage 16 fields)
                  (mkResponse Response_ [] "run" false), 0%nat))).
Proof.
  split.
  - destruct (proj1 (@request_builders_all_or_nothing nat idle_env)
                Bolt5x0 (VStr "RETURN 1") VNone VNone VNone VNone
                (VList []) VNone VNone [] ready_conn 0%nat) as [H | [f H]];
      [exact H | discriminate H].
  - destruct (proj1 (@request_builders_all_or_nothing nat idle_env)
                Bolt5x0 (VStr "RETURN 1") VNone VNone VNone VNone
                VNone VNone VNone [] ready_conn 0%nat) as [[e H] | H];
      [discriminate H | exact H].
Defined.


(** IGNORED and SUCCESS in reply to the pending [run]. *)
Lemma process_message_success_ignored_witness :
  (exists res c' u',
     @_process_message nat idle_env [] (Some 126) VNone pending_run
     = (res, (c', u')) /\
     server_state c' = READY /\ pool_calls c' = []) /\
  (exists res c' u',
     @_process_message nat idle_env [] (Some 112) VNone pending_run
     = (res, (c', u')) /\
     server_state c' = STREAMING /\ pool_calls c' = []).
Proof.
  pose proof (@process_message_success_ignored nat idle_env
                (fst pending_run) (snd pending_run) VNone 0%nat []
                (mkResponse Response_ [] "run" false) eq_refl eq_refl)
    as (Hi & Hs & _).
  split.
  - destruct Hi as (res & c' & u' & H1 & _ & H2 & _ & H3 & _).
    exists res, c', u'. split; [exact H1 |]. split; [exact H2 | exact H3].
  - destruct (Hs STREAMING eq_refl)
      as (res & c' & u' & H1 & _ & H2 & _ & H3 & _).
    exists res, c', u'. split; [exact H1 |]. split; [exact H2 | exact H3].
Defined.

(** A FAILURE in reply to the pending [run] on a connection that cannot
    fetch the reply to its RESET: the protocol error replaces the error of
    the server and the pool is not called. *)
Lemma failure_with_failing_reset_witness :
  exists e s2,
    @_process_message nat dead_env [] (Some 127)
      (VDict [("code", VStr "Neo.ClientError.Statement.SyntaxError")])
      pending_run = (Raise e, s2) /\
    exc_class e = BoltProtocolError /\
    pool_calls (fst s2) = [].
Proof.
  eexists. eexists. split; [| split].
  - apply (proj2 (@failure_with_failing_reset nat dead_env
                    (fst pending_run) (snd pending_run)
                    (VDict [("code",
                             VStr "Neo.ClientError.Statement.SyntaxError")])
                    0%nat [] (mkResponse Response_ [] "run" false) _ _
                    eq_refl eq_refl ltac:(discriminate) eq_refl));
      reflexivity.
  - reflexivity.
  - reflexivity.
Defined.

(** Routing on a new 4.0 connection, with and without impersonation. *)
Lemma route_4x0_requests_witness :
  (exists e,
     @route_4x0 nat idle_env VNone (VStr "alice") VNone
       (new_conn Bolt4x0 true (VStr "host:7687") VNone, 0%nat)
     = (Raise e, (new_conn Bolt4x0 true (VStr "host:7687") VNone, 0%nat)) /\
     exc_class e = ConfigurationError) /\
  (exists c2,
     @route_4x0 nat idle_env (VStr "neo4j") VNone VNone
       (new_conn Bolt4x0 true (VStr "host:7687") VNone, 0%nat)
     = @route_4x0_exchange nat idle_env 0 1 (c2, 0%nat) /\
     tag <$> outbox c2 = [16; 63]).
Proof.
  split.
  - apply (proj1 (@route_4x0_requests nat idle_env VNone (VStr "alice")
                    (new_conn Bolt4x0 true (VStr "host:7687") VNone) 0%nat)).
    discriminate.
  - eexists. split.
    + apply (proj2 (@route_4x0_requests nat idle_env (VStr "neo4j") VNone
                      (new_conn Bolt4x0 true (VStr "host:7687") VNone)
                      0%nat) eq_refl).
    + reflexivity.
Defined.

(** The method [fetch_all] of the sample connection raises
    [SessionExpired]. *)
Lemma ConnectionErrorHandler_never_swallows_witness :
  exists exc' w'',
    inner sample_handler
      (fun _ _ w => (Raise (mkExc SessionExpired [VStr "gone"] []), w))
      [] [] [] = (Raise exc', w'').
Proof.
  apply (proj1 (ConnectionErrorHandler_never_swallows sample_handler
                  (fun _ _ w =>
                     (Raise (mkExc SessionExpired [VStr "gone"] []), w))
                  [] [] [] [] _ eq_refl)).
Defined.
